(** * Reconciliation engine of the receipt/bank-statement service

    A shallow embedding of [app/services/bank_transaction_service.py]
    (class [BankTransactionService]) together with the parts of
    [app/models], [app/schemas] and [app/api/v1/bank_transactions.py] it
    relies on, and the properties of the reconciliation engine proved on it.

    Conventions of the embedding.
    - Python [str] values are Rocq [string]s; the character-level helpers
      below give the behaviour of the [str] methods on ASCII text.
    - Python [float] amounts and scores are exact rationals [Q]: the
      thresholds the code compares against ([0.01], [0.7], ...) are the
      decimal numbers written in the source.  Sums and products of scores
      are exact here, where the source rounds every operation to a double:
      0.4 + 0.2 + 0.1 is 7/10 here and 0.7000000000000001 there.  The
      properties of the matching loop that hold whatever the scores are
      (the tie-breaking rule, the soundness of the entries of [matched],
      the ledger records left unmatched) are therefore stated for the loop
      run with any scoring function and any threshold ([greedy_match]),
      the doubles the code compares included.
    - [None] is [None]; Python truthiness ([if x:]) is written out at every
      use ([Some] non-empty string, [Some] non-zero number).
    - The external GPT calls are parameters of the functions that issue
      them; a failing call is a distinguished reply. *)

From Stdlib Require Import ZArith QArith Qabs Lqa String Ascii List.
From Stdlib Require Import DecimalString.
From stdpp Require Import gmap strings list.

Local Open Scope Z_scope.

(* ================================================================== *)
(** * Python string methods on ASCII text *)
(* ================================================================== *)

Module PyStr.

(** [str.isspace] on one ASCII character: TAB, LF, VT, FF, CR, the four
    separators FS, GS, RS, US, and the space. *)
Definition isspace (c : ascii) : bool :=
  let n := nat_of_ascii c in
  ((9 <=? n)%nat && (n <=? 13)%nat) || ((28 <=? n)%nat && (n <=? 32)%nat).

Definition isdigit (c : ascii) : bool :=
  let n := nat_of_ascii c in (48 <=? n)%nat && (n <=? 57)%nat.

Definition isupper (c : ascii) : bool :=
  let n := nat_of_ascii c in (65 <=? n)%nat && (n <=? 90)%nat.

Definition islower (c : ascii) : bool :=
  let n := nat_of_ascii c in (97 <=? n)%nat && (n <=? 122)%nat.

Definition upper_char (c : ascii) : ascii :=
  if islower c then ascii_of_nat (nat_of_ascii c - 32) else c.

Definition lower_char (c : ascii) : ascii :=
  if isupper c then ascii_of_nat (nat_of_ascii c + 32) else c.

Definition chars (s : string) : list ascii := list_ascii_of_string s.
Definition str (l : list ascii) : string := string_of_list_ascii l.

Definition upper (s : string) : string := str (map upper_char (chars s)).
Definition lower (s : string) : string := str (map lower_char (chars s)).

Fixpoint lstrip_chars (l : list ascii) : list ascii :=
  match l with
  | c :: l' => if isspace c then lstrip_chars l' else l
  | [] => []
  end.

Definition rstrip_chars (l : list ascii) : list ascii :=
  rev (lstrip_chars (rev l)).

Definition strip_chars (l : list ascii) : list ascii :=
  rstrip_chars (lstrip_chars l).

(** [s.strip()] *)
Definition strip (s : string) : string := str (strip_chars (chars s)).

(** [s.split()]: the maximal runs of non-whitespace characters, in
    order; [cur] is the run being read, reversed. *)
Fixpoint split_chars (cur : list ascii) (l : list ascii) : list (list ascii) :=
  match l with
  | [] => match cur with [] => [] | _ => [rev cur] end
  | c :: l' =>
      if isspace c
      then match cur with
           | [] => split_chars [] l'
           | _ => rev cur :: split_chars [] l'
           end
      else split_chars (c :: cur) l'
  end.

Definition split (s : string) : list string :=
  map str (split_chars [] (chars s)).

(** [s.startswith(p)] *)
Definition startswith (s p : string) : bool := String.prefix p s.

(** [s.endswith(p)] *)
Definition endswith (s p : string) : bool :=
  String.prefix (str (rev (chars p))) (str (rev (chars s))).

(** [s[n:]] and [s[:n]] for a non-negative [n]. *)
Definition slice_from (n : nat) (s : string) : string := str (drop n (chars s)).
Definition slice_to (n : nat) (s : string) : string := str (take n (chars s)).

(** [c in s] for a one-character [c], [s.count(c)], [s.replace(c, r)]. *)
Definition contains_char (c : ascii) (s : string) : bool :=
  existsb (Ascii.eqb c) (chars s).

Definition count_char (c : ascii) (s : string) : nat :=
  length (filter (fun x => Ascii.eqb c x = true) (chars s)).

Definition replace_char (c : ascii) (r : string) (s : string) : string :=
  str (flat_map (fun x => if Ascii.eqb c x then chars r else [x]) (chars s)).

(** [re.sub('[...]', '', s)] for a one-character class: the characters
    of the class are dropped. *)
Definition remove_chars (cls : ascii -> bool) (s : string) : string :=
  str (filter (fun x => cls x = false) (chars s)).

(** [s.split(c)] for a one-character separator: always at least one
    part, empty parts kept. *)
Fixpoint split_on_chars (c : ascii) (cur : list ascii) (l : list ascii)
  : list (list ascii) :=
  match l with
  | [] => [rev cur]
  | x :: l' =>
      if Ascii.eqb c x then rev cur :: split_on_chars c [] l'
      else split_on_chars c (x :: cur) l'
  end.

Definition split_on (c : ascii) (s : string) : list string :=
  map str (split_on_chars c [] (chars s)).

(** [sep.join(parts)] *)
Fixpoint join (sep : string) (parts : list string) : string :=
  match parts with
  | [] => ""
  | [p] => p
  | p :: ps => p +:+ sep +:+ join sep ps
  end.

(** Truthiness of a [str]: non-empty. *)
Definition truthy (s : string) : bool :=
  match s with EmptyString => false | _ => true end.

(** Truthiness of an optional [str] column: neither [None] nor empty. *)
Definition truthy_opt (o : option string) : bool :=
  match o with Some s => truthy s | None => false end.

(** [o or ""] *)
Definition or_empty (o : option string) : string :=
  match o with Some s => if truthy s then s else "" | None => "" end.

(** Decimal rendering of a natural number, and zero-padding to a width. *)
Definition of_nat (n : nat) : string :=
  NilZero.string_of_uint (Nat.to_uint n).

Fixpoint zeros (n : nat) : string :=
  match n with O => "" | S n' => String "0" (zeros n') end.

Definition zfill (w : nat) (s : string) : string :=
  zeros (w - String.length s) +:+ s.

End PyStr.

(* ================================================================== *)
(** * Rational numbers standing for Python floats *)
(* ================================================================== *)

Module PyNum.

Definition ltb (x y : Q) : bool := negb (Qle_bool y x).
Definition leb (x y : Q) : bool := Qle_bool x y.
Definition eqb (x y : Q) : bool := Qeq_bool x y.

(** Truthiness of an optional [Float] column: a number other than zero. *)
Definition truthy_opt (o : option Q) : bool :=
  match o with Some q => negb (Qeq_bool q 0) | None => false end.

(** [min(x, 1.0)] and [max(0.0, x)] with Python's rule: the first
    argument is kept unless the second is strictly smaller (larger). *)
Definition min_first (a b : Q) : Q := if ltb b a then b else a.
Definition max_first (a b : Q) : Q := if ltb a b then b else a.

End PyNum.

(* ================================================================== *)
(** * [datetime] values *)
(* ================================================================== *)

Module Datetime.

(** A naive [datetime.datetime], stored by its civil fields as Python
    stores it. *)
Record t := mk {
  year : Z; month : Z; day : Z;
  hour : Z; minute : Z; second : Z; microsecond : Z
}.

Definition eqb (a b : t) : bool :=
  (year a =? year b) && (month a =? month b) && (day a =? day b) &&
  (hour a =? hour b) && (minute a =? minute b) && (second a =? second b) &&
  (microsecond a =? microsecond b).

Definition is_leap (y : Z) : bool :=
  (y mod 4 =? 0) && (negb (y mod 100 =? 0) || (y mod 400 =? 0)).

Definition days_before_year (y : Z) : Z :=
  let p := y - 1 in p * 365 + p / 4 - p / 100 + p / 400.

Definition days_before_month (y m : Z) : Z :=
  nth (Z.to_nat m) [0; 0; 31; 59; 90; 120; 151; 181; 212; 243; 273; 304; 334] 0
  + (if (2 <? m) && is_leap y then 1 else 0).

(** [d.toordinal()] *)
Definition toordinal (d : t) : Z :=
  days_before_year (year d) + days_before_month (year d) (month d) + day d.

Definition us_per_day : Z := 86400 * 1000000.

(** [(a - b).days]: the difference is normalised so that the seconds and
    microseconds are non-negative, hence the floor. *)
Definition sub_days (a b : t) : Z :=
  let secs x := second x + minute x * 60 + hour x * 3600 in
  ((toordinal a - toordinal b) * us_per_day
   + (secs a - secs b) * 1000000
   + (microsecond a - microsecond b)) / us_per_day.

(** [d.strftime("%Y-%m-%d")] (years of four digits). *)
Definition strftime_ymd (d : t) : string :=
  PyStr.zfill 4 (PyStr.of_nat (Z.to_nat (year d))) +:+ "-" +:+
  PyStr.zfill 2 (PyStr.of_nat (Z.to_nat (month d))) +:+ "-" +:+
  PyStr.zfill 2 (PyStr.of_nat (Z.to_nat (day d))).

End Datetime.

(* ================================================================== *)
(** * Data model *)
(* ================================================================== *)

(** [app/models/transaction.py]: a ledger record, produced by the receipt
    extraction pipeline and only read here. *)
Record Transaction := mkTransaction {
  tx_id : Z;
  tx_user_id : Z;
  tx_merchant_name : option string;
  tx_amount : option Q;
  tx_currency : option string;
  tx_transaction_date : option Datetime.t;
  tx_category : option string;
  tx_description : option string
}.

(** [app/models/bank_transaction.py]: every column but the primary key and
    the owner is nullable. *)
Record BankTransaction := mkBankTransaction {
  bank_id : Z;
  bank_user_id : Z;
  bank_upload_batch_id : option string;
  bank_date : option Datetime.t;
  bank_description : option string;
  bank_amount : option Q;
  bank_balance : option Q;
  bank_transaction_type : option string;
  bank_reference_number : option string;
  bank_category : option string;
  bank_merchant_name : option string;
  bank_is_matched : option bool;
  bank_matched_transaction_id : option Z;
  bank_match_confidence : option Q;
  bank_match_type : option string
}.

(** [app/schemas/bank_transaction.py]: [TransactionMatch]. *)
Record TransactionMatch := mkTransactionMatch {
  ledger_transaction : option Transaction;
  bank_transaction : option BankTransaction;
  match_type : string;
  confidence : option Q
}.

(* ================================================================== *)
(** * Match confidence *)
(* ================================================================== *)

Local Open Scope Q_scope.

(** [_calculate_string_similarity]: Jaccard index of the two word sets. *)
Definition _calculate_string_similarity (str1 str2 : string) : Q :=
  if negb (PyStr.truthy str1) || negb (PyStr.truthy str2) then 0
  else
    let words1 : gset string := list_to_set (PyStr.split str1) in
    let words2 : gset string := list_to_set (PyStr.split str2) in
    if bool_decide (words1 = ∅) || bool_decide (words2 = ∅) then 0
    else
      let intersection := words1 ∩ words2 in
      let union := words1 ∪ words2 in
      if bool_decide (union = ∅) then 0
      else Z.of_nat (size intersection) # Pos.of_nat (size union).

(** The four additive components of [_calculate_match_confidence], in the
    order the source adds them. *)
Definition amount_component (ledger_tx : Transaction) (bank_tx : BankTransaction) : Q :=
  match tx_amount ledger_tx, bank_amount bank_tx with
  | Some la, Some ba =>
      if PyNum.ltb (Qabs (la - ba)) 0.01 then 0.4
      else if PyNum.ltb (Qabs (la - ba)) 0.1 then 0.2
      else 0
  | _, _ => 0
  end.

Definition date_component (ledger_tx : Transaction) (bank_tx : BankTransaction) : Q :=
  match tx_transaction_date ledger_tx, bank_date bank_tx with
  | Some ld, Some bd =>
      let date_diff := Z.abs (Datetime.sub_days ld bd) in
      if (date_diff =? 0)%Z then 0.3
      else if (date_diff <=? 1)%Z then 0.2
      else if (date_diff <=? 3)%Z then 0.1
      else 0
  | _, _ => 0
  end.

Definition description_component (ledger_tx : Transaction) (bank_tx : BankTransaction) : Q :=
  match tx_description ledger_tx, bank_description bank_tx with
  | Some ldesc, Some bdesc =>
      if PyStr.truthy ldesc && PyStr.truthy bdesc
      then _calculate_string_similarity (PyStr.lower ldesc) (PyStr.lower bdesc) * 0.2
      else 0
  | _, _ => 0
  end.

Definition category_component (ledger_tx : Transaction) (bank_tx : BankTransaction) : Q :=
  match tx_category ledger_tx, bank_category bank_tx with
  | Some lc, Some bc =>
      if PyStr.truthy lc && PyStr.truthy bc && String.eqb (PyStr.lower lc) (PyStr.lower bc)
      then 0.1
      else 0
  | _, _ => 0
  end.

(** [_calculate_match_confidence]: the sum, capped at 1.0.  The sum is
    exact; the doubles of the source can differ from it in the last digit
    (0.4 + 0.3 + 0.1 is 8/10 here, 0.7999999999999999 there). *)
Definition _calculate_match_confidence (ledger_tx : Transaction) (bank_tx : BankTransaction) : Q :=
  let confidence := 0 in
  let confidence := confidence + amount_component ledger_tx bank_tx in
  let confidence := confidence + date_component ledger_tx bank_tx in
  let confidence := confidence + description_component ledger_tx bank_tx in
  let confidence := confidence + category_component ledger_tx bank_tx in
  PyNum.min_first confidence 1.

(** ** The external match verifier *)

(** What [float(ai_response)] yields: Python accepts "nan" and "inf" too. *)
Inductive pyfloat :=
| Finite (q : Q)
| PosInf
| NegInf
| NaN.

(** One GPT reply to a verification prompt: the call raised, the text was
    not a number ([ValueError]), or the text parsed to a float. *)
Inductive verify_reply :=
| CallFailed
| NotANumber
| Number (x : pyfloat).

(** [max(0.0, min(1.0, confidence))]: every comparison with NaN is false,
    so NaN clamps to 1.0. *)
Definition clamp01 (x : pyfloat) : Q :=
  match x with
  | Finite q => PyNum.max_first 0 (PyNum.min_first 1 q)
  | PosInf => 1
  | NegInf => 0
  | NaN => 1
  end.

(** The replies of one run.  Each ledger/bank pair is submitted at most
    once per run, so the replies are given as a function of the pair. *)
Definition verifier := Transaction -> BankTransaction -> verify_reply.

(** [_ai_verify_match] *)
Definition _ai_verify_match (client : verifier)
  (ledger_tx : Transaction) (bank_tx : BankTransaction) : Q :=
  match client ledger_tx bank_tx with
  | Number confidence => clamp01 confidence
  | NotANumber => 0.5
  | CallFailed => 0.5
  end.

(** [_ai_calculate_match_confidence]; the blend is exact, where the doubles
    of the source can differ from it in the last digit (with the components
    0.4 and 0.2 and the reply 0.6 the blend is 0.6 here, 0.6000000000000001
    there). *)
Definition _ai_calculate_match_confidence (client : verifier)
  (ledger_tx : Transaction) (bank_tx : BankTransaction) : Q :=
  let basic_confidence := _calculate_match_confidence ledger_tx bank_tx in
  if PyNum.ltb 0.5 basic_confidence
  then
    let ai_confidence := _ai_verify_match client ledger_tx bank_tx in
    (basic_confidence * 0.6) + (ai_confidence * 0.4)
  else basic_confidence.

(* ================================================================== *)
(** * Greedy matching *)
(* ================================================================== *)

(** The loop state of the matchers: the two result lists built so far and
    the two id sets. *)
Record MatchState := mkMatchState {
  matched : list TransactionMatch;
  ledger_only : list TransactionMatch;
  matched_ledger_ids : gset Z;
  matched_bank_ids : gset Z
}.

Definition initial_state : MatchState :=
  mkMatchState [] [] ∅ ∅.

(** [_match_transactions] and [_ai_enhanced_match_transactions] are the
    same two nested loops; they differ in the scoring call and in the
    acceptance threshold, which are the parameters here. *)
Section GreedyLoop.

Variable score : Transaction -> BankTransaction -> Q.
Variable threshold : Q.

(** Body of the inner loop, on the pair [(best_match, best_confidence)]. *)
Definition scan_step (ledger_tx : Transaction) (claimed : gset Z)
  (best : option BankTransaction * Q) (bank_tx : BankTransaction)
  : option BankTransaction * Q :=
  if bool_decide (bank_id bank_tx ∈ claimed) then best
  else
    let confidence := score ledger_tx bank_tx in
    if PyNum.ltb (snd best) confidence && PyNum.ltb threshold confidence
    then (Some bank_tx, confidence)
    else best.

(** The inner loop for one ledger record. *)
Definition best_candidate (ledger_tx : Transaction) (claimed : gset Z)
  (bank_transactions : list BankTransaction) : option BankTransaction * Q :=
  fold_left (scan_step ledger_tx claimed) bank_transactions (None, 0).

(** Body of the outer loop. *)
Definition match_step (bank_transactions : list BankTransaction)
  (st : MatchState) (ledger_tx : Transaction) : MatchState :=
  match best_candidate ledger_tx (matched_bank_ids st) bank_transactions with
  | (Some best_match, best_confidence) =>
      {| matched := matched st ++
           [mkTransactionMatch (Some ledger_tx) (Some best_match)
              "matched" (Some best_confidence)];
         ledger_only := ledger_only st;
         matched_ledger_ids := matched_ledger_ids st ∪ {[tx_id ledger_tx]};
         matched_bank_ids := matched_bank_ids st ∪ {[bank_id best_match]} |}
  | (None, _) =>
      {| matched := matched st;
         ledger_only := ledger_only st ++
           [mkTransactionMatch (Some ledger_tx) None "ledger_only" (Some 0)];
         matched_ledger_ids := matched_ledger_ids st;
         matched_bank_ids := matched_bank_ids st |}
  end.

Definition match_loop (ledger_transactions : list Transaction)
  (bank_transactions : list BankTransaction) : MatchState :=
  fold_left (match_step bank_transactions) ledger_transactions initial_state.

(** The final loop over the bank records. *)
Definition unmatched_bank (claimed : gset Z)
  (bank_transactions : list BankTransaction) : list TransactionMatch :=
  map (fun bank_tx => mkTransactionMatch None (Some bank_tx) "bank_only" (Some 0))
      (filter (fun bank_tx => bank_id bank_tx ∉ claimed) bank_transactions).

Definition greedy_match (ledger_transactions : list Transaction)
  (bank_transactions : list BankTransaction)
  : list TransactionMatch * list TransactionMatch * list TransactionMatch :=
  let st := match_loop ledger_transactions bank_transactions in
  (matched st, ledger_only st,
   unmatched_bank (matched_bank_ids st) bank_transactions).

(** What the pair [(best_match, best_confidence)] can hold during a scan. *)
Definition candidate_ok (l : Transaction) (claimed : gset Z)
  (bs : list BankTransaction) (best : option BankTransaction * Q) : Prop :=
  match best with
  | (Some b, c) => b ∈ bs /\ (bank_id b ∉ claimed) /\ c = score l b /\ threshold < c
  | (None, c) => c = 0
  end.

(** An entry appended to [matched] while the ledger records [ls] are
    processed from a state whose claimed set is [claimed]. *)
Definition appended_ok (ls : list Transaction) (bs : list BankTransaction)
  (claimed : gset Z) (m : TransactionMatch) : Prop :=
  exists l b,
    m = mkTransactionMatch (Some l) (Some b) "matched" (Some (score l b)) /\
    l ∈ ls /\ b ∈ bs /\ (bank_id b ∉ claimed) /\ threshold < score l b.

(** An entry appended to [ledger_only]. *)
Definition ledger_only_entry (ls : list Transaction) (m : TransactionMatch) : Prop :=
  exists l, m = mkTransactionMatch (Some l) None "ledger_only" (Some 0) /\ l ∈ ls.

End GreedyLoop.

(** [_match_transactions]: the baseline matcher. *)
Definition _match_transactions :=
  greedy_match _calculate_match_confidence 0.7.

(** [_ai_enhanced_match_transactions]: the enhanced matcher. *)
Definition _ai_enhanced_match_transactions (client : verifier) :=
  greedy_match (_ai_calculate_match_confidence client) 0.6.

(** The two matcher variants, with the scoring call and the acceptance
    threshold of each. *)
Inductive matcher :=
| Baseline
| Enhanced (client : verifier).

Definition matcher_score (v : matcher) : Transaction -> BankTransaction -> Q :=
  match v with
  | Baseline => _calculate_match_confidence
  | Enhanced client => _ai_calculate_match_confidence client
  end.

Definition matcher_threshold (v : matcher) : Q :=
  match v with
  | Baseline => 0.7
  | Enhanced _ => 0.6
  end.

Definition run_matcher (v : matcher) :=
  match v with
  | Baseline => _match_transactions
  | Enhanced client => _ai_enhanced_match_transactions client
  end.

(** ** Reading the matchers' results *)

Definition matched_of (r : list TransactionMatch * list TransactionMatch * list TransactionMatch)
  : list TransactionMatch := r.1.1.
Definition ledger_only_of (r : list TransactionMatch * list TransactionMatch * list TransactionMatch)
  : list TransactionMatch := r.1.2.
Definition bank_only_of (r : list TransactionMatch * list TransactionMatch * list TransactionMatch)
  : list TransactionMatch := r.2.

(** The ids of the bank records that occur in a list of matches. *)
Definition bank_ids_of (ms : list TransactionMatch) : list Z :=
  omap (fun m => bank_id <$> bank_transaction m) ms.

(** The entry the matchers append for an accepted pair. *)
Definition matched_entry (l : Transaction) (b : BankTransaction) (c : Q) : TransactionMatch :=
  mkTransactionMatch (Some l) (Some b) "matched" (Some c).

(** A match carries a confidence in the closed unit interval. *)
Definition confidence_in_unit (m : TransactionMatch) : Prop :=
  exists c, confidence m = Some c /\ 0 <= c <= 1.

(* ================================================================== *)
(** * Field parsers: amounts *)
(* ================================================================== *)

(** Value of a run of decimal digits, most significant first. *)
Definition digits_value (ds : list ascii) : Z :=
  fold_left (fun acc d => (acc * 10 + (Z.of_nat (nat_of_ascii d) - 48))%Z) ds 0%Z.

Definition all_digits (ds : list ascii) : bool := forallb PyStr.isdigit ds.

(** [Decimal(s)] for a string made of digits, dots and minus signs, which
    is all that reaches it here: an optional sign, then digits with at most
    one dot and at least one digit.  [None] is [InvalidOperation]. *)
Definition Decimal (s : string) : option Q :=
  let cs := PyStr.chars s in
  let '(negative, body) :=
    match cs with
    | "-"%char :: rest => (true, rest)
    | _ => (false, cs)
    end in
  let parsed :=
    match PyStr.split_on_chars "." [] body with
    | [int_part] =>
        if all_digits int_part && negb (Nat.eqb (length int_part) 0)
        then Some (digits_value int_part # 1)
        else None
    | [int_part; frac] =>
        if all_digits int_part && all_digits frac
           && negb (Nat.eqb (length int_part + length frac) 0)
        then Some (digits_value (int_part ++ frac)
                   # Z.to_pos (10 ^ Z.of_nat (length frac)))
        else None
    | _ => None
    end in
  match parsed with
  | Some q => Some (if negative then - q else q)
  | None => None
  end.

(** The characters [re.sub(r'[^\d.\-]', '', cleaned)] keeps of an ASCII
    text; in a text with other characters [\d] also keeps the decimal
    digits of other scripts, which this embedding of [str] does not
    have. *)
Definition amount_char (c : ascii) : bool :=
  PyStr.isdigit c || Ascii.eqb c "." || Ascii.eqb c "-".

(** The cleaning steps of [_parse_amount_improved] up to the removal of
    the characters that are neither digit, dot nor minus.  Of the currency
    symbols only the dollar sign is ASCII. *)
Definition amount_text (amount_str : string) : string :=
  let cleaned := PyStr.strip amount_str in
  let cleaned := PyStr.remove_chars (Ascii.eqb "$") cleaned in
  let cleaned := PyStr.remove_chars (Ascii.eqb ",") cleaned in
  let cleaned :=
    if PyStr.contains_char "(" cleaned && PyStr.contains_char ")" cleaned
    then PyStr.replace_char ")" "" (PyStr.replace_char "(" "-" cleaned)
    else cleaned in
  PyStr.remove_chars (fun c => negb (amount_char c)) cleaned.

(** The step commented "Handle multiple decimal points (take the last
    one)". *)
Definition collapse_decimal_points (cleaned : string) : string :=
  if (1 <? PyStr.count_char "." cleaned)%nat
  then
    let parts := PyStr.split_on "." cleaned in
    PyStr.join "." (List.removelast parts) +:+ "." +:+ List.last parts ""
  else cleaned.

(** [_parse_amount_improved]; the result is the decimal value, before it
    is narrowed to a float. *)
Definition _parse_amount_improved (amount_str : string) : option Q :=
  if negb (PyStr.truthy amount_str) then None
  else Decimal (collapse_decimal_points (amount_text amount_str)).

(* ================================================================== *)
(** * Duplicate grouping and merging *)
(* ================================================================== *)

(** ** Grouping key *)

(** Rounding of a non-negative rational to an integer, ties to even. *)
Definition round_half_even (q : Q) : Z :=
  let n := Qnum q in
  let d := Z.pos (Qden q) in
  let fl := (n / d)%Z in
  let r := (n mod d)%Z in
  match (2 * r ?= d)%Z with
  | Lt => fl
  | Gt => (fl + 1)%Z
  | Eq => if Z.even fl then fl else (fl + 1)%Z
  end.

(** [f"{x:.2f}"] *)
Definition format_2f (x : Q) : string :=
  let cents := Z.to_nat (round_half_even (Qabs x * 100)) in
  (if PyNum.ltb x 0 then "-" else "") +:+
  PyStr.of_nat (cents / 100) +:+ "." +:+ PyStr.zfill 2 (PyStr.of_nat (cents mod 100)).

(** The suffix patterns of the two [re.sub] calls.  The three character
    classes are pairwise disjoint, so a suffix matches in exactly one way:
    [\s+[A-Z]{2}\s*\d*$] and [\s+\d{4,}$]. *)
Fixpoint skip (cls : ascii -> bool) (l : list ascii) : list ascii :=
  match l with
  | c :: l' => if cls c then skip cls l' else l
  | [] => []
  end.

Definition matches_state_code (l : list ascii) : bool :=
  match l with
  | c :: _ =>
      PyStr.isspace c &&
      match skip PyStr.isspace l with
      | u1 :: u2 :: rest =>
          PyStr.isupper u1 && PyStr.isupper u2 &&
          match skip PyStr.isdigit (skip PyStr.isspace rest) with
          | [] => true
          | _ => false
          end
      | _ => false
      end
  | [] => false
  end.

Definition matches_long_number (l : list ascii) : bool :=
  match l with
  | c :: _ =>
      PyStr.isspace c &&
      let digits := skip PyStr.isspace l in
      (4 <=? length digits)%nat && forallb PyStr.isdigit digits
  | [] => false
  end.

(** [re.sub(pattern + '$', '', s)] on a string without trailing newline:
    the text from the leftmost position where the suffix matches is cut. *)
Fixpoint cut_suffix (pattern : list ascii -> bool) (l : list ascii) : list ascii :=
  if pattern l then []
  else match l with
       | c :: l' => c :: cut_suffix pattern l'
       | [] => []
       end.

Definition prefixes_to_remove : list string :=
  ["POS"; "VISA"; "MC"; "DEBIT"; "CREDIT"; "ATM"; "CHECK"].

(** [_clean_description_for_grouping] *)
Definition _clean_description_for_grouping (description : string) : string :=
  if negb (PyStr.truthy description) then ""
  else
    let cleaned := PyStr.strip (PyStr.upper description) in
    let cleaned :=
      fold_left
        (fun cleaned prefix =>
           if PyStr.startswith cleaned prefix
           then PyStr.strip (PyStr.slice_from (String.length prefix) cleaned)
           else cleaned)
        prefixes_to_remove cleaned in
    let cleaned := PyStr.str (cut_suffix matches_state_code (PyStr.chars cleaned)) in
    let cleaned := PyStr.str (cut_suffix matches_long_number (PyStr.chars cleaned)) in
    PyStr.strip cleaned.

(** The key built in the loop of [_group_potential_duplicates]. *)
Definition group_key (tx : BankTransaction) : string :=
  let amount_key :=
    match bank_amount tx with
    | Some a => if PyNum.eqb a 0 then "0.00" else format_2f a
    | None => "0.00"
    end in
  let date_key :=
    match bank_date tx with
    | Some d => Datetime.strftime_ymd d
    | None => "unknown"
    end in
  let clean_desc := _clean_description_for_grouping (PyStr.or_empty (bank_description tx)) in
  amount_key +:+ "_" +:+ date_key +:+ "_" +:+ PyStr.slice_to 50 clean_desc.

(** [groups[group_key].append(tx)] on a dictionary kept in insertion
    order. *)
Fixpoint group_append (key : string) (tx : BankTransaction)
  (groups : list (string * list BankTransaction)) : list (string * list BankTransaction) :=
  match groups with
  | [] => [(key, [tx])]
  | (k, v) :: rest =>
      if String.eqb k key then (k, v ++ [tx]) :: rest
      else (k, v) :: group_append key tx rest
  end.

(** [_group_potential_duplicates] *)
Definition _group_potential_duplicates (transactions : list BankTransaction)
  : list (string * list BankTransaction) :=
  let groups :=
    fold_left (fun groups tx => group_append (group_key tx) tx groups) transactions [] in
  List.filter (fun kv => (1 <? length kv.2)%nat) groups.

(** ** Confirmation *)

Record DuplicateAnalysis := mkAnalysis {
  are_duplicates : bool;
  analysis_confidence : Q
}.

Definition opt_eqb {A} (eqb : A -> A -> bool) (x y : option A) : bool :=
  match x, y with
  | Some a, Some b => eqb a b
  | None, None => true
  | _, _ => false
  end.

(** [_fallback_duplicate_analysis] *)
Definition _fallback_duplicate_analysis (transactions : list BankTransaction)
  : DuplicateAnalysis :=
  match transactions with
  | [tx1; tx2] =>
      let exact_match :=
        opt_eqb PyNum.eqb (bank_amount tx1) (bank_amount tx2) &&
        opt_eqb Datetime.eqb (bank_date tx1) (bank_date tx2) &&
        opt_eqb String.eqb (bank_description tx1) (bank_description tx2) in
      if exact_match then mkAnalysis true 1
      else
        let amount_match :=
          match bank_amount tx1, bank_amount tx2 with
          | Some a1, Some a2 =>
              if negb (PyNum.eqb a1 0) && negb (PyNum.eqb a2 0)
              then PyNum.ltb (Qabs (a1 - a2)) 0.01
              else false
          | _, _ => false
          end in
        let date_match := opt_eqb Datetime.eqb (bank_date tx1) (bank_date tx2) in
        let desc_similarity :=
          _calculate_string_similarity
            (PyStr.or_empty (bank_description tx1))
            (PyStr.or_empty (bank_description tx2)) in
        if amount_match && date_match && PyNum.ltb 0.8 desc_similarity
        then mkAnalysis true 0.9
        else mkAnalysis false 0
  | _ => mkAnalysis false 0
  end.

(** One GPT reply to a duplicate-analysis prompt, after
    [_parse_ai_duplicate_analysis]: the call raised, or an analysis was
    read off the response. *)
Inductive analysis_reply :=
| AnalysisFailed
| AnalysisGiven (a : DuplicateAnalysis).

Definition analyst := list BankTransaction -> analysis_reply.

(** [_analyze_duplicates_with_ai] *)
Definition _analyze_duplicates_with_ai (client : analyst)
  (transactions : list BankTransaction) : DuplicateAnalysis :=
  if (length transactions <? 2)%nat then mkAnalysis false 0
  else
    match client transactions with
    | AnalysisGiven analysis => analysis
    | AnalysisFailed => _fallback_duplicate_analysis transactions
    end.

(** ** The bank-transaction table *)

(** The rows of [bank_transactions] in the session, in the order a query
    returns them, and the next value of the primary key. *)
Record Database := mkDatabase {
  bank_rows : list BankTransaction;
  next_bank_id : Z
}.

(** [db.query(BankTransaction).filter(user_id == ...)], further filtered
    by the batch when [batch_id] is truthy. *)
Definition query_bank_transactions (db : Database) (user_id : Z)
  (batch_id : option string) : list BankTransaction :=
  List.filter
    (fun tx =>
       (bank_user_id tx =? user_id)%Z &&
       (if PyStr.truthy_opt batch_id
        then opt_eqb String.eqb (bank_upload_batch_id tx) batch_id
        else true))
    (bank_rows db).

(** [db.add(tx); db.flush()]: the row receives its primary key. *)
Definition db_add (db : Database) (data : BankTransaction) : BankTransaction * Database :=
  let tx :=
    {| bank_id := next_bank_id db;
       bank_user_id := bank_user_id data;
       bank_upload_batch_id := bank_upload_batch_id data;
       bank_date := bank_date data;
       bank_description := bank_description data;
       bank_amount := bank_amount data;
       bank_balance := bank_balance data;
       bank_transaction_type := bank_transaction_type data;
       bank_reference_number := bank_reference_number data;
       bank_category := bank_category data;
       bank_merchant_name := bank_merchant_name data;
       bank_is_matched := bank_is_matched data;
       bank_matched_transaction_id := bank_matched_transaction_id data;
       bank_match_confidence := bank_match_confidence data;
       bank_match_type := bank_match_type data |} in
  (tx, mkDatabase (bank_rows db ++ [tx]) (next_bank_id db + 1)%Z).

(** [db.delete(tx)] *)
Definition db_delete (db : Database) (tx : BankTransaction) : Database :=
  mkDatabase
    (List.filter (fun row => negb (bank_id row =? bank_id tx)%Z) (bank_rows db))
    (next_bank_id db).

(** ** Merging *)

(** The members of [set(l)], listed by first occurrence in [l]. *)
Fixpoint distinct (l : list string) : list string :=
  match l with
  | [] => []
  | x :: l' => x :: List.filter (fun y => negb (String.eqb x y)) (distinct l')
  end.

Section Merge.

(** Python does not fix the order in which a [set] of strings is
    iterated: [set_order] takes the distinct elements to the order of one
    iteration (some permutation of them). *)
Variable set_order : list string -> list string.

(** The keyword arguments [merged_data] that [_merge_duplicate_transactions]
    passes to [BankTransaction(...)]; a column without keyword is [None].
    The primary key is assigned by the flush. *)
Definition merged_data (base_tx : BankTransaction)
  (transactions : list BankTransaction) : BankTransaction :=
  let descriptions :=
    omap (fun tx => if PyStr.truthy_opt (bank_description tx)
                    then bank_description tx else None) transactions in
  let categories :=
    omap (fun tx =>
            match bank_category tx with
            | Some c => if PyStr.truthy c && negb (String.eqb c "N/A") then Some c else None
            | None => None
            end) transactions in
  let merchant_names :=
    omap (fun tx =>
            match bank_merchant_name tx with
            | Some m => if PyStr.truthy m && negb (String.eqb m "Unknown") then Some m else None
            | None => None
            end) transactions in
  {| bank_id := 0%Z;
     bank_user_id := bank_user_id base_tx;
     bank_upload_batch_id := bank_upload_batch_id base_tx;
     bank_date := bank_date base_tx;
     bank_description :=
       if (1 <? length (distinct descriptions))%nat
       then Some (PyStr.join " | " (set_order (distinct descriptions)))
       else None;
     bank_amount := bank_amount base_tx;
     bank_balance := bank_balance base_tx;
     bank_transaction_type := bank_transaction_type base_tx;
     bank_reference_number := bank_reference_number base_tx;
     bank_category :=
       match categories with
       | c :: _ => Some c
       | [] => bank_category base_tx
       end;
     bank_merchant_name :=
       match merchant_names with
       | m :: _ => Some m
       | [] => bank_merchant_name base_tx
       end;
     bank_is_matched := bank_is_matched base_tx;
     bank_matched_transaction_id := bank_matched_transaction_id base_tx;
     bank_match_confidence := bank_match_confidence base_tx;
     bank_match_type := bank_match_type base_tx |}.

(** [_merge_duplicate_transactions]; [None] is the [ValueError] raised on
    an empty list. *)
Definition _merge_duplicate_transactions (db : Database)
  (transactions : list BankTransaction) : option (BankTransaction * Database) :=
  match transactions with
  | [] => None
  | base_tx :: _ => Some (db_add db (merged_data base_tx transactions))
  end.

(** ** The detect-and-merge pass *)

Record GroupReport := mkGroupReport {
  report_group_id : string;
  report_transactions_count : nat;
  report_ai_confidence : Q;
  report_merged_transaction_id : Z
}.

Record DuplicateSummary := mkDuplicateSummary {
  total_transactions : nat;
  duplicate_groups_found : nat;
  transactions_merged : nat;
  transactions_deleted : nat;
  groups_processed : list GroupReport
}.

(** State of the loop over the groups: the session, the summary and the
    list [merged_transactions]. *)
Definition MergeState : Type := Database * DuplicateSummary * list BankTransaction.

Variable client : analyst.

(** Body of the loop over the groups; [None] propagates the [ValueError]
    of the merge. *)
Definition merge_group (state : option MergeState)
  (group : string * list BankTransaction) : option MergeState :=
  match state with
  | None => None
  | Some (db, summary, merged_transactions) =>
      let '(group_id, group_transactions) := group in
      if (1 <? length group_transactions)%nat
      then
        let ai_analysis := _analyze_duplicates_with_ai client group_transactions in
        if are_duplicates ai_analysis
        then
          match _merge_duplicate_transactions db group_transactions with
          | None => None
          | Some (merged_tx, db) =>
              let db := fold_left db_delete group_transactions db in
              Some (db,
                    {| total_transactions := total_transactions summary;
                       duplicate_groups_found := duplicate_groups_found summary;
                       transactions_merged :=
                         transactions_merged summary + length group_transactions;
                       transactions_deleted :=
                         transactions_deleted summary + (length group_transactions - 1);
                       groups_processed :=
                         groups_processed summary ++
                         [mkGroupReport group_id (length group_transactions)
                            (analysis_confidence ai_analysis) (bank_id merged_tx)] |},
                    merged_transactions ++ [merged_tx])
          end
        else state
      else state
  end.

(** [detect_and_merge_duplicates]: the session after the commit, the
    summary and the merged records. *)
Definition detect_and_merge_duplicates (db : Database) (user_id : Z)
  (batch_id : option string) : option MergeState :=
  let transactions := query_bank_transactions db user_id batch_id in
  let duplicate_groups := _group_potential_duplicates transactions in
  let duplicate_summary :=
    {| total_transactions := length transactions;
       duplicate_groups_found := length duplicate_groups;
       transactions_merged := 0;
       transactions_deleted := 0;
       groups_processed := [] |} in
  fold_left merge_group duplicate_groups (Some (db, duplicate_summary, [])).

End Merge.

(* ================================================================== *)
(** * Ingestion *)
(* ================================================================== *)

(** [app/schemas/bank_transaction.py]: [CSVUploadResponse]. *)
Module CSVUploadResponse.
Record t := mk {
  batch_id : string;
  total_transactions : nat;
  successful_imports : nat;
  failed_imports : nat;
  errors : list string
}.
End CSVUploadResponse.

Section Ingestion.

(** The collaborators of the pipeline that are not part of the
    reconciliation engine: the standard library ([bytes.decode], the [csv]
    module), the GPT-assisted parse and the schema validation; the row
    normaliser and the row cleaner, which are not reached on an empty
    upload, are parameters too.  A raised exception is the [inl] of its
    message, or [None]. *)
Variable Row : Type.
Variable RawRow : Type.
Variable Cleaned : Type.
Variable decode_utf8 : list Byte.byte -> string + string.
Variable _parse_csv_with_openai : string -> list Row.
Variable sniff_delimiter : string -> option ascii.
Variable DictReader : string -> ascii -> list RawRow.
Variable _normalize_csv_row : RawRow -> option Row.
Variable any_value : Row -> bool.
Variable _is_header_row : Row -> bool.
Variable _clean_transaction_data_improved : Row -> option Cleaned.
Variable BankTransactionCreate : Z -> string -> Cleaned -> string + BankTransaction.

(** [_parse_csv_traditional]: any exception of the sniffer or the reader
    is swallowed and yields the empty list. *)
Definition _parse_csv_traditional (csv_text : string) : list Row :=
  let sample := PyStr.slice_to 1024 csv_text in
  match sniff_delimiter sample with
  | None => []
  | Some delimiter =>
      fold_left
        (fun transactions row =>
           match _normalize_csv_row row with
           | None => transactions
           | Some normalized_row =>
               if negb (any_value normalized_row) then transactions
               else if _is_header_row normalized_row then transactions
               else transactions ++ [normalized_row]
           end)
        (DictReader csv_text delimiter) []
  end.

(** State of the loop over the candidate records: the session, the index
    of the row, the two counters and the error messages. *)
Record ImportState := mkImportState {
  import_db : Database;
  import_index : nat;
  successful_imports : nat;
  failed_imports : nat;
  errors : list string
}.

Definition import_row (user_id : Z) (batch_id : string)
  (st : ImportState) (transaction_data : Row) : ImportState :=
  let i := import_index st in
  match _clean_transaction_data_improved transaction_data with
  | Some cleaned_data =>
      match BankTransactionCreate user_id batch_id cleaned_data with
      | inr bank_transaction_create =>
          mkImportState (db_add (import_db st) bank_transaction_create).2 (S i)
            (successful_imports st + 1) (failed_imports st) (errors st)
      | inl e =>
          mkImportState (import_db st) (S i)
            (successful_imports st) (failed_imports st + 1)
            (errors st ++ ["Row " +:+ PyStr.of_nat (i + 1) +:+ ": " +:+ e])
      end
  | None =>
      mkImportState (import_db st) (S i)
        (successful_imports st) (failed_imports st + 1)
        (errors st ++ ["Row " +:+ PyStr.of_nat (i + 1) +:+ ": Invalid transaction data"])
  end.

(** [process_csv_upload]; [batch_id] is the fresh [uuid4]. *)
Definition process_csv_upload (db : Database) (batch_id : string) (user_id : Z)
  (csv_content : list Byte.byte) : CSVUploadResponse.t * Database :=
  match decode_utf8 csv_content with
  | inl e =>
      (CSVUploadResponse.mk batch_id 0 0 1 ["CSV parsing error: " +:+ e], db)
  | inr csv_text =>
      let transactions_data := _parse_csv_with_openai csv_text in
      let transactions_data :=
        match transactions_data with
        | [] => _parse_csv_traditional csv_text
        | _ => transactions_data
        end in
      let total_transactions := length transactions_data in
      let st :=
        fold_left (import_row user_id batch_id) transactions_data
          (mkImportState db 0 0 0 []) in
      (CSVUploadResponse.mk batch_id total_transactions
         (successful_imports st) (failed_imports st) (take 10 (errors st)),
       import_db st)
  end.

(** [app/api/v1/bank_transactions.py]: what the upload endpoint answers. *)
Inductive upload_result :=
| HTTPException (status_code : Z) (detail : string)
| Uploaded (response : CSVUploadResponse.t).

Definition MAX_FILE_SIZE : Z := 10 * 1024 * 1024.

(** [upload_bank_statement_csv] *)
Definition upload_bank_statement_csv (db : Database) (batch_id : string)
  (user_id : Z) (filename : string) (content : list Byte.byte)
  : upload_result * Database :=
  if negb (PyStr.endswith (PyStr.lower filename) ".csv")
  then (HTTPException 400 "Only CSV files are allowed", db)
  else if (MAX_FILE_SIZE <? Z.of_nat (length content))%Z
  then (HTTPException 413 "File size too large. Maximum 10MB allowed.", db)
  else if Nat.eqb (length content) 0
  then (HTTPException 400 "Empty file uploaded", db)
  else
    let '(result, db) := process_csv_upload db batch_id user_id content in
    (Uploaded result, db).

End Ingestion.

(* ================================================================== *)
(** * Sample records *)
(* ================================================================== *)

Module Sample.

Definition jan15 : Datetime.t := Datetime.mk 2024 1 15 0 0 0 0.

Definition ledger (id : Z) (amount : Q) (category description : option string)
  : Transaction :=
  {| tx_id := id; tx_user_id := 1; tx_merchant_name := None;
     tx_amount := Some amount; tx_currency := Some "USD"%string;
     tx_transaction_date := Some jan15;
     tx_category := category; tx_description := description |}.

Definition bank (id : Z) (amount : Q) (category description : option string)
  : BankTransaction :=
  {| bank_id := id; bank_user_id := 1; bank_upload_batch_id := Some "batch-1"%string;
     bank_date := Some jan15; bank_description := description;
     bank_amount := Some amount; bank_balance := None;
     bank_transaction_type := Some "debit"%string; bank_reference_number := None;
     bank_category := category; bank_merchant_name := None;
     bank_is_matched := Some false; bank_matched_transaction_id := None;
     bank_match_confidence := None; bank_match_type := None |}.

(** Identical amount and date, empty descriptions, no category. *)
Definition bare_ledger : Transaction := ledger 1 25 None (Some ""%string).
Definition bare_bank : BankTransaction := bank 1 25 None (Some ""%string).

(** The same pair without any description at all. *)
Definition blank_ledger : Transaction := ledger 1 25 None None.
Definition blank_bank : BankTransaction := bank 1 25 None None.

(** A grocery purchase seen from both sides. *)
Definition safeway_ledger : Transaction :=
  ledger 1 45.67 (Some "food"%string) (Some "SAFEWAY GROCERY PURCHASE"%string).
Definition safeway_bank : BankTransaction :=
  bank 1 45.67 (Some "food"%string) (Some "SAFEWAY GROCERY PURCHASE"%string).

(** A second ledger record and a second bank record of the same purchase
    (a repeated row of the statement). *)
Definition safeway_ledger_other_category : Transaction :=
  ledger 2 45.67 (Some "groceries"%string) (Some "SAFEWAY GROCERY PURCHASE"%string).
Definition safeway_bank_again : BankTransaction :=
  bank 2 45.67 (Some "food"%string) (Some "SAFEWAY GROCERY PURCHASE"%string).

(** Verifiers that always answer the same number, and one that is down. *)
Definition always (x : Q) : verifier := fun _ _ => Number (Finite x).
Definition unreachable_verifier : verifier := fun _ _ => CallFailed.

(** The two rows of the SAFEWAY scenario of the duplicate grouper. *)
Definition safeway_123 : BankTransaction := bank 1 45.67 None (Some "SAFEWAY #123"%string).
Definition safeway_456 : BankTransaction := bank 2 45.67 None (Some "SAFEWAY #456"%string).

(** Two rows with the same description. *)
Definition coffee_1 : BankTransaction := bank 1 4.50 None (Some "COFFEE SHOP"%string).
Definition coffee_2 : BankTransaction := bank 2 4.50 None (Some "COFFEE SHOP"%string).

(** A purchase recorded with and without its state code, next to two rows
    left by earlier merges. *)
Definition diner : BankTransaction := bank 1 12.50 None (Some "A B C D E"%string).
Definition diner_wa : BankTransaction := bank 2 12.50 None (Some "A B C D E WA"%string).
Definition joined_1 : BankTransaction :=
  bank 3 12.50 None (Some "A B C D E | A B C D E WA"%string).
Definition joined_2 : BankTransaction :=
  bank 4 12.50 None (Some "A B C D E WA | A B C D E"%string).

Definition statement : Database :=
  mkDatabase [diner; diner_wa; joined_1; joined_2] 5.

Definition short_statement : Database :=
  mkDatabase [diner; diner_wa] 3.

(** [short_statement] once its two rows are merged. *)
Definition merged_statement : Database :=
  mkDatabase [joined_1] 4.

(** The duplicate-confirmation service is down: the fallback decides. *)
Definition unreachable_analyst : analyst := fun _ => AnalysisFailed.

(** The two orders in which a set of two strings can be iterated. *)
Definition first_seen (l : list string) : list string := l.
Definition last_seen (l : list string) : list string := rev l.

End Sample.

(** Two passes of the duplicate grouper in succession; the result is the
    summary of the second one. *)
Definition second_pass_summary (set_order : list string -> list string)
  (client : analyst) (db : Database) (user_id : Z) (batch_id : option string)
  : option DuplicateSummary :=
  match detect_and_merge_duplicates set_order client db user_id batch_id with
  | Some (db1, _, _) =>
      match detect_and_merge_duplicates set_order client db1 user_id batch_id with
      | Some (_, summary2, _) => Some summary2
      | None => None
      end
  | None => None
  end.

(** Collaborators for an upload while the GPT-assisted parse is down:
    ASCII decoding, a sniffer that finds no delimiter in an empty sample,
    and a reader that yields one raw row per line. *)
Module SampleUpload.

Definition decode (content : list Byte.byte) : string + string :=
  inr (string_of_list_byte content).

Definition no_assistant (csv_text : string) : list (list string) := [].

Definition sniff (sample : string) : option ascii :=
  if PyStr.truthy sample then Some ","%char else None.

Definition reader (csv_text : string) (delimiter : ascii) : list string :=
  match PyStr.split_on "010"%char csv_text with
  | header :: lines => List.filter PyStr.truthy lines
  | [] => []
  end.

Definition normalize (delimiter_row : string) : option (list string) :=
  Some (PyStr.split_on "," delimiter_row).

Definition any_value (row : list string) : bool := existsb PyStr.truthy row.

Definition is_header (row : list string) : bool := false.

Definition clean (row : list string) : option BankTransaction :=
  match row with
  | [_; description; amount] =>
      match _parse_amount_improved amount with
      | Some a => Some (Sample.bank 0 a None (Some description))
      | None => None
      end
  | _ => None
  end.

Definition create (user_id : Z) (batch_id : string) (cleaned : BankTransaction)
  : string + BankTransaction := inr cleaned.

Definition empty_database : Database := mkDatabase [] 1.

End SampleUpload.

(* ================================================================== *)
(** * Comparison reports *)
(* ================================================================== *)

(** The [summary] dictionary of [compare_transactions] and of
    [improved_match_transactions]; only the latter has the key
    [duplicates_merged]. *)
Record ComparisonSummary := mkComparisonSummary {
  total_ledger : nat;
  total_bank : nat;
  matched_count : nat;
  ledger_only_count : nat;
  bank_only_count : nat;
  match_percentage : Q;
  duplicates_merged : option nat
}.

(** [app/schemas/bank_transaction.py]: [ComparisonResult]. *)
Record ComparisonResult := mkComparisonResult {
  result_matched : list TransactionMatch;
  result_ledger_only : list TransactionMatch;
  result_bank_only : list TransactionMatch;
  summary : ComparisonSummary
}.

(** [db.query(Transaction).filter(Transaction.user_id == user_id).all()]
    on the rows of the ledger table. *)
Definition query_transactions (ledger_rows : list Transaction) (user_id : Z)
  : list Transaction :=
  List.filter (fun tx => (tx_user_id tx =? user_id)%Z) ledger_rows.

(** [(matched_count * 2 / total_comparisons * 100) if total_comparisons > 0
    else 0] *)
Definition percentage (matched_count total_comparisons : nat) : Q :=
  if (0 <? total_comparisons)%nat
  then inject_Z (Z.of_nat (matched_count * 2)) / inject_Z (Z.of_nat total_comparisons) * 100
  else 0.

(** The summary both comparison functions compute from the three lists. *)
Definition summarize (ledger_transactions : list Transaction)
  (bank_transactions : list BankTransaction)
  (r : list TransactionMatch * list TransactionMatch * list TransactionMatch)
  (duplicates : option nat) : ComparisonResult :=
  let '(matched, ledger_only, bank_only) := r in
  let total_ledger := length ledger_transactions in
  let total_bank := length bank_transactions in
  let matched_count := length matched in
  let ledger_only_count := length ledger_only in
  let bank_only_count := length bank_only in
  let total_comparisons := (total_ledger + total_bank)%nat in
  mkComparisonResult matched ledger_only bank_only
    {| total_ledger := total_ledger;
       total_bank := total_bank;
       matched_count := matched_count;
       ledger_only_count := ledger_only_count;
       bank_only_count := bank_only_count;
       match_percentage := percentage matched_count total_comparisons;
       duplicates_merged := duplicates |}.

(** [compare_transactions] *)
Definition compare_transactions (ledger_rows : list Transaction) (db : Database)
  (user_id : Z) : ComparisonResult :=
  let ledger_transactions := query_transactions ledger_rows user_id in
  let bank_transactions := query_bank_transactions db user_id None in
  summarize ledger_transactions bank_transactions
    (_match_transactions ledger_transactions bank_transactions) None.

(** [improved_match_transactions]: the duplicate pass runs first and the
    bank records are read again after it; the result comes with the
    session the pass leaves.  [None] is the error of the pass. *)
Definition improved_match_transactions (set_order : list string -> list string)
  (duplicate_client : analyst) (match_client : verifier)
  (ledger_rows : list Transaction) (db : Database) (user_id : Z)
  : option (ComparisonResult * Database) :=
  let ledger_transactions := query_transactions ledger_rows user_id in
  match detect_and_merge_duplicates set_order duplicate_client db user_id None with
  | None => None
  | Some (db, duplicate_summary, _) =>
      let bank_transactions := query_bank_transactions db user_id None in
      Some (summarize ledger_transactions bank_transactions
              (_ai_enhanced_match_transactions match_client
                 ledger_transactions bank_transactions)
              (Some (transactions_merged duplicate_summary)),
            db)
  end.

(** The primary key of the bank table: ids are pairwise distinct and below
    the next id to be assigned. *)
Definition primary_key_ok (db : Database) : Prop :=
  NoDup (map bank_id (bank_rows db)) /\
  Forall (fun row => (bank_id row < next_bank_id db)%Z) (bank_rows db).

(** The records of [p] whose grouping key is [k], in the order of [p]. *)
Definition with_key (k : string) (p : list BankTransaction) : list BankTransaction :=
  List.filter (fun tx => String.eqb (group_key tx) k) p.

(** The dictionary built by [_group_potential_duplicates] from the records
    [p]: one entry per key, holding the records of that key. *)
Definition grouped (p : list BankTransaction)
  (groups : list (string * list BankTransaction)) : Prop :=
  NoDup (map fst groups) /\
  forall k g, (k, g) ∈ groups <-> g = with_key k p /\ g <> [].

(** The rows of the bank table owned by other users than [user_id]. *)
Definition other_users_rows (user_id : Z) (db : Database) : list BankTransaction :=
  List.filter (fun row => negb (bank_user_id row =? user_id)%Z) (bank_rows db).

(** What the loop of [detect_and_merge_duplicates] keeps true, between the
    session [db0] it started from and the state [st] it has reached with
    the groups [gs] still to process. *)
Definition pass_invariant (user_id : Z) (db0 : Database)
  (gs : list (string * list BankTransaction)) (st : MergeState) : Prop :=
  let '(db, summary, merged_transactions) := st in
  primary_key_ok db /\
  (next_bank_id db0 <= next_bank_id db)%Z /\
  other_users_rows user_id db = other_users_rows user_id db0 /\
  (forall tx, tx ∈ concat (map snd gs) ->
              tx ∈ bank_rows db /\ bank_user_id tx = user_id) /\
  NoDup (map bank_id (concat (map snd gs))) /\
  (length (bank_rows db) + transactions_deleted summary = length (bank_rows db0))%nat /\
  transactions_merged summary
  = (transactions_deleted summary + length (groups_processed summary))%nat /\
  length merged_transactions = length (groups_processed summary) /\
  Forall (fun tx => (next_bank_id db0 <= bank_id tx < next_bank_id db)%Z /\
                    bank_user_id tx = user_id)
         merged_transactions.

(** Further sample data: a statement next to a row of another user. *)
Module SampleMore.

Definition foreign_row : BankTransaction :=
  {| bank_id := 7; bank_user_id := 2; bank_upload_batch_id := Some "batch-9"%string;
     bank_date := Some Sample.jan15; bank_description := Some "A B C D E"%string;
     bank_amount := Some 12.50; bank_balance := None;
     bank_transaction_type := Some "debit"%string; bank_reference_number := None;
     bank_category := None; bank_merchant_name := None;
     bank_is_matched := Some false; bank_matched_transaction_id := None;
     bank_match_confidence := None; bank_match_type := None |}.

Definition shared_statement : Database :=
  mkDatabase [Sample.diner; foreign_row; Sample.diner_wa] 8.

End SampleMore.

(* ================================================================== *)
(** * Further field cleaners and the categorizer *)
(* ================================================================== *)

Module PyText.

(** [\w] on ASCII text: letters, digits and the underscore. *)
Definition isword (c : ascii) : bool :=
  PyStr.isdigit c || PyStr.isupper c || PyStr.islower c || Ascii.eqb c "_".

(** [sub in s]: [sub] occurs in [s] as a contiguous substring; the empty
    string occurs in every string. *)
Fixpoint contains (sub s : string) : bool :=
  String.prefix sub s ||
  match s with
  | String _ s' => contains sub s'
  | EmptyString => false
  end.

(** [re.sub(r'\s+', ' ', s)]: every maximal run of whitespace becomes one
    space; [in_run] tells that the previous character was whitespace. *)
Fixpoint collapse_whitespace (in_run : bool) (l : list ascii) : list ascii :=
  match l with
  | [] => []
  | c :: l' =>
      if PyStr.isspace c
      then if in_run then collapse_whitespace true l'
           else " "%char :: collapse_whitespace true l'
      else c :: collapse_whitespace false l'
  end.

(** Spacing of a text: it does not begin with whitespace ([after_space] is
    true at the start), every whitespace character is a space, and no two
    of them are adjacent. *)
Fixpoint single_spaced (after_space : bool) (l : list ascii) : bool :=
  match l with
  | [] => true
  | c :: l' =>
      if PyStr.isspace c
      then Ascii.eqb c " " && negb after_space && single_spaced true l'
      else single_spaced false l'
  end.

(** [s.isascii()]: every character is below 128. *)
Definition isascii (s : string) : bool :=
  forallb (fun c => (nat_of_ascii c <? 128)%nat) (PyStr.chars s).

(** A text that does not begin with whitespace. *)
Definition no_leading_space (l : list ascii) : Prop :=
  match l with
  | c :: _ => PyStr.isspace c = false
  | [] => True
  end.

End PyText.

(** [_clean_reference_number] *)
Definition _clean_reference_number (ref : string) : string :=
  if negb (PyStr.truthy ref) then ""
  else
    let cleaned :=
      PyStr.remove_chars
        (fun c => negb (PyText.isword c || Ascii.eqb c "-")) ref in
    PyStr.slice_to 100 cleaned.

Definition description_prefixes : list string :=
  ["POS "; "VISA "; "MC "; "DEBIT "; "CREDIT "; "ATM "; "CHECK "].

(** [_clean_description] *)
Definition _clean_description (description : string) : string :=
  if negb (PyStr.truthy description) then ""
  else
    let cleaned :=
      PyStr.str (PyText.collapse_whitespace false
                   (PyStr.chars (PyStr.strip description))) in
    let cleaned :=
      fold_left
        (fun cleaned prefix =>
           if PyStr.startswith (PyStr.upper cleaned) prefix
           then PyStr.strip (PyStr.slice_from (String.length prefix) cleaned)
           else cleaned)
        description_prefixes cleaned in
    PyStr.slice_to 500 cleaned.

(** The table [categories] of [_auto_categorize_improved], in the order of
    the dictionary literal. *)
Definition categories : list (string * list string) :=
  [("food",
    ["restaurant"; "cafe"; "food"; "grocery"; "market"; "dining"; "starbucks";
     "mcdonald"; "pizza"; "burger"; "subway"; "kfc"; "wendy"; "taco"; "chipotle";
     "domino"; "papa john"; "pizza hut"; "dunkin"; "coffee"; "bakery"; "deli"]);
   ("gas",
    ["gas"; "fuel"; "shell"; "exxon"; "chevron"; "bp"; "mobil"; "sunoco";
     "marathon"; "speedway"; "circle k"; "7-eleven"; "gas station"; "fuel station"]);
   ("shopping",
    ["amazon"; "walmart"; "target"; "store"; "shop"; "retail"; "purchase";
     "best buy"; "home depot"; "lowes"; "costco"; "sam club"; "ikea"; "macy";
     "nordstrom"; "kohl"; "ross"; "marshalls"; "tj maxx"; "online"; "ecommerce"]);
   ("travel",
    ["hotel"; "airline"; "flight"; "uber"; "lyft"; "taxi"; "parking"; "toll";
     "marriott"; "hilton"; "hyatt"; "airbnb"; "expedia"; "booking"; "orbitz";
     "southwest"; "delta"; "american airline"; "united"; "airport"; "car rental"]);
   ("entertainment",
    ["movie"; "theater"; "netflix"; "spotify"; "game"; "entertainment";
     "hulu"; "disney"; "hbo"; "youtube"; "apple tv"; "amazon prime"; "xbox";
     "playstation"; "nintendo"; "concert"; "show"; "ticket"; "event"]);
   ("healthcare",
    ["pharmacy"; "doctor"; "medical"; "hospital"; "health"; "cvs"; "walgreens";
     "rite aid"; "kroger pharmacy"; "walmart pharmacy"; "clinic"; "dental";
     "vision"; "optical"; "prescription"; "medicine"; "healthcare"]);
   ("utilities",
    ["electric"; "water"; "gas bill"; "internet"; "phone"; "utility";
     "power"; "electricity"; "water bill"; "gas company"; "internet service";
     "cable"; "satellite"; "at&t"; "verizon"; "comcast"; "spectrum"]);
   ("transportation",
    ["uber"; "lyft"; "taxi"; "parking"; "toll"; "bus"; "train"; "subway";
     "metro"; "transit"; "transportation"; "car"; "auto"; "vehicle"]);
   ("insurance",
    ["insurance"; "geico"; "state farm"; "allstate"; "progressive"; "farmers";
     "liberty mutual"; "nationwide"; "auto insurance"; "home insurance";
     "health insurance"; "life insurance"]);
   ("banking",
    ["bank"; "atm"; "check"; "deposit"; "withdrawal"; "transfer";
     "chase"; "bank of america"; "wells fargo"; "citibank"; "us bank"])]%string.

(** The loop [for category, keywords in categories.items()]: the first
    category one of whose keywords occurs in [desc_lower]. *)
Fixpoint first_category (table : list (string * list string)) (desc_lower : string)
  : string :=
  match table with
  | [] => "other"
  | (category, keywords) :: rest =>
      if existsb (fun keyword => PyText.contains keyword desc_lower) keywords
      then category
      else first_category rest desc_lower
  end.

(** The keywords of the categories listed before [category] in the
    table. *)
Fixpoint earlier_keywords (table : list (string * list string)) (category : string)
  : list string :=
  match table with
  | [] => []
  | (c, keywords) :: rest =>
      if String.eqb c category then []
      else keywords ++ earlier_keywords rest category
  end.

(** [text] contains a keyword of a category listed before [category]. *)
Definition shadowed (category text : string) : bool :=
  existsb (fun keyword => PyText.contains keyword text)
          (earlier_keywords categories category).

(** The keywords of the table that are shadowed for their own category. *)
Definition shadowed_keywords : list (string * string) :=
  flat_map (fun entry => map (pair entry.1) (List.filter (shadowed entry.1) entry.2))
           categories.

(** [_auto_categorize_improved] *)
Definition _auto_categorize_improved (description : string) : string :=
  if negb (PyStr.truthy description) then "other"
  else first_category categories (PyStr.lower description).

(* ================================================================== *)
(** * Listing with pagination *)
(* ================================================================== *)

(** [app/schemas/bank_transaction.py]: [BankTransactionList]. *)
Record BankTransactionList := mkBankTransactionList {
  list_transactions : list BankTransaction;
  list_total : nat;
  list_page : nat;
  list_size : nat;
  list_pages : nat
}.

(** [ceil(total / limit)] for a positive [limit]; the quotient is a float,
    whose ceiling is that of the exact quotient for every total below
    2^53. *)
Definition ceil_div (total limit : nat) : nat :=
  ((total + limit - 1) / limit)%nat.

(** [get_user_bank_transactions], on the rows the filtered query yields
    in the order of [order_by(desc(date), desc(created_at))]: [ordered] is
    that list; [skip] and [limit] are natural numbers, as the endpoint
    requires. *)
Definition get_user_bank_transactions (ordered : list BankTransaction)
  (skip limit : nat) : BankTransactionList :=
  let total := length ordered in
  let transactions := take limit (drop skip ordered) in
  let pages := if (0 <? limit)%nat then ceil_div total limit else 1%nat in
  let page := if (0 <? limit)%nat then (skip / limit + 1)%nat else 1%nat in
  mkBankTransactionList transactions total page limit pages.

(** The requests a client makes to read the whole listing: page after
    page, [skip] advancing by [limit]. *)
Definition all_pages (ordered : list BankTransaction) (limit : nat)
  : list BankTransactionList :=
  map (fun i => get_user_bank_transactions ordered (i * limit) limit)
      (seq 0 (list_pages (get_user_bank_transactions ordered 0 limit))).

(* ================================================================== *)
(** * Upload batches *)
(* ================================================================== *)

(** [a < b] on naive datetimes: the civil fields compared in order. *)
Fixpoint lex_ltb (a b : list Z) : bool :=
  match a, b with
  | x :: a', y :: b' => (x <? y)%Z || ((x =? y)%Z && lex_ltb a' b')
  | _, _ => false
  end.

Definition datetime_fields (d : Datetime.t) : list Z :=
  [Datetime.year d; Datetime.month d; Datetime.day d; Datetime.hour d;
   Datetime.minute d; Datetime.second d; Datetime.microsecond d].

Definition datetime_ltb (a b : Datetime.t) : bool :=
  lex_ltb (datetime_fields a) (datetime_fields b).

(** One entry of the dictionary [batches] of [get_upload_batches]. *)
Module UploadBatch.
Record t := mk {
  batch_id : option string;
  count : nat;
  total_amount : Q;
  date_start : option Datetime.t;
  date_end : option Datetime.t
}.
End UploadBatch.

(** The body of the loop of [get_upload_batches] on the entry of the
    record's batch. *)
Definition count_in_batch (tx : BankTransaction) (b : UploadBatch.t) : UploadBatch.t :=
  let total_amount :=
    match bank_amount tx with
    | Some amount =>
        if PyNum.truthy_opt (Some amount)
        then UploadBatch.total_amount b + amount
        else UploadBatch.total_amount b
    | None => UploadBatch.total_amount b
    end in
  let '(date_start, date_end) :=
    match bank_date tx with
    | Some date =>
        (match UploadBatch.date_start b with
         | None => Some date
         | Some start => if datetime_ltb date start then Some date else Some start
         end,
         match UploadBatch.date_end b with
         | None => Some date
         | Some end_ => if datetime_ltb end_ date then Some date else Some end_
         end)
    | None => (UploadBatch.date_start b, UploadBatch.date_end b)
    end in
  UploadBatch.mk (UploadBatch.batch_id b) (UploadBatch.count b + 1)
    total_amount date_start date_end.

(** One iteration: the entry of the batch is created when the key is new;
    the dictionary keeps insertion order. *)
Fixpoint count_transaction (tx : BankTransaction) (batches : list UploadBatch.t)
  : list UploadBatch.t :=
  match batches with
  | [] => [count_in_batch tx (UploadBatch.mk (bank_upload_batch_id tx) 0 0 None None)]
  | b :: rest =>
      if opt_eqb String.eqb (UploadBatch.batch_id b) (bank_upload_batch_id tx)
      then count_in_batch tx b :: rest
      else b :: count_transaction tx rest
  end.

(** [app/api/v1/bank_transactions.py]: [get_upload_batches], on the
    ordered rows of the user; the answer is the pair of ["batches"] and
    ["total_batches"]. *)
Definition get_upload_batches (ordered : list BankTransaction)
  : list UploadBatch.t * nat :=
  let transactions := get_user_bank_transactions ordered 0 1000 in
  let batches :=
    fold_left (fun batches tx => count_transaction tx batches)
              (list_transactions transactions) [] in
  (batches, length batches).

(** The listed records of one batch. *)
Definition of_batch (k : option string) (p : list BankTransaction) : list BankTransaction :=
  List.filter (fun tx => opt_eqb String.eqb k (bank_upload_batch_id tx)) p.

(** What holds of one entry of the dictionary after the records [p]: its
    count, and its date range. *)
Definition batch_entry_ok (p : list BankTransaction) (b : UploadBatch.t) : Prop :=
  UploadBatch.count b = length (of_batch (UploadBatch.batch_id b) p) /\
  (0 < UploadBatch.count b)%nat /\
  match UploadBatch.date_start b, UploadBatch.date_end b with
  | Some start, Some end_ => datetime_ltb end_ start = false
  | None, None => True
  | _, _ => False
  end.

(** What the loop of [get_upload_batches] keeps true of the dictionary
    after the records [p]. *)
Definition batches_of (p : list BankTransaction) (batches : list UploadBatch.t) : Prop :=
  NoDup (map UploadBatch.batch_id batches) /\
  (forall tx, tx ∈ p -> bank_upload_batch_id tx ∈ map UploadBatch.batch_id batches) /\
  Forall (batch_entry_ok p) batches.

(* ================================================================== *)
(** * The decision of the inner loop *)
(* ================================================================== *)

(** What the pair [(best_match, best_confidence)] says once the bank
    records [scanned] have been read for the ledger record [l]: either the
    held record is the earliest unclaimed record of maximal score above the
    threshold, or no unclaimed record scores above the threshold. *)
Definition candidate_decided (score : Transaction -> BankTransaction -> Q)
  (threshold : Q) (l : Transaction) (claimed : gset Z)
  (scanned : list BankTransaction) (best : option BankTransaction * Q) : Prop :=
  match best with
  | (Some b0, c) =>
      c = score l b0 /\
      exists pre post,
        scanned = pre ++ b0 :: post /\
        (bank_id b0 ∉ claimed) /\
        threshold < score l b0 /\
        (forall b, b ∈ pre -> bank_id b ∉ claimed -> score l b < score l b0) /\
        (forall b, b ∈ post -> bank_id b ∉ claimed -> score l b <= score l b0)
  | (None, c) =>
      c = 0 /\
      forall b, b ∈ scanned -> bank_id b ∉ claimed -> score l b <= threshold
  end.

(* ================================================================== *)
(** * Sample comparison data *)
(* ================================================================== *)

(** A match whose records are replaced by their images under [gl] and
    [gb]. *)
Definition map_match (gl : Transaction -> Transaction)
  (gb : BankTransaction -> BankTransaction) (m : TransactionMatch) : TransactionMatch :=
  mkTransactionMatch (gl <$> ledger_transaction m) (gb <$> bank_transaction m)
    (match_type m) (confidence m).

(** The rows of [transactions] in the session, in the order a query
    returns them, and the next value of the primary key. *)
Record LedgerTable := mkLedgerTable {
  transaction_rows : list Transaction;
  next_transaction_id : Z
}.

(** [db.add(ledger_tx)]: the row receives its primary key when the session
    is flushed. *)
Definition ledger_add (ledger : LedgerTable) (data : Transaction) : LedgerTable :=
  let tx :=
    {| tx_id := next_transaction_id ledger;
       tx_user_id := tx_user_id data;
       tx_merchant_name := tx_merchant_name data;
       tx_amount := tx_amount data;
       tx_currency := tx_currency data;
       tx_transaction_date := tx_transaction_date data;
       tx_category := tx_category data;
       tx_description := tx_description data |} in
  mkLedgerTable (transaction_rows ledger ++ [tx]) (next_transaction_id ledger + 1)%Z.

(** [db.query(Transaction).filter(Transaction.user_id == user_id).delete()] *)
Definition delete_user_transactions (ledger : LedgerTable) (user_id : Z) : LedgerTable :=
  mkLedgerTable
    (List.filter (fun tx => negb (tx_user_id tx =? user_id)%Z) (transaction_rows ledger))
    (next_transaction_id ledger).

(** [db.query(BankTransaction).filter(BankTransaction.user_id == user_id).delete()] *)
Definition delete_user_bank_transactions (db : Database) (user_id : Z) : Database :=
  mkDatabase
    (List.filter (fun tx => negb (bank_user_id tx =? user_id)%Z) (bank_rows db))
    (next_bank_id db).

(** [datetime(2024, 1, d)] *)
Definition january_2024 (d : Z) : Datetime.t := Datetime.mk 2024 1 d 0 0 0 0.

(** One dictionary of [sample_ledger_transactions]; the key the session
    assigns later is left at 0. *)
Definition sample_ledger_transaction (user_id : Z) (merchant_name : string)
  (amount : Q) (day : Z) (category description : string) : Transaction :=
  {| tx_id := 0; tx_user_id := user_id; tx_merchant_name := Some merchant_name;
     tx_amount := Some amount; tx_currency := Some "USD"%string;
     tx_transaction_date := Some (january_2024 day);
     tx_category := Some category; tx_description := Some description |}.

Definition sample_ledger_transactions (user_id : Z) : list Transaction :=
  [sample_ledger_transaction user_id "SAFEWAY" 45.67 15 "food"
     "Grocery purchase at Safeway";
   sample_ledger_transaction user_id "SHELL" 35.89 17 "gas"
     "Gas station purchase";
   sample_ledger_transaction user_id "AMAZON" 89.99 18 "shopping"
     "Online purchase from Amazon";
   sample_ledger_transaction user_id "CHIPOTLE" 67.45 19 "food"
     "Restaurant dining at Chipotle";
   sample_ledger_transaction user_id "NETFLIX" 15.99 20 "entertainment"
     "Netflix subscription payment"].

(** One dictionary of [sample_bank_transactions]; [is_matched] takes the
    default of its column. *)
Definition sample_bank_transaction (user_id : Z) (batch_id : string) (day : Z)
  (description : string) (amount balance : Q) (transaction_type : string)
  (reference_number : option string) (category merchant_name : string)
  : BankTransaction :=
  {| bank_id := 0; bank_user_id := user_id; bank_upload_batch_id := Some batch_id;
     bank_date := Some (january_2024 day); bank_description := Some description;
     bank_amount := Some amount; bank_balance := Some balance;
     bank_transaction_type := Some transaction_type;
     bank_reference_number := reference_number;
     bank_category := Some category; bank_merchant_name := Some merchant_name;
     bank_is_matched := Some false; bank_matched_transaction_id := None;
     bank_match_confidence := None; bank_match_type := None |}.

Definition sample_bank_transactions (user_id : Z) (batch_id : string)
  : list BankTransaction :=
  [sample_bank_transaction user_id batch_id 15 "SAFEWAY GROCERY PURCHASE"
     45.67 1234.56 "debit" (Some "123456"%string) "food" "SAFEWAY";
   sample_bank_transaction user_id batch_id 17 "SHELL GAS STATION"
     35.89 3698.67 "debit" (Some "789012"%string) "gas" "SHELL";
   sample_bank_transaction user_id batch_id 18 "AMAZON.COM ONLINE PURCHASE"
     89.99 3608.68 "debit" (Some "345678"%string) "shopping" "AMAZON";
   sample_bank_transaction user_id batch_id 16 "SALARY DEPOSIT"
     2500.00 3734.56 "credit" None "income" "EMPLOYER CORP";
   sample_bank_transaction user_id batch_id 19 "CHIPOTLE RESTAURANT"
     67.45 3541.23 "debit" (Some "901234"%string) "food" "CHIPOTLE";
   sample_bank_transaction user_id batch_id 20 "NETFLIX SUBSCRIPTION"
     15.99 3525.24 "debit" (Some "567890"%string) "entertainment" "NETFLIX";
   sample_bank_transaction user_id batch_id 21 "CVS PHARMACY PURCHASE"
     23.50 3501.74 "debit" (Some "234567"%string) "healthcare" "CVS";
   sample_bank_transaction user_id batch_id 22 "ELECTRIC COMPANY BILL PAYMENT"
     125.00 3376.74 "debit" (Some "890123"%string) "utilities" "ELECTRIC COMPANY"].

(** [generate_sample_comparison_data]; [batch_id] is the fresh [uuid4].
    The result comes with the two tables the call leaves. *)
Definition generate_sample_comparison_data (ledger : LedgerTable) (db : Database)
  (batch_id : string) (user_id : Z) : ComparisonResult * LedgerTable * Database :=
  let ledger := delete_user_transactions ledger user_id in
  let db := delete_user_bank_transactions db user_id in
  let ledger := fold_left ledger_add (sample_ledger_transactions user_id) ledger in
  let db :=
    fold_left (fun db bank_data => (db_add db bank_data).2)
              (sample_bank_transactions user_id batch_id) db in
  (compare_transactions (transaction_rows ledger) db user_id, ledger, db).

(** A sample ledger record as the session stores it for [user_id] when the
    keys start at [first_id], and the same for a sample bank record. *)
Definition stored_as_ledger (user_id first_id : Z) (l : Transaction) : Transaction :=
  {| tx_id := first_id + tx_id l; tx_user_id := user_id;
     tx_merchant_name := tx_merchant_name l; tx_amount := tx_amount l;
     tx_currency := tx_currency l; tx_transaction_date := tx_transaction_date l;
     tx_category := tx_category l; tx_description := tx_description l |}.

Definition stored_as_bank (user_id : Z) (batch_id : string) (first_id : Z)
  (b : BankTransaction) : BankTransaction :=
  {| bank_id := first_id + bank_id b; bank_user_id := user_id;
     bank_upload_batch_id := Some batch_id;
     bank_date := bank_date b; bank_description := bank_description b;
     bank_amount := bank_amount b; bank_balance := bank_balance b;
     bank_transaction_type := bank_transaction_type b;
     bank_reference_number := bank_reference_number b;
     bank_category := bank_category b; bank_merchant_name := bank_merchant_name b;
     bank_is_matched := bank_is_matched b;
     bank_matched_transaction_id := bank_matched_transaction_id b;
     bank_match_confidence := bank_match_confidence b;
     bank_match_type := bank_match_type b |}.

(** The sample records as stored in empty tables whose keys start at 0. *)
Definition reference_ledger : list Transaction :=
  transaction_rows
    (fold_left ledger_add (sample_ledger_transactions 0) (mkLedgerTable [] 0)).

Definition reference_bank : list BankTransaction :=
  bank_rows
    (fold_left (fun db bank_data => (db_add db bank_data).2)
               (sample_bank_transactions 0 "") (mkDatabase [] 0)).

(* ================================================================== *)
(** * Facts: numbers and dates *)
(* ================================================================== *)

Module PyNumFacts.

Lemma ltb_lt (x y : Q) : PyNum.ltb x y = true <-> x < y.
Proof.
  unfold PyNum.ltb. rewrite negb_true_iff.
  destruct (Qle_bool y x) eqn:E.
  - apply Qle_bool_iff in E. split; [discriminate | intros H; lra].
  - split; [intros _ | reflexivity].
    destruct (Qlt_le_dec x y) as [H|H]; [exact H|].
    apply Qle_bool_iff in H. congruence.
Qed.

Lemma ltb_ge (x y : Q) : PyNum.ltb x y = false <-> y <= x.
Proof.
  unfold PyNum.ltb. rewrite negb_false_iff. apply Qle_bool_iff.
Qed.

Lemma min_first_bounds (a b : Q) :
  PyNum.min_first a b <= a /\ PyNum.min_first a b <= b.
Proof.
  unfold PyNum.min_first. destruct (PyNum.ltb b a) eqn:E.
  - apply ltb_lt in E. lra.
  - apply ltb_ge in E. lra.
Qed.

Lemma min_first_cases (a b : Q) :
  (a <= b /\ PyNum.min_first a b = a) \/ (b < a /\ PyNum.min_first a b = b).
Proof.
  unfold PyNum.min_first. destruct (PyNum.ltb b a) eqn:E.
  - apply ltb_lt in E. right. split; [lra | reflexivity].
  - apply ltb_ge in E. left. split; [lra | reflexivity].
Qed.

Lemma max_first_cases (a b : Q) :
  (b <= a /\ PyNum.max_first a b = a) \/ (a < b /\ PyNum.max_first a b = b).
Proof.
  unfold PyNum.max_first. destruct (PyNum.ltb a b) eqn:E.
  - apply ltb_lt in E. right. split; [lra | reflexivity].
  - apply ltb_ge in E. left. split; [lra | reflexivity].
Qed.

End PyNumFacts.

Module DatetimeFacts.

Lemma eqb_refl (a : Datetime.t) : Datetime.eqb a a = true.
Proof. unfold Datetime.eqb. rewrite !Z.eqb_refl. reflexivity. Qed.

Lemma sub_days_diag (a : Datetime.t) : Datetime.sub_days a a = 0%Z.
Proof. unfold Datetime.sub_days. rewrite !Z.sub_diag. reflexivity. Qed.

End DatetimeFacts.

(* ================================================================== *)
(** * Facts: the confidence score *)
(* ================================================================== *)

Lemma similarity_bounds (s1 s2 : string) :
  0 <= _calculate_string_similarity s1 s2 <= 1.
Proof.
  unfold _calculate_string_similarity.
  destruct (negb (PyStr.truthy s1) || negb (PyStr.truthy s2)); [lra|].
  set (w1 := list_to_set (PyStr.split s1) : gset string).
  set (w2 := list_to_set (PyStr.split s2) : gset string).
  destruct (bool_decide (w1 = ∅) || bool_decide (w2 = ∅)); [lra|].
  destruct (bool_decide (w1 ∪ w2 = ∅)) eqn:E; [lra|].
  apply bool_decide_eq_false in E.
  assert (Hpos : (0 < size (w1 ∪ w2))%nat).
  { destruct (size (w1 ∪ w2)) eqn:Hs; [|lia].
    apply size_empty_inv in Hs. exfalso. apply E. by apply leibniz_equiv. }
  assert (Hle : (size (w1 ∩ w2) <= size (w1 ∪ w2))%nat).
  { apply subseteq_size. intros x Hx.
    apply elem_of_intersection in Hx as [Hx _].
    apply elem_of_union. by left. }
  unfold Qle. simpl. split.
  - lia.
  - rewrite Z.mul_1_r, Z.mul_1_l.
    replace (Z.pos (Pos.of_nat (size (w1 ∪ w2)))) with (Z.of_nat (size (w1 ∪ w2))).
    + lia.
    + destruct (size (w1 ∪ w2)) eqn:Hs; [lia|].
      rewrite <- Pos.of_nat_succ, Zpos_P_of_succ_nat. lia.
Qed.

Lemma amount_component_bounds l b : 0 <= amount_component l b <= 0.4.
Proof.
  unfold amount_component.
  destruct (tx_amount l), (bank_amount b); try lra.
  repeat match goal with |- context [if ?c then _ else _] => destruct c end; lra.
Qed.

Lemma date_component_bounds l b : 0 <= date_component l b <= 0.3.
Proof.
  unfold date_component.
  destruct (tx_transaction_date l), (bank_date b); try lra.
  cbv zeta.
  repeat match goal with |- context [if ?c then _ else _] => destruct c end; lra.
Qed.

Lemma description_component_bounds l b : 0 <= description_component l b <= 0.2.
Proof.
  unfold description_component.
  destruct (tx_description l) as [s1|], (bank_description b) as [s2|]; try lra.
  destruct (PyStr.truthy s1 && PyStr.truthy s2); [|lra].
  pose proof (similarity_bounds (PyStr.lower s1) (PyStr.lower s2)). lra.
Qed.

Lemma category_component_bounds l b : 0 <= category_component l b <= 0.1.
Proof.
  unfold category_component.
  destruct (tx_category l), (bank_category b); try lra.
  match goal with |- context [if ?c then _ else _] => destruct c end; lra.
Qed.

(** The uncapped sum the baseline score is made of. *)
Lemma match_confidence_sum l b :
  _calculate_match_confidence l b ==
  PyNum.min_first
    (amount_component l b + date_component l b
     + description_component l b + category_component l b) 1.
Proof.
  unfold _calculate_match_confidence. cbv zeta.
  set (x := 0 + _ + _ + _ + _).
  set (y := _ + _ + _ + _).
  assert (Hxy : x == y) by (unfold x, y; lra).
  destruct (PyNumFacts.min_first_cases x 1) as [[? ->]|[? ->]],
           (PyNumFacts.min_first_cases y 1) as [[? ->]|[? ->]]; lra.
Qed.

Lemma match_confidence_bounds l b : 0 <= _calculate_match_confidence l b <= 1.
Proof.
  unfold _calculate_match_confidence. cbv zeta.
  pose proof (amount_component_bounds l b).
  pose proof (date_component_bounds l b).
  pose proof (description_component_bounds l b).
  pose proof (category_component_bounds l b).
  set (x := 0 + _ + _ + _ + _) in *.
  assert (0 <= x) by (unfold x; lra).
  destruct (PyNumFacts.min_first_cases x 1) as [[? ->]|[? ->]]; lra.
Qed.

Lemma clamp01_bounds x : 0 <= clamp01 x <= 1.
Proof.
  destruct x as [q| | |]; simpl; try lra.
  destruct (PyNumFacts.min_first_cases 1 q) as [[? ->]|[? ->]].
  - destruct (PyNumFacts.max_first_cases 0 1) as [[? ->]|[? ->]]; lra.
  - destruct (PyNumFacts.max_first_cases 0 q) as [[? ->]|[? ->]]; lra.
Qed.

Lemma ai_verify_match_bounds client l b : 0 <= _ai_verify_match client l b <= 1.
Proof.
  unfold _ai_verify_match. destruct (client l b); try lra.
  apply clamp01_bounds.
Qed.

Lemma ai_match_confidence_bounds client l b :
  0 <= _ai_calculate_match_confidence client l b <= 1.
Proof.
  unfold _ai_calculate_match_confidence. cbv zeta.
  pose proof (match_confidence_bounds l b).
  pose proof (ai_verify_match_bounds client l b).
  destruct (PyNum.ltb 0.5 _); lra.
Qed.

(* ================================================================== *)
(** * Facts: the greedy loops *)
(* ================================================================== *)

Section GreedyFacts.

Variable score : Transaction -> BankTransaction -> Q.
Variable threshold : Q.

Abbreviation scan := (scan_step score threshold).
Abbreviation step := (match_step score threshold).
Abbreviation candidate_ok := (candidate_ok score threshold).
Abbreviation appended_ok := (appended_ok score threshold).

Lemma scan_step_ok l claimed bs best b :
  b ∈ bs -> candidate_ok l claimed bs best ->
  candidate_ok l claimed bs (scan l claimed best b).
Proof.
  intros Hb Hok. unfold scan_step.
  case_bool_decide as Hin; [exact Hok|].
  destruct (PyNum.ltb best.2 (score l b)) eqn:E1; [|exact Hok].
  destruct (PyNum.ltb threshold (score l b)) eqn:E2; [|exact Hok].
  simpl. apply PyNumFacts.ltb_lt in E2. auto.
Qed.

Lemma scan_fold_ok l claimed bs0 bs best :
  (forall b, b ∈ bs -> b ∈ bs0) -> candidate_ok l claimed bs0 best ->
  candidate_ok l claimed bs0 (fold_left (scan l claimed) bs best).
Proof.
  revert best. induction bs as [|b bs IH]; intros best Hsub Hok; [exact Hok|].
  simpl. apply IH.
  - intros b' Hb'. apply Hsub. by right.
  - apply scan_step_ok; [apply Hsub; by left | exact Hok].
Qed.

Lemma best_candidate_ok l claimed bs :
  candidate_ok l claimed bs (best_candidate score threshold l claimed bs).
Proof.
  unfold best_candidate. apply scan_fold_ok; [auto | reflexivity].
Qed.

(** Records scanned before the eventual winner leave a strictly smaller
    best score behind. *)
Lemma scan_fold_below l claimed bs best (c : Q) :
  best.2 < c ->
  (forall b, b ∈ bs -> bank_id b ∉ claimed -> score l b < c) ->
  (fold_left (scan l claimed) bs best).2 < c.
Proof.
  revert best. induction bs as [|b bs IH]; intros best Hlt Hall; [exact Hlt|].
  simpl. apply IH.
  - unfold scan_step. case_bool_decide as Hin; [exact Hlt|].
    destruct (_ && _); [|exact Hlt].
    simpl. apply Hall; [by left | exact Hin].
  - intros b' Hb'. apply Hall. by right.
Qed.

(** Records scanned after the winner never displace it: the comparison is
    strict. *)
Lemma scan_fold_keep l claimed bs b0 :
  (forall b, b ∈ bs -> bank_id b ∉ claimed -> score l b <= score l b0) ->
  fold_left (scan l claimed) bs (Some b0, score l b0) = (Some b0, score l b0).
Proof.
  induction bs as [|b bs IH]; intros Hall; [reflexivity|].
  simpl. replace (scan l claimed (Some b0, score l b0) b) with (Some b0, score l b0).
  - apply IH. intros b' Hb'. apply Hall. by right.
  - unfold scan_step. case_bool_decide as Hin; [reflexivity|].
    simpl. assert (Hle : score l b <= score l b0) by (apply Hall; [by left | exact Hin]).
    apply PyNumFacts.ltb_ge in Hle. by rewrite Hle.
Qed.

(** The inner loop selects the earliest unclaimed record among those of
    maximal score above the threshold. *)
Lemma best_candidate_first_max l claimed pre b0 post :
  0 <= threshold ->
  bank_id b0 ∉ claimed ->
  threshold < score l b0 ->
  (forall b, b ∈ pre -> bank_id b ∉ claimed -> score l b < score l b0) ->
  (forall b, b ∈ post -> bank_id b ∉ claimed -> score l b <= score l b0) ->
  best_candidate score threshold l claimed (pre ++ b0 :: post) = (Some b0, score l b0).
Proof.
  intros Hthr Hfree Habove Hpre Hpost.
  unfold best_candidate. rewrite fold_left_app. simpl.
  pose proof (scan_fold_below l claimed pre (None, 0) (score l b0)) as Hlt.
  simpl in Hlt. specialize (Hlt ltac:(lra) Hpre).
  set (acc := fold_left _ pre _) in *.
  replace (scan l claimed acc b0) with (Some b0, score l b0).
  - by apply scan_fold_keep.
  - unfold scan_step. rewrite bool_decide_eq_false_2 by exact Hfree.
    apply PyNumFacts.ltb_lt in Hlt, Habove. by rewrite Hlt, Habove.
Qed.

(** No unclaimed record above the threshold: nothing is selected. *)
Lemma best_candidate_none l claimed bs :
  (forall b, b ∈ bs -> bank_id b ∉ claimed -> score l b <= threshold) ->
  best_candidate score threshold l claimed bs = (None, 0).
Proof.
  unfold best_candidate. generalize (0 : Q) at 1 2. 
  induction bs as [|b bs IH]; intros q Hall; [reflexivity|].
  simpl. replace (scan l claimed (None, q) b) with (@None BankTransaction, q).
  - apply IH. intros b' Hb'. apply Hall. by right.
  - unfold scan_step. case_bool_decide as Hin; [reflexivity|].
    assert (Hle : score l b <= threshold) by (apply Hall; [by left | exact Hin]).
    apply PyNumFacts.ltb_ge in Hle. rewrite Hle, andb_false_r. reflexivity.
Qed.

Lemma appended_ok_weaken ls ls' bs claimed claimed' m :
  (forall l, l ∈ ls -> l ∈ ls') -> claimed' ⊆ claimed ->
  appended_ok ls bs claimed m -> appended_ok ls' bs claimed' m.
Proof.
  intros Hls Hsub (l & b & -> & Hl & Hb & Hfree & Hthr).
  exists l, b. repeat split; auto.
Qed.

Lemma bank_ids_of_appended ls bs claimed later :
  Forall (appended_ok ls bs claimed) later ->
  forall i, i ∈ bank_ids_of later -> i ∉ claimed.
Proof.
  intros Hall i Hi. unfold bank_ids_of in Hi.
  apply list_elem_of_omap in Hi as (m & Hm & Hid).
  rewrite Forall_forall in Hall. 
  destruct (Hall m) as (l & b & -> & _ & _ & Hfree & _).
  { exact Hm. }
  simpl in Hid. by inversion Hid; subst.
Qed.

(** The outer loop, run from any state: it only appends, the appended
    matches claim pairwise distinct bank records that were unclaimed in the
    starting state, and every ledger record lands in exactly one list. *)
Lemma match_loop_from bs ls : forall st,
  exists later lonly,
    let st' := fold_left (step bs) ls st in
    matched st' = matched st ++ later /\
    ledger_only st' = ledger_only st ++ lonly /\
    (length later + length lonly = length ls)%nat /\
    matched_bank_ids st' = matched_bank_ids st ∪ list_to_set (bank_ids_of later) /\
    NoDup (bank_ids_of later) /\
    length (bank_ids_of later) = length later /\
    Forall (appended_ok ls bs (matched_bank_ids st)) later /\
    Forall (ledger_only_entry ls) lonly.
Proof.
  induction ls as [|l ls IH]; intros st.
  - exists [], []. simpl. rewrite !app_nil_r.
    repeat split; try constructor. by rewrite (right_id_L ∅ (∪)).
  - simpl fold_left.
    destruct (IH (step bs st l)) as
      (later & lonly & Hm & Hlo & Hlen & Hids & Hnd & Hlen' & Hok & Hlok).
    cbv zeta in *.
    pose proof (best_candidate_ok l (matched_bank_ids st) bs) as Hc.
    unfold match_step in *.
    destruct (best_candidate score threshold l (matched_bank_ids st) bs)
      as [[b|] c] eqn:Hbest; simpl in Hc, Hm, Hlo, Hids, Hok.
    + destruct Hc as (Hb & Hfree & -> & Hthr).
      exists (matched_entry l b (score l b) :: later), lonly.
      rewrite Hm, Hlo, Hids, <- app_assoc. simpl.
      repeat split.
      * simpl. lia.
      * by rewrite (assoc_L (∪)).
      * apply NoDup_cons_2; [|exact Hnd].
        intros Hin.
        eapply bank_ids_of_appended in Hin; [|exact Hok].
        apply Hin, elem_of_union. right. by apply elem_of_singleton.
      * by rewrite Hlen'.
      * constructor.
        -- exists l, b. repeat split; auto. by left.
        -- eapply Forall_impl; [exact Hok|]. intros m.
           apply appended_ok_weaken; [intros; by right | apply union_subseteq_l].
      * eapply Forall_impl; [exact Hlok|]. intros m (l' & -> & Hl').
        exists l'. split; [reflexivity | by right].
    + subst c.
      exists later, (mkTransactionMatch (Some l) None "ledger_only" (Some 0) :: lonly).
      rewrite Hm, Hlo, Hids, <- app_assoc. simpl.
      repeat split; auto.
      * rewrite <- Hlen. simpl. lia.
      * eapply Forall_impl; [exact Hok|]. intros m.
        apply appended_ok_weaken; [intros; by right | reflexivity].
      * constructor.
        -- exists l. split; [reflexivity | by left].
        -- eapply Forall_impl; [exact Hlok|]. intros m (l' & -> & Hl').
           exists l'. split; [reflexivity | by right].
Qed.

Lemma match_loop_app ls1 ls2 bs :
  match_loop score threshold (ls1 ++ ls2) bs =
  fold_left (step bs) ls2 (match_loop score threshold ls1 bs).
Proof. unfold match_loop. apply fold_left_app. Qed.

(** The claimed set is the set of bank ids of the matched list. *)
Lemma match_loop_claimed ls bs :
  let st := match_loop score threshold ls bs in
  matched_bank_ids st = list_to_set (bank_ids_of (matched st)) /\
  NoDup (bank_ids_of (matched st)) /\
  length (bank_ids_of (matched st)) = length (matched st) /\
  (length (matched st) + length (ledger_only st) = length ls)%nat /\
  Forall (appended_ok ls bs ∅) (matched st) /\
  Forall (ledger_only_entry ls) (ledger_only st).
Proof.
  cbv zeta. unfold match_loop.
  destruct (match_loop_from bs ls initial_state)
    as (later & lonly & Hm & Hlo & Hlen & Hids & Hnd & Hlen' & Hok & Hlok).
  cbv zeta in *. simpl in *. rewrite Hm, Hlo, Hids.
  repeat split; auto. apply (left_id_L ∅ (∪)).
Qed.

(** Once claimed, never claimed again (both matchers). *)
Lemma greedy_claim_final ls1 ls2 bs :
  exists later,
    matched_of (greedy_match score threshold (ls1 ++ ls2) bs)
    = matched_of (greedy_match score threshold ls1 bs) ++ later /\
    (forall m', m' ∈ later ->
       exists l b, ledger_transaction m' = Some l /\ l ∈ ls2 /\
                   bank_transaction m' = Some b) /\
    (forall m m' b b',
       m ∈ matched_of (greedy_match score threshold ls1 bs) -> m' ∈ later ->
       bank_transaction m = Some b -> bank_transaction m' = Some b' ->
       bank_id b <> bank_id b').
Proof.
  unfold greedy_match, matched_of. simpl. rewrite match_loop_app.
  destruct (match_loop_from bs ls2 (match_loop score threshold ls1 bs))
    as (later & lonly & Hm & _ & _ & _ & _ & _ & Hok & _).
  cbv zeta in Hm. exists later. split; [exact Hm|].
  rewrite Forall_forall in Hok. split.
  - intros m' Hm'. destruct (Hok m' Hm') as (l & b & -> & Hl & _).
    exists l, b. auto.
  - intros m m' b b' Hin Hin' Hb Hb' Heq.
    destruct (Hok m' Hin') as (l' & b0 & -> & _ & _ & Hfree & _).
    simpl in Hb'. inversion Hb'; subst b0.
    apply Hfree. rewrite <- Heq.
    destruct (match_loop_claimed ls1 bs) as (-> & _).
    apply elem_of_list_to_set, list_elem_of_omap.
    exists m. split; [exact Hin|]. by rewrite Hb.
Qed.

Lemma filter_agree (P1 P2 : BankTransaction -> Prop)
  `{!forall x, Decision (P1 x)} `{!forall x, Decision (P2 x)} (bs : list BankTransaction) :
  (forall b, b ∈ bs -> P1 b <-> P2 b) -> filter P1 bs = filter P2 bs.
Proof.
  induction bs as [|b bs IH]; intros Hag; [reflexivity|].
  rewrite !filter_cons.
  rewrite IH by (intros b' Hb'; apply Hag; by right).
  destruct (decide (P1 b)) as [H1|H1], (decide (P2 b)) as [H2|H2]; auto;
    exfalso; apply (Hag b (list_elem_of_here _ _)) in H1 || apply (Hag b (list_elem_of_here _ _)) in H2; contradiction.
Qed.

(** Counting the records of [bs] left outside a set of claimed ids. *)
Lemma unclaimed_count (bs : list BankTransaction) : forall (claimed : gset Z),
  NoDup (map bank_id bs) ->
  claimed ⊆ list_to_set (map bank_id bs) ->
  (length (filter (fun b => bank_id b ∉ claimed) bs) + size claimed = length bs)%nat.
Proof.
  induction bs as [|b bs IH]; intros claimed Hnd Hsub.
  - simpl in *. assert (claimed = ∅) as ->.
    { apply leibniz_equiv. intros x. split; [apply Hsub | intros H; inversion H]. }
    by rewrite size_empty.
  - simpl in Hnd. apply NoDup_cons in Hnd as [Hnotin Hnd].
    rewrite filter_cons. destruct (decide (bank_id b ∉ claimed)) as [Hfree|Hcl].
    + simpl. rewrite IH; auto.
      intros x Hx. specialize (Hsub x Hx). simpl in Hsub.
      apply elem_of_union in Hsub as [Hsub|Hsub]; [|exact Hsub].
      apply elem_of_singleton in Hsub. subst x. contradiction.
    + apply dec_stable in Hcl.
      assert (Hfil : filter (fun b0 => bank_id b0 ∉ claimed) bs
                     = filter (fun b0 => bank_id b0 ∉ claimed ∖ {[bank_id b]}) bs).
      { apply filter_agree. intros b' Hb'.
        assert (bank_id b' <> bank_id b).
        { intros Heq. apply Hnotin. rewrite <- Heq.
          apply list_elem_of_fmap. by exists b'. }
        rewrite elem_of_difference, elem_of_singleton. tauto. }
      rewrite Hfil.
      assert (Hsz : size claimed = S (size (claimed ∖ {[bank_id b]}))).
      { rewrite (union_difference_singleton_L (bank_id b) claimed Hcl) at 1.
        rewrite size_union.
        - by rewrite size_singleton.
        - intros x Hx1 Hx2. apply elem_of_difference in Hx2 as [_ Hx2].
          by apply Hx2. }
      rewrite Hsz, <- plus_n_Sm, IH; auto.
      intros x Hx. apply elem_of_difference in Hx as [Hx Hne].
      specialize (Hsub x Hx). simpl in Hsub.
      apply elem_of_union in Hsub as [Hsub|Hsub]; [contradiction | exact Hsub].
Qed.

(** The three result lists partition both inputs (bank ids are primary
    keys, hence pairwise distinct). *)
Lemma greedy_partition ls bs :
  NoDup (map bank_id bs) ->
  let r := greedy_match score threshold ls bs in
  (length (matched_of r) + length (ledger_only_of r) = length ls)%nat /\
  (length (matched_of r) + length (bank_only_of r) = length bs)%nat.
Proof.
  intros Hnd. cbv zeta. unfold greedy_match, matched_of, ledger_only_of, bank_only_of.
  simpl.
  destruct (match_loop_claimed ls bs) as (Hids & Hnd' & Hlen' & Hlen & Hok & _).
  split; [exact Hlen|].
  unfold unmatched_bank. rewrite length_map.
  pose proof (unclaimed_count bs (matched_bank_ids (match_loop score threshold ls bs)) Hnd)
    as Hcount.
  rewrite <- Hcount.
  - rewrite Hids, size_list_to_set by exact Hnd'. lia.
  - rewrite Hids. intros x Hx. apply elem_of_list_to_set in Hx.
    apply list_elem_of_omap in Hx as (m & Hm & Hx).
    rewrite Forall_forall in Hok.
    destruct (Hok m Hm) as (l & b & -> & _ & Hb & _).
    simpl in Hx. inversion Hx; subst x.
    apply elem_of_list_to_set, list_elem_of_fmap. by exists b.
Qed.

(** Every confidence attached to a result entry is a score of the scoring
    call, or the constant 0. *)
Lemma greedy_confidences ls bs :
  (forall l b, 0 <= score l b <= 1) ->
  let r := greedy_match score threshold ls bs in
  Forall confidence_in_unit (matched_of r ++ ledger_only_of r ++ bank_only_of r).
Proof.
  intros Hscore. cbv zeta. unfold greedy_match, matched_of, ledger_only_of, bank_only_of.
  simpl.
  destruct (match_loop_claimed ls bs) as (_ & _ & _ & _ & Hok & Hlok).
  rewrite !Forall_app. repeat split.
  - eapply Forall_impl; [exact Hok|]. intros m (l & b & -> & _).
    exists (score l b). split; [reflexivity | apply Hscore].
  - eapply Forall_impl; [exact Hlok|]. intros m (l & -> & _).
    exists 0. split; [reflexivity | lra].
  - unfold unmatched_bank. apply Forall_forall. intros m Hm.
    apply list_elem_of_fmap in Hm as (b & -> & _).
    exists 0. split; [reflexivity | lra].
Qed.

(** The tie-breaking rule on a whole run: the ledger record [l], processed
    after [ls1], is matched to the earliest bank record that is unclaimed
    at that point and has the maximal score above the threshold. *)
Lemma greedy_tie_break ls1 l ls2 pre b0 post :
  let bs := pre ++ b0 :: post in
  let claimed := bank_ids_of (matched_of (greedy_match score threshold ls1 bs)) in
  0 <= threshold ->
  bank_id b0 ∉ claimed ->
  threshold < score l b0 ->
  (forall b, b ∈ pre -> bank_id b ∉ claimed -> score l b < score l b0) ->
  (forall b, b ∈ post -> bank_id b ∉ claimed -> score l b <= score l b0) ->
  matched_entry l b0 (score l b0)
    ∈ matched_of (greedy_match score threshold (ls1 ++ l :: ls2) bs).
Proof.
  cbv zeta. unfold greedy_match, matched_of. simpl.
  intros Hthr Hfree Habove Hpre Hpost.
  set (bs := pre ++ b0 :: post) in *.
  rewrite match_loop_app. simpl fold_left.
  destruct (match_loop_claimed ls1 bs) as (Hids & _).
  set (st := match_loop score threshold ls1 bs) in *.
  assert (Hconv : forall i, i ∉ bank_ids_of (matched st) -> i ∉ matched_bank_ids st).
  { intros i Hi. rewrite Hids. by rewrite elem_of_list_to_set. }
  assert (Hconv' : forall i, i ∉ matched_bank_ids st -> i ∉ bank_ids_of (matched st)).
  { intros i Hi. rewrite Hids in Hi. by rewrite elem_of_list_to_set in Hi. }
  assert (Hbest : best_candidate score threshold l (matched_bank_ids st) bs
                  = (Some b0, score l b0)).
  { apply best_candidate_first_max; auto. }
  destruct (match_loop_from bs ls2 (step bs st l)) as (later & _ & Hm & _).
  cbv zeta in Hm. rewrite Hm.
  unfold match_step. rewrite Hbest. simpl.
  apply elem_of_app. left. apply elem_of_app. right. by left.
Qed.

End GreedyFacts.

(* ================================================================== *)
(** * The matchers: claimed records, partition, bounds, tie-breaking *)
(* ================================================================== *)

(** C1 (greedy claim).  In the baseline matcher, whatever bank records
    have been assigned once the ledger records [ls1] are processed, the
    ledger records [ls2] processed afterwards only append matches, and none
    of the appended matches is with a bank record already assigned; no
    condition on the scores is involved, so a strictly higher score of a
    later ledger record does not help it. *)
Theorem claimed_bank_record_is_never_reassigned
  (ls1 ls2 : list Transaction) (bs : list BankTransaction) :
  exists later,
    matched_of (_match_transactions (ls1 ++ ls2) bs)
    = matched_of (_match_transactions ls1 bs) ++ later /\
    (forall m', m' ∈ later ->
       exists l b, ledger_transaction m' = Some l /\ l ∈ ls2 /\
                   bank_transaction m' = Some b) /\
    (forall m m' b b',
       m ∈ matched_of (_match_transactions ls1 bs) -> m' ∈ later ->
       bank_transaction m = Some b -> bank_transaction m' = Some b' ->
       bank_id b <> bank_id b').
Proof. apply greedy_claim_final. Qed.

(** C2 (partition completeness).  Bank ids are primary keys, hence
    pairwise distinct; then the three lists returned by the baseline
    matcher split both inputs: every ledger record is in [matched] or in
    [ledger_only], every bank record in [matched] or in [bank_only]. *)
Theorem match_result_is_a_complete_partition
  (ls : list Transaction) (bs : list BankTransaction) :
  NoDup (map bank_id bs) ->
  let r := _match_transactions ls bs in
  (length (matched_of r) + length (ledger_only_of r) = length ls)%nat /\
  (length (matched_of r) + length (bank_only_of r) = length bs)%nat.
Proof. apply greedy_partition. Qed.

(** C4 (confidence range).  The baseline score, the clamped reply of the
    external verifier (0.5 when the call fails or the reply is not a
    number) and the blended score all lie in [0, 1], and so does the
    confidence of every entry of the three lists returned by either
    matcher. *)
Theorem confidence_scores_lie_in_unit_interval
  (client : verifier) (ls : list Transaction) (bs : list BankTransaction) :
  (forall l b, 0 <= _calculate_match_confidence l b <= 1) /\
  (forall l b, 0 <= _ai_verify_match client l b <= 1) /\
  (forall l b, 0 <= _ai_calculate_match_confidence client l b <= 1) /\
  (let r := _match_transactions ls bs in
   Forall confidence_in_unit (matched_of r ++ ledger_only_of r ++ bank_only_of r)) /\
  (let r := _ai_enhanced_match_transactions client ls bs in
   Forall confidence_in_unit (matched_of r ++ ledger_only_of r ++ bank_only_of r)).
Proof.
  split; [apply match_confidence_bounds|].
  split; [apply ai_verify_match_bounds|].
  split; [apply ai_match_confidence_bounds|].
  split.
  - apply greedy_confidences, match_confidence_bounds.
  - apply greedy_confidences, ai_match_confidence_bounds.
Qed.

(** The enhanced matcher reads the verifier only through its replies. *)
Lemma ai_confidence_ext (c1 c2 : verifier) l b :
  c1 l b = c2 l b ->
  _ai_calculate_match_confidence c1 l b = _ai_calculate_match_confidence c2 l b.
Proof.
  intros H. unfold _ai_calculate_match_confidence, _ai_verify_match. by rewrite H.
Qed.

Lemma best_candidate_ext (s1 s2 : Transaction -> BankTransaction -> Q) thr l claimed bs :
  (forall b, b ∈ bs -> s1 l b = s2 l b) ->
  best_candidate s1 thr l claimed bs = best_candidate s2 thr l claimed bs.
Proof.
  unfold best_candidate. generalize (@None BankTransaction, 0 : Q).
  induction bs as [|b bs IH]; intros acc H; [reflexivity|].
  simpl. replace (scan_step s1 thr l claimed acc b) with (scan_step s2 thr l claimed acc b).
  - apply IH. intros b' Hb'. apply H. by right.
  - unfold scan_step. rewrite (H b) by by left. reflexivity.
Qed.

(** The loop reads the scoring function at the pairs of the two lists
    only. *)
Lemma greedy_match_ext (s1 s2 : Transaction -> BankTransaction -> Q) thr ls bs :
  (forall l b, l ∈ ls -> b ∈ bs -> s1 l b = s2 l b) ->
  greedy_match s1 thr ls bs = greedy_match s2 thr ls bs.
Proof.
  intros H. unfold greedy_match.
  assert (Hloop : match_loop s1 thr ls bs = match_loop s2 thr ls bs).
  { unfold match_loop. generalize initial_state. revert H.
    induction ls as [|l ls IH]; intros H st; [reflexivity|].
    simpl.
    replace (match_step s1 thr bs st l) with (match_step s2 thr bs st l).
    - apply IH. intros l' b Hl'. apply H. by right.
    - unfold match_step.
      rewrite (best_candidate_ext s1 s2 thr l _ bs); [reflexivity|].
      intros b Hb. apply H; [by left | exact Hb]. }
  by rewrite Hloop.
Qed.

(** The inner loop decides by the rule and by nothing else. *)
Lemma scan_fold_decided score threshold l claimed bs :
  0 <= threshold ->
  forall scanned best,
    candidate_decided score threshold l claimed scanned best ->
    candidate_decided score threshold l claimed (scanned ++ bs)
      (fold_left (scan_step score threshold l claimed) bs best).
Proof.
  intros Hthr. induction bs as [|b bs IH]; intros scanned best Hd.
  - by rewrite app_nil_r.
  - cbn [fold_left].
    replace (scanned ++ b :: bs) with ((scanned ++ [b]) ++ bs)
      by by rewrite <- app_assoc.
    apply IH. unfold scan_step.
    case_bool_decide as Hin.
    + destruct best as [[b0|] c]; cbn [candidate_decided] in *.
      * destruct Hd as (Hc & pre & post & -> & Hfree & Habove & Hpre & Hpost).
        split; [exact Hc|]. exists pre, (post ++ [b]).
        split; [by rewrite <- app_assoc|]. repeat split; auto.
        intros b' Hb' Hfree'. apply elem_of_app in Hb' as [Hb'|Hb']; [by apply Hpost|].
        apply list_elem_of_singleton in Hb'. by subst b'.
      * destruct Hd as (Hc & Hall). split; [exact Hc|].
        intros b' Hb' Hfree'. apply elem_of_app in Hb' as [Hb'|Hb']; [by apply Hall|].
        apply list_elem_of_singleton in Hb'. by subst b'.
    + destruct (PyNum.ltb best.2 (score l b) && PyNum.ltb threshold (score l b)) eqn:E.
      * apply andb_prop in E as [E1 E2].
        apply PyNumFacts.ltb_lt in E1, E2. cbn [candidate_decided].
        split; [reflexivity|]. exists scanned, [].
        split; [reflexivity|]. split; [exact Hin|]. split; [exact E2|].
        split; [|intros b' Hb'; by apply elem_of_nil in Hb'].
        intros b' Hb' Hfree'.
        destruct best as [[b0|] c]; cbn [candidate_decided snd] in *.
        -- destruct Hd as (-> & pre & post & -> & Hfree & Habove & Hpre & Hpost).
           apply elem_of_app in Hb' as [Hb'|Hb'].
           ++ pose proof (Hpre b' Hb' Hfree'). lra.
           ++ apply elem_of_cons in Hb' as [->|Hb']; [exact E1|].
              pose proof (Hpost b' Hb' Hfree'). lra.
        -- destruct Hd as (-> & Hall). pose proof (Hall b' Hb' Hfree'). lra.
      * apply andb_false_iff in E.
        assert (Hle : score l b <= best.2 \/ score l b <= threshold).
        { destruct E as [E|E]; apply PyNumFacts.ltb_ge in E; auto. }
        destruct best as [[b0|] c]; cbn [candidate_decided snd] in *.
        -- destruct Hd as (-> & pre & post & -> & Hfree & Habove & Hpre & Hpost).
           split; [reflexivity|]. exists pre, (post ++ [b]).
           split; [by rewrite <- app_assoc|]. repeat split; auto.
           intros b' Hb' Hfree'. apply elem_of_app in Hb' as [Hb'|Hb']; [by apply Hpost|].
           apply list_elem_of_singleton in Hb'. subst b'.
           destruct Hle; lra.
        -- destruct Hd as (-> & Hall). split; [reflexivity|].
           intros b' Hb' Hfree'. apply elem_of_app in Hb' as [Hb'|Hb']; [by apply Hall|].
           apply list_elem_of_singleton in Hb'. subst b'.
           destruct Hle; lra.
Qed.

Lemma best_candidate_decided score threshold l claimed bs :
  0 <= threshold ->
  candidate_decided score threshold l claimed bs
    (best_candidate score threshold l claimed bs).
Proof.
  intros Hthr. unfold best_candidate.
  apply (scan_fold_decided score threshold l claimed bs Hthr [] (None, 0)).
  split; [reflexivity|]. intros b Hb. by apply elem_of_nil in Hb.
Qed.

(** C10 (tie-breaking), as amended.  [score] is the number the scoring call
    of a matcher returns for a pair and [threshold] the number the loop
    compares it with; the rule is proved of the loop both matchers run,
    whatever these are.  First, the ledger record [l] processed after [ls1]
    is matched to the bank record [b0] whenever [b0] is not yet matched,
    scores above the threshold, scores at least as high as every other
    unmatched bank record and strictly higher than every unmatched bank
    record placed before it in the input; hence among equal maximal scores
    the earliest wins.  Second, nothing else happens: the loop either
    appends to [matched] the pair of [l] with such a [b0], or, when no
    unmatched bank record scores above the threshold, appends [l] to
    [ledger_only].  Third, the result depends on the scoring only through
    the scores of the pairs of the two lists; so the baseline result, whose
    scores are computed from the two records, is a function of the two
    lists.  Fourth, the enhanced result is a function of the two lists and
    of the replies of the external verifier for the pairs of the lists. *)
Theorem earliest_best_candidate_is_selected :
  (forall (score : Transaction -> BankTransaction -> Q) (threshold : Q)
          (ls1 : list Transaction) (l : Transaction)
          (ls2 : list Transaction) (pre : list BankTransaction)
          (b0 : BankTransaction) (post : list BankTransaction),
     let bs := pre ++ b0 :: post in
     let claimed := bank_ids_of (matched_of (greedy_match score threshold ls1 bs)) in
     0 <= threshold ->
     bank_id b0 ∉ claimed ->
     threshold < score l b0 ->
     (forall b, b ∈ pre -> bank_id b ∉ claimed -> score l b < score l b0) ->
     (forall b, b ∈ post -> bank_id b ∉ claimed -> score l b <= score l b0) ->
     matched_entry l b0 (score l b0)
       ∈ matched_of (greedy_match score threshold (ls1 ++ l :: ls2) bs)) /\
  (forall (score : Transaction -> BankTransaction -> Q) (threshold : Q)
          (ls1 : list Transaction) (l : Transaction) (bs : list BankTransaction),
     let r := greedy_match score threshold ls1 bs in
     let r' := greedy_match score threshold (ls1 ++ [l]) bs in
     let claimed := bank_ids_of (matched_of r) in
     0 <= threshold ->
     (exists pre b0 post,
        bs = pre ++ b0 :: post /\
        (bank_id b0 ∉ claimed) /\
        threshold < score l b0 /\
        (forall b, b ∈ pre -> bank_id b ∉ claimed -> score l b < score l b0) /\
        (forall b, b ∈ post -> bank_id b ∉ claimed -> score l b <= score l b0) /\
        matched_of r' = matched_of r ++ [matched_entry l b0 (score l b0)] /\
        ledger_only_of r' = ledger_only_of r) \/
     ((forall b, b ∈ bs -> bank_id b ∉ claimed -> score l b <= threshold) /\
      matched_of r' = matched_of r /\
      ledger_only_of r'
      = ledger_only_of r ++ [mkTransactionMatch (Some l) None "ledger_only" (Some 0)])) /\
  (forall (score1 score2 : Transaction -> BankTransaction -> Q) (threshold : Q)
          (ls : list Transaction) (bs : list BankTransaction),
     (forall l b, l ∈ ls -> b ∈ bs -> score1 l b = score2 l b) ->
     greedy_match score1 threshold ls bs = greedy_match score2 threshold ls bs) /\
  (forall (c1 c2 : verifier) (ls : list Transaction) (bs : list BankTransaction),
     (forall l b, l ∈ ls -> b ∈ bs -> c1 l b = c2 l b) ->
     _ai_enhanced_match_transactions c1 ls bs = _ai_enhanced_match_transactions c2 ls bs).
Proof.
  split; [|split; [|split]].
  - intros score threshold ls1 l ls2 pre b0 post. cbv zeta.
    intros Hthr Hfree Habove Hpre Hpost.
    by apply (greedy_tie_break score threshold).
  - intros score threshold ls1 l bs. cbv zeta. intros Hthr.
    unfold greedy_match, matched_of, ledger_only_of. cbn [fst snd].
    rewrite match_loop_app. cbn [fold_left].
    destruct (match_loop_claimed score threshold ls1 bs) as (Hids & _).
    set (st := match_loop score threshold ls1 bs) in *.
    assert (Hconv : forall i, i ∉ matched_bank_ids st <-> i ∉ bank_ids_of (matched st)).
    { intros i. rewrite Hids. by rewrite elem_of_list_to_set. }
    pose proof (best_candidate_decided score threshold l (matched_bank_ids st) bs Hthr)
      as Hd.
    unfold match_step.
    destruct (best_candidate score threshold l (matched_bank_ids st) bs) as [[b0|] c];
      cbn [candidate_decided] in Hd; cbn [matched ledger_only].
    + destruct Hd as (-> & pre & post & Hbs & Hfree & Habove & Hpre & Hpost).
      left. exists pre, b0, post.
      split; [exact Hbs|]. split; [by apply Hconv|]. split; [exact Habove|].
      split; [intros b Hb Hb'; apply Hpre; [exact Hb | by apply Hconv]|].
      split; [intros b Hb Hb'; apply Hpost; [exact Hb | by apply Hconv]|].
      by split.
    + destruct Hd as (-> & Hall). right.
      split; [intros b Hb Hb'; apply Hall; [exact Hb | by apply Hconv]|].
      by split.
  - intros score1 score2 threshold ls bs H. by apply greedy_match_ext.
  - intros c1 c2 ls bs H. unfold _ai_enhanced_match_transactions.
    apply greedy_match_ext. intros l b Hl Hb. apply ai_confidence_ext. by apply H.
Qed.

(** An instance of C1: the second ledger record scores 1.0 against the
    only bank record, the first one 0.9; the first one, processed first,
    keeps it. *)
Example later_higher_score_does_not_reclaim :
  let l1 := Sample.safeway_ledger_other_category in
  let l2 := Sample.safeway_ledger in
  let b := Sample.safeway_bank in
  _calculate_match_confidence l1 b < _calculate_match_confidence l2 b /\
  _match_transactions [l1; l2] [b]
  = ([matched_entry l1 b (_calculate_match_confidence l1 b)],
     [mkTransactionMatch (Some l2) None "ledger_only" (Some 0)],
     []).
Proof. split; vm_compute; reflexivity. Qed.

Lemma match_result_is_a_complete_partition_witness :
  let ls := [Sample.safeway_ledger_other_category; Sample.safeway_ledger] in
  let bs := [Sample.safeway_bank; Sample.safeway_bank_again; Sample.bank 3 9 None None] in
  let r := _match_transactions ls bs in
  (length (matched_of r) + length (ledger_only_of r) = length ls)%nat /\
  (length (matched_of r) + length (bank_only_of r) = length bs)%nat.
Proof.
  apply match_result_is_a_complete_partition.
  apply (bool_decide_unpack _). reflexivity.
Defined.

Lemma earliest_best_candidate_is_selected_witness :
  matched_entry Sample.safeway_ledger Sample.safeway_bank
    (_calculate_match_confidence Sample.safeway_ledger Sample.safeway_bank)
  ∈ matched_of (_match_transactions [Sample.safeway_ledger]
                  [Sample.safeway_bank; Sample.safeway_bank_again]).
Proof.
  apply (proj1 earliest_best_candidate_is_selected _calculate_match_confidence 0.7
           [] Sample.safeway_ledger [] [] Sample.safeway_bank
           [Sample.safeway_bank_again]).
  - vm_compute. discriminate.
  - apply not_elem_of_nil.
  - vm_compute. reflexivity.
  - intros b Hb. by apply not_elem_of_nil in Hb.
  - intros b Hb _. apply list_elem_of_singleton in Hb. subst b.
    vm_compute. discriminate.
Defined.

(** The claim of C10 as stated fails for the enhanced matcher: with the
    same two lists, a verifier answering 1.0 and a verifier answering 0.0
    lead to different results. *)
Lemma enhanced_result_depends_on_verifier :
  _ai_enhanced_match_transactions (Sample.always 1)
    [Sample.bare_ledger] [Sample.bare_bank]
  <> _ai_enhanced_match_transactions (Sample.always 0)
    [Sample.bare_ledger] [Sample.bare_bank].
Proof. intros H. vm_compute in H. discriminate H. Qed.

(* ================================================================== *)
(** * Identical records *)
(* ================================================================== *)

Module PyStrFacts.

Lemma chars_str (l : list ascii) : PyStr.chars (PyStr.str l) = l.
Proof. apply list_ascii_of_string_of_list_ascii. Qed.

Lemma str_chars (s : string) : PyStr.str (PyStr.chars s) = s.
Proof. apply string_of_list_ascii_of_string. Qed.

Lemma isspace_lower_char (c : ascii) :
  PyStr.isspace (PyStr.lower_char c) = PyStr.isspace c.
Proof. destruct c as [[] [] [] [] [] [] [] []]; reflexivity. Qed.

(** [s.split()] is empty exactly when [s] holds whitespace only. *)
Lemma split_chars_nil (l : list ascii) : forall cur,
  PyStr.split_chars cur l = [] <-> cur = [] /\ forallb PyStr.isspace l = true.
Proof.
  induction l as [|c l IH]; intros cur; simpl.
  - destruct cur; split; try discriminate; auto. intros [? _]; discriminate.
  - destruct (PyStr.isspace c) eqn:E; simpl.
    + destruct cur.
      * rewrite IH. tauto.
      * split; [discriminate | intros [? _]; discriminate].
    + rewrite IH. split; [intros [? _]; discriminate | intros [_ ?]; discriminate].
Qed.

Lemma split_nil (s : string) :
  PyStr.split s = [] <-> forallb PyStr.isspace (PyStr.chars s) = true.
Proof.
  unfold PyStr.split. split.
  - intros H. apply map_eq_nil in H. by apply split_chars_nil in H as [_ H].
  - intros H. replace (PyStr.split_chars [] (PyStr.chars s)) with (@nil (list ascii));
      [reflexivity|]. symmetry. by apply split_chars_nil.
Qed.

Lemma split_lower_nil (s : string) :
  PyStr.split (PyStr.lower s) = [] <-> PyStr.split s = [].
Proof.
  rewrite !split_nil. unfold PyStr.lower. rewrite chars_str.
  assert (H : forall l, forallb PyStr.isspace (map PyStr.lower_char l)
                        = forallb PyStr.isspace l).
  { induction l as [|c l IH]; [reflexivity|]. simpl.
    by rewrite isspace_lower_char, IH. }
  by rewrite H.
Qed.

Lemma split_truthy (s : string) : PyStr.split s <> [] -> PyStr.truthy s = true.
Proof. destruct s; [intros H; by destruct H | reflexivity]. Qed.

End PyStrFacts.

(** A string with at least one word is fully similar to itself. *)
Lemma similarity_self (s : string) :
  PyStr.split s <> [] -> _calculate_string_similarity s s == 1.
Proof.
  intros Hs. unfold _calculate_string_similarity.
  rewrite (PyStrFacts.split_truthy s Hs). simpl.
  set (w := list_to_set (PyStr.split s) : gset string).
  assert (Hne : w <> ∅).
  { destruct (PyStr.split s) as [|x l] eqn:E; [by destruct Hs|].
    unfold w. simpl. intros Hw.
    assert (Hx : x ∈ ({[x]} ∪ list_to_set l : gset string))
      by (apply elem_of_union; left; by apply elem_of_singleton).
    rewrite Hw in Hx. by apply not_elem_of_empty in Hx. }
  rewrite (bool_decide_eq_false_2 _ Hne). simpl.
  rewrite (union_idemp_L w), (intersection_idemp_L w).
  rewrite (bool_decide_eq_false_2 _ Hne).
  assert (Hpos : (0 < size w)%nat).
  { destruct (size w) eqn:Hsz; [|lia].
    apply size_empty_inv in Hsz. exfalso. apply Hne. by apply leibniz_equiv. }
  unfold Qeq. simpl. rewrite Z.mul_1_r, Z.mul_1_l.
  destruct (size w) eqn:Hsz; [lia|].
  rewrite <- Pos.of_nat_succ, Zpos_P_of_succ_nat. lia.
Qed.

(** The baseline matcher on a single pair: the pair is matched exactly
    when its score is strictly above 0.7. *)
Lemma match_single_pair (l : Transaction) (b : BankTransaction) :
  _match_transactions [l] [b] =
  if PyNum.ltb 0.7 (_calculate_match_confidence l b)
  then ([matched_entry l b (_calculate_match_confidence l b)], [], [])
  else ([], [mkTransactionMatch (Some l) None "ledger_only" (Some 0)],
        [mkTransactionMatch None (Some b) "bank_only" (Some 0)]).
Proof.
  unfold _match_transactions, greedy_match, match_loop, unmatched_bank. simpl.
  unfold match_step, best_candidate. simpl. unfold scan_step. simpl.
  rewrite bool_decide_eq_false_2 by apply not_elem_of_empty.
  destruct (PyNum.ltb 0.7 (_calculate_match_confidence l b)) eqn:E.
  - assert (E0 : PyNum.ltb 0 (_calculate_match_confidence l b) = true).
    { apply PyNumFacts.ltb_lt. apply PyNumFacts.ltb_lt in E. lra. }
    rewrite E0. simpl. rewrite filter_cons_False; [reflexivity|].
    intros H. apply H. apply elem_of_union. right. by apply elem_of_singleton.
  - rewrite andb_false_r. simpl. rewrite filter_cons_True; [reflexivity|].
    apply not_elem_of_empty.
Qed.

(** C3, as amended.  For a ledger record and a bank record whose amounts
    differ by less than 0.01, whose dates are present and identical and
    whose descriptions are identical, the baseline score is at least 0.7;
    when the common description contains at least one word the score is
    strictly above 0.7 and the baseline matcher, run on the pair, returns
    it as [matched]. *)
Theorem identical_pair_is_matched
  (l : Transaction) (b : BankTransaction) (la ba : Q) (d : Datetime.t) :
  tx_amount l = Some la -> bank_amount b = Some ba ->
  Qabs (la - ba) < 0.01 ->
  tx_transaction_date l = Some d -> bank_date b = Some d ->
  tx_description l = bank_description b ->
  0.7 <= _calculate_match_confidence l b /\
  (forall s, tx_description l = Some s -> PyStr.split s <> [] ->
     0.7 < _calculate_match_confidence l b /\
     _match_transactions [l] [b]
     = ([matched_entry l b (_calculate_match_confidence l b)], [], [])).
Proof.
  intros Hla Hba Hamt Hld Hbd Hdesc.
  assert (Ha : amount_component l b = 0.4).
  { unfold amount_component. rewrite Hla, Hba.
    apply PyNumFacts.ltb_lt in Hamt. by rewrite Hamt. }
  assert (Hd : date_component l b = 0.3).
  { unfold date_component. rewrite Hld, Hbd.
    by rewrite DatetimeFacts.sub_days_diag. }
  pose proof (description_component_bounds l b) as Hdc.
  pose proof (category_component_bounds l b) as Hcc.
  pose proof (match_confidence_sum l b) as Hsum.
  rewrite Ha, Hd in Hsum.
  split.
  - destruct (PyNumFacts.min_first_cases
                (0.4 + 0.3 + description_component l b + category_component l b) 1)
      as [[? Hm]|[? Hm]]; rewrite Hm in Hsum; lra.
  - intros s Hs Hwords.
    assert (Hdv : description_component l b == 0.2).
    { unfold description_component. rewrite <- Hdesc, Hs.
      assert (Hlow : PyStr.split (PyStr.lower s) <> []).
      { intros H. apply Hwords. by apply PyStrFacts.split_lower_nil. }
      rewrite (PyStrFacts.split_truthy s Hwords). simpl.
      rewrite (similarity_self _ Hlow). lra. }
    assert (Hge : 0.7 < _calculate_match_confidence l b).
    { destruct (PyNumFacts.min_first_cases
                  (0.4 + 0.3 + description_component l b + category_component l b) 1)
        as [[? Hm]|[? Hm]]; rewrite Hm in Hsum; lra. }
    split; [exact Hge|].
    rewrite match_single_pair.
    assert (Hlt : PyNum.ltb 0.7 (_calculate_match_confidence l b) = true)
      by (apply PyNumFacts.ltb_lt; lra).
    by rewrite Hlt.
Qed.

Lemma identical_pair_is_matched_witness :
  0.7 <= _calculate_match_confidence Sample.safeway_ledger Sample.safeway_bank /\
  (forall s, tx_description Sample.safeway_ledger = Some s -> PyStr.split s <> [] ->
     0.7 < _calculate_match_confidence Sample.safeway_ledger Sample.safeway_bank /\
     _match_transactions [Sample.safeway_ledger] [Sample.safeway_bank]
     = ([matched_entry Sample.safeway_ledger Sample.safeway_bank
           (_calculate_match_confidence Sample.safeway_ledger Sample.safeway_bank)],
        [], [])).
Proof.
  apply (identical_pair_is_matched Sample.safeway_ledger Sample.safeway_bank
           45.67 45.67 Sample.jan15); reflexivity.
Defined.

(** The claim of C3 as stated fails: a pair with identical amount, date
    and (empty, or absent) description scores exactly 0.7, which the strict
    acceptance test of the baseline matcher rejects; both records are
    returned unmatched. *)
Lemma identical_pair_with_empty_description_is_not_matched :
  let l := Sample.bare_ledger in
  let b := Sample.bare_bank in
  (tx_amount l = Some 25 /\ bank_amount b = Some 25 /\ Qabs (25 - 25) < 0.01 /\
   tx_transaction_date l = bank_date b /\ tx_description l = bank_description b) /\
  _calculate_match_confidence l b == 0.7 /\
  _match_transactions [l] [b]
  = ([], [mkTransactionMatch (Some l) None "ledger_only" (Some 0)],
     [mkTransactionMatch None (Some b) "bank_only" (Some 0)]) /\
  _match_transactions [Sample.blank_ledger] [Sample.blank_bank]
  = ([], [mkTransactionMatch (Some Sample.blank_ledger) None "ledger_only" (Some 0)],
     [mkTransactionMatch None (Some Sample.blank_bank) "bank_only" (Some 0)]).
Proof.
  repeat split; vm_compute; reflexivity.
Qed.

(* ================================================================== *)
(** * The duplicate grouper *)
(* ================================================================== *)

Lemma append_cancel_l (s a b : string) : s +:+ a = s +:+ b -> a = b.
Proof.
  induction s as [|c s IH]; intros H; [exact H|].
  apply IH. change (String c (s +:+ a) = String c (s +:+ b)) in H.
  by injection H.
Qed.

(** A record whose key is not in the dictionary opens a new group. *)
Lemma group_append_fresh key tx (groups : list (string * list BankTransaction)) :
  key ∉ map fst groups ->
  group_append key tx groups = groups ++ [(key, [tx])].
Proof.
  induction groups as [|[k v] groups IH]; intros Hfresh; [reflexivity|].
  simpl in *. apply not_elem_of_cons in Hfresh as [Hne Hfresh].
  destruct (String.eqb k key) eqn:E.
  - apply String.eqb_eq in E. congruence.
  - by rewrite IH.
Qed.

Lemma grouping_of_distinct_keys (txs : list BankTransaction) :
  forall groups : list (string * list BankTransaction),
  NoDup (map fst groups ++ map group_key txs) ->
  fold_left (fun groups tx => group_append (group_key tx) tx groups) txs groups
  = groups ++ map (fun tx => (group_key tx, [tx])) txs.
Proof.
  induction txs as [|tx txs IH]; intros groups Hnd; simpl.
  - by rewrite app_nil_r.
  - simpl in Hnd. apply NoDup_app in Hnd as (Hg & Hdisj & Htx).
    apply NoDup_cons in Htx as [Hnotin Htx].
    assert (Hfresh : group_key tx ∉ map fst groups).
    { intros Hin. apply (Hdisj _ Hin). by left. }
    rewrite (group_append_fresh _ _ _ Hfresh).
    rewrite IH.
    + by rewrite <- app_assoc.
    + rewrite map_app. simpl. rewrite <- app_assoc. simpl.
      apply NoDup_app. split; [exact Hg|]. split.
      * intros k Hk Hin. apply elem_of_cons in Hin as [->|Hin].
        -- contradiction.
        -- apply (Hdisj _ Hk). by right.
      * apply NoDup_cons. split; [exact Hnotin | exact Htx].
Qed.

(** No two records with the same key: no candidate group. *)
Lemma distinct_keys_no_groups (txs : list BankTransaction) :
  NoDup (map group_key txs) -> _group_potential_duplicates txs = [].
Proof.
  intros Hnd. unfold _group_potential_duplicates.
  rewrite (grouping_of_distinct_keys txs []) by exact Hnd. simpl.
  induction txs as [|tx txs IH]; [reflexivity|].
  simpl. apply IH. simpl in Hnd. by apply NoDup_cons in Hnd as [_ ?].
Qed.

(** Without candidate groups the pass changes nothing. *)
Lemma no_groups_no_change set_order client db user_id batch_id :
  _group_potential_duplicates (query_bank_transactions db user_id batch_id) = [] ->
  detect_and_merge_duplicates set_order client db user_id batch_id
  = Some (db,
          {| total_transactions := length (query_bank_transactions db user_id batch_id);
             duplicate_groups_found := 0;
             transactions_merged := 0;
             transactions_deleted := 0;
             groups_processed := [] |},
          []).
Proof.
  intros H. unfold detect_and_merge_duplicates. by rewrite H.
Qed.

(** C5, as amended.  A pass of the duplicate grouper over records of
    which no two share a grouping key (single-member groups only) finds no
    group, merges and deletes nothing and leaves the table as it is,
    whatever the confirmation service answers. *)
Theorem pass_over_single_member_groups_deletes_nothing
  (set_order : list string -> list string) (client : analyst)
  (db : Database) (user_id : Z) (batch_id : option string) :
  NoDup (map group_key (query_bank_transactions db user_id batch_id)) ->
  exists summary,
    detect_and_merge_duplicates set_order client db user_id batch_id
    = Some (db, summary, []) /\
    duplicate_groups_found summary = 0%nat /\
    transactions_merged summary = 0%nat /\
    transactions_deleted summary = 0%nat.
Proof.
  intros Hnd. eexists. split.
  - apply no_groups_no_change. by apply distinct_keys_no_groups.
  - repeat split.
Qed.

(** A first pass over [Sample.short_statement] merges its two rows into
    one, with a joined description. *)
Example first_pass_merges_the_pair :
  detect_and_merge_duplicates Sample.first_seen Sample.unreachable_analyst
    Sample.short_statement 1 None
  = Some (Sample.merged_statement,
          {| total_transactions := 2; duplicate_groups_found := 1;
             transactions_merged := 2; transactions_deleted := 1;
             groups_processed :=
               [mkGroupReport "12.50_2024-01-15_A B C D E" 2 0.9 3] |},
          [Sample.joined_1]).
Proof. vm_compute. reflexivity. Qed.

(** The table left by that first pass has single-member groups only: a
    second pass deletes nothing. *)
Lemma pass_over_single_member_groups_deletes_nothing_witness :
  exists summary,
    detect_and_merge_duplicates Sample.first_seen Sample.unreachable_analyst
      Sample.merged_statement 1 None
    = Some (Sample.merged_statement, summary, []) /\
    duplicate_groups_found summary = 0%nat /\
    transactions_merged summary = 0%nat /\
    transactions_deleted summary = 0%nat.
Proof.
  apply (pass_over_single_member_groups_deletes_nothing
           Sample.first_seen Sample.unreachable_analyst
           Sample.merged_statement 1 None).
  apply (bool_decide_unpack _). vm_compute. reflexivity.
Defined.

(** The claim of C5 as stated fails: on [Sample.statement] the first pass
    merges the purchase recorded with and without its state code; the
    joined description of the merged record is the description of a row
    that was already there, so the second pass finds a two-member group,
    confirms it as an exact match and deletes again.  This holds for both
    iteration orders of the description set, with the confirmation service
    down on both passes. *)
Lemma duplicate_pass_is_not_idempotent :
  (transactions_deleted <$>
     second_pass_summary Sample.first_seen Sample.unreachable_analyst
       Sample.statement 1 None) = Some 1%nat /\
  (transactions_deleted <$>
     second_pass_summary Sample.last_seen Sample.unreachable_analyst
       Sample.statement 1 None) = Some 1%nat.
Proof. split; vm_compute; reflexivity. Qed.

(** ** Merging *)

(** C6: evaluation at the failing input.  Two members with the same
    description: the merged record has no description, where the first
    member has one. *)
Theorem merge_drops_a_shared_description
  (set_order : list string -> list string) (db : Database) :
  exists merged_tx db',
    _merge_duplicate_transactions set_order db [Sample.coffee_1; Sample.coffee_2]
    = Some (merged_tx, db') /\
    bank_description Sample.coffee_1 = Some "COFFEE SHOP"%string /\
    bank_description merged_tx = None.
Proof.
  eexists. eexists. split; [reflexivity|]. split; reflexivity.
Qed.

Lemma distinct_elem (l : list string) (y : string) : y ∈ distinct l -> y ∈ l.
Proof.
  induction l as [|x l IH]; simpl; intros H; [exact H|].
  apply elem_of_cons in H as [->|H]; [by left|].
  right. apply IH. apply list_elem_of_In in H. apply List.filter_In in H as [H _].
  by apply list_elem_of_In.
Qed.

Lemma filter_all_out (P : string -> bool) (l : list string) :
  (forall y, y ∈ l -> P y = false) -> List.filter P l = [].
Proof.
  induction l as [|x l IH]; intros Hall; [reflexivity|].
  simpl. rewrite (Hall x) by by left. apply IH. intros y Hy. apply Hall. by right.
Qed.

Lemma distinct_of_constant (l : list string) (d : string) :
  (forall x, x ∈ l -> x = d) -> (length (distinct l) <= 1)%nat.
Proof.
  destruct l as [|x l]; intros Hall; [simpl; lia|].
  simpl. rewrite filter_all_out; [simpl; lia|].
  intros y Hy. apply distinct_elem in Hy.
  rewrite (Hall x) by by left. rewrite (Hall y) by by right.
  by rewrite String.eqb_refl.
Qed.

(** The defect behind C6 in general: whenever all members carry the same
    description, the merged record has none. *)
Lemma merge_drops_every_shared_description
  (set_order : list string -> list string) (db : Database)
  (base_tx : BankTransaction) (rest : list BankTransaction) (d : string) :
  (forall tx, tx ∈ base_tx :: rest -> bank_description tx = Some d) ->
  exists merged_tx db',
    _merge_duplicate_transactions set_order db (base_tx :: rest)
    = Some (merged_tx, db') /\
    bank_description merged_tx = None.
Proof.
  intros Hall. eexists. eexists. split; [reflexivity|].
  unfold db_add, merged_data. cbn [bank_description].
  match goal with |- context [distinct ?l] => set (descriptions := l) end.
  assert (Hle : (length (distinct descriptions) <= 1)%nat).
  { apply (distinct_of_constant _ d). intros x Hx.
    unfold descriptions in Hx.
    apply list_elem_of_omap in Hx as (tx & Htx & Hx).
    rewrite (Hall tx Htx) in Hx.
    destruct (PyStr.truthy_opt (Some d)); congruence. }
  apply Nat.ltb_ge in Hle. by rewrite Hle.
Qed.

(** The part of C6 the code fulfils: every scalar field other than the
    description comes from the first member, except that category and
    merchant name come from the first member carrying a usable one. *)
Lemma merge_keeps_base_fields set_order db base_tx rest :
  exists merged_tx db',
    _merge_duplicate_transactions set_order db (base_tx :: rest)
    = Some (merged_tx, db') /\
    bank_user_id merged_tx = bank_user_id base_tx /\
    bank_upload_batch_id merged_tx = bank_upload_batch_id base_tx /\
    bank_date merged_tx = bank_date base_tx /\
    bank_amount merged_tx = bank_amount base_tx /\
    bank_balance merged_tx = bank_balance base_tx /\
    bank_transaction_type merged_tx = bank_transaction_type base_tx /\
    bank_reference_number merged_tx = bank_reference_number base_tx /\
    bank_is_matched merged_tx = bank_is_matched base_tx /\
    bank_matched_transaction_id merged_tx = bank_matched_transaction_id base_tx /\
    bank_match_confidence merged_tx = bank_match_confidence base_tx /\
    bank_match_type merged_tx = bank_match_type base_tx.
Proof.
  eexists. eexists. split; [reflexivity|]. repeat split.
Qed.

(** ** The SAFEWAY scenario *)

Lemma clean_safeway_123 :
  PyStr.slice_to 50 (_clean_description_for_grouping "SAFEWAY #123") = "SAFEWAY #123"%string.
Proof. reflexivity. Qed.

Lemma clean_safeway_456 :
  PyStr.slice_to 50 (_clean_description_for_grouping "SAFEWAY #456") = "SAFEWAY #456"%string.
Proof. reflexivity. Qed.

Lemma safeway_similarity :
  _calculate_string_similarity "SAFEWAY #123" "SAFEWAY #456" = 1 # 3.
Proof. vm_compute. reflexivity. Qed.

(** C7, as amended.  Two bank records with identical amount and date and
    the descriptions "SAFEWAY #123" and "SAFEWAY #456" get different
    grouping keys (a "#" reference is not stripped), so the grouper returns
    no candidate group and the pass merges nothing; the deterministic
    fallback, applied to the pair, would not confirm it either: the word
    overlap is 1/3. *)
Theorem safeway_rows_are_neither_grouped_nor_merged (tx1 tx2 : BankTransaction) :
  bank_description tx1 = Some "SAFEWAY #123"%string ->
  bank_description tx2 = Some "SAFEWAY #456"%string ->
  bank_amount tx1 = bank_amount tx2 ->
  bank_date tx1 = bank_date tx2 ->
  group_key tx1 <> group_key tx2 /\
  _group_potential_duplicates [tx1; tx2] = [] /\
  are_duplicates (_fallback_duplicate_analysis [tx1; tx2]) = false /\
  (forall set_order client db user_id batch_id,
     query_bank_transactions db user_id batch_id = [tx1; tx2] ->
     exists summary,
       detect_and_merge_duplicates set_order client db user_id batch_id
       = Some (db, summary, []) /\
       transactions_merged summary = 0%nat).
Proof.
  intros Hd1 Hd2 Hamt Hdate.
  assert (Hkey : group_key tx1 <> group_key tx2).
  { unfold group_key. rewrite Hd1, Hd2, Hamt, Hdate. simpl PyStr.or_empty.
    rewrite clean_safeway_123, clean_safeway_456.
    intros H. do 4 apply append_cancel_l in H. discriminate H. }
  assert (Hgroups : _group_potential_duplicates [tx1; tx2] = []).
  { apply distinct_keys_no_groups. simpl.
    apply NoDup_cons. split.
    - intros Hin. apply list_elem_of_singleton in Hin. contradiction.
    - apply NoDup_singleton. }
  split; [exact Hkey|]. split; [exact Hgroups|]. split.
  - unfold _fallback_duplicate_analysis. rewrite Hd1, Hd2. simpl PyStr.or_empty.
    rewrite safeway_similarity.
    replace (opt_eqb String.eqb (Some "SAFEWAY #123"%string) (Some "SAFEWAY #456"%string))
      with false by reflexivity.
    rewrite andb_false_r.
    replace (PyNum.ltb 0.8 (1 # 3)) with false by reflexivity.
    rewrite andb_false_r. reflexivity.
  - intros set_order client db user_id batch_id Hq.
    eexists. split.
    + apply no_groups_no_change. by rewrite Hq.
    + reflexivity.
Qed.

Lemma safeway_rows_are_neither_grouped_nor_merged_witness :
  group_key Sample.safeway_123 <> group_key Sample.safeway_456 /\
  _group_potential_duplicates [Sample.safeway_123; Sample.safeway_456] = [] /\
  are_duplicates (_fallback_duplicate_analysis [Sample.safeway_123; Sample.safeway_456])
  = false /\
  (forall set_order client db user_id batch_id,
     query_bank_transactions db user_id batch_id
     = [Sample.safeway_123; Sample.safeway_456] ->
     exists summary,
       detect_and_merge_duplicates set_order client db user_id batch_id
       = Some (db, summary, []) /\
       transactions_merged summary = 0%nat).
Proof.
  apply (safeway_rows_are_neither_grouped_nor_merged
           Sample.safeway_123 Sample.safeway_456); reflexivity.
Defined.

(** The claim of C7 as stated fails: the grouper does not place the two
    rows in one candidate group; their keys differ and no group is
    returned. *)
Lemma safeway_rows_are_not_grouped :
  group_key Sample.safeway_123 = "45.67_2024-01-15_SAFEWAY #123"%string /\
  group_key Sample.safeway_456 = "45.67_2024-01-15_SAFEWAY #456"%string /\
  _group_potential_duplicates [Sample.safeway_123; Sample.safeway_456] = [].
Proof. repeat split; vm_compute; reflexivity. Qed.

(* ================================================================== *)
(** * The amount parser *)
(* ================================================================== *)

Lemma str_app (a b : list ascii) :
  PyStr.str (a ++ b) = PyStr.str a +:+ PyStr.str b.
Proof.
  induction a as [|c a IH]; [reflexivity|].
  change (String c (PyStr.str (a ++ b)) = String c (PyStr.str a +:+ PyStr.str b)).
  by rewrite IH.
Qed.

Lemma append_assoc (a b c : string) : (a +:+ b) +:+ c = a +:+ (b +:+ c).
Proof.
  induction a as [|x a IH]; [reflexivity|].
  change (String x ((a +:+ b) +:+ c) = String x (a +:+ (b +:+ c))).
  by rewrite IH.
Qed.

Lemma split_on_chars_length (c : ascii) (l : list ascii) : forall cur,
  length (PyStr.split_on_chars c cur l)
  = S (length (filter (fun x => Ascii.eqb c x = true) l)).
Proof.
  induction l as [|x l IH]; intros cur; [reflexivity|].
  simpl. rewrite filter_cons.
  destruct (Ascii.eqb c x) eqn:E.
  - rewrite decide_True by reflexivity. simpl. by rewrite IH.
  - rewrite decide_False by discriminate. apply IH.
Qed.

(** Splitting on a character and joining on it gives the text back. *)
Lemma join_split_on_chars (c : ascii) (l : list ascii) : forall cur,
  PyStr.join (String c "") (map PyStr.str (PyStr.split_on_chars c cur l))
  = PyStr.str (rev cur ++ l).
Proof.
  induction l as [|x l IH]; intros cur.
  - simpl. by rewrite app_nil_r.
  - simpl PyStr.split_on_chars. destruct (Ascii.eqb c x) eqn:E.
    + apply Ascii.eqb_eq in E. subst x.
      pose proof (split_on_chars_length c l []) as Hlen.
      specialize (IH []). simpl rev in IH. simpl app in IH.
      destruct (PyStr.split_on_chars c [] l) as [|p ps]; [discriminate Hlen|].
      change (PyStr.str (rev cur) +:+ String c "" +:+
              PyStr.join (String c "") (map PyStr.str (p :: ps))
              = PyStr.str (rev cur ++ c :: l)).
      rewrite IH, str_app. reflexivity.
    + rewrite IH. simpl rev. by rewrite <- app_assoc.
Qed.

Lemma join_removelast_last (sep : string) (ps : list string) :
  (2 <= length ps)%nat ->
  PyStr.join sep (List.removelast ps) +:+ sep +:+ List.last ps "" = PyStr.join sep ps.
Proof.
  induction ps as [|a ps IH]; [simpl; lia|].
  destruct ps as [|b ps]; [simpl; lia|]. intros _.
  destruct ps as [|c ps]; [reflexivity|].
  specialize (IH ltac:(simpl; lia)).
  change (List.removelast (a :: b :: c :: ps)) with (a :: List.removelast (b :: c :: ps)).
  change (List.last (a :: b :: c :: ps) "") with (List.last (b :: c :: ps) "").
  change (PyStr.join sep (a :: b :: c :: ps))
    with (a +:+ sep +:+ PyStr.join sep (b :: c :: ps)).
  rewrite <- IH.
  change (List.removelast (b :: c :: ps)) with (b :: List.removelast (c :: ps)).
  change (PyStr.join sep (a :: b :: List.removelast (c :: ps)))
    with (a +:+ sep +:+ PyStr.join sep (b :: List.removelast (c :: ps))).
  by rewrite !append_assoc.
Qed.

(** The handling of multiple decimal points rebuilds the text it was
    given: nothing is collapsed. *)
Lemma collapse_decimal_points_is_identity (cleaned : string) :
  collapse_decimal_points cleaned = cleaned.
Proof.
  unfold collapse_decimal_points.
  destruct (1 <? PyStr.count_char "." cleaned)%nat eqn:E; [|reflexivity].
  apply Nat.ltb_lt in E. cbv zeta.
  unfold PyStr.count_char in E.
  rewrite join_removelast_last.
  - unfold PyStr.split_on. rewrite join_split_on_chars. simpl.
    apply PyStrFacts.str_chars.
  - unfold PyStr.split_on. rewrite length_map, split_on_chars_length. lia.
Qed.

(** [Decimal] rejects a text with more than one decimal point. *)
Lemma Decimal_rejects_two_points (s : string) :
  (1 < PyStr.count_char "." s)%nat -> Decimal s = None.
Proof.
  unfold PyStr.count_char, Decimal. intros Hcount.
  set (cs := PyStr.chars s) in *.
  assert (Hbody : forall body,
            (1 < length (filter (fun x => Ascii.eqb "." x = true) body))%nat ->
            match PyStr.split_on_chars "." [] body with
            | [int_part] =>
                if all_digits int_part && negb (Nat.eqb (length int_part) 0)
                then Some (digits_value int_part # 1) else None
            | [int_part; frac] =>
                if all_digits int_part && all_digits frac
                   && negb (Nat.eqb (length int_part + length frac) 0)
                then Some (digits_value (int_part ++ frac)
                           # Z.to_pos (10 ^ Z.of_nat (length frac)))
                else None
            | _ => None
            end = None).
  { intros body Hb. pose proof (split_on_chars_length "." body []) as Hlen.
    assert (Hge : (3 <= length (PyStr.split_on_chars "." [] body))%nat)
      by (rewrite Hlen; lia).
    clear Hlen.
    destruct (PyStr.split_on_chars "." [] body) as [|p1 [|p2 [|p3 ps]]];
      simpl in Hge; try lia; reflexivity. }
  destruct cs as [|c cs']; [simpl in Hcount; lia|].
  destruct (Ascii.eqb c "-") eqn:E.
  - apply Ascii.eqb_eq in E. subst c.
    rewrite filter_cons_False in Hcount by discriminate.
    simpl. by rewrite Hbody.
  - destruct c as [[] [] [] [] [] [] [] []]; try (by rewrite Hbody); discriminate E.
Qed.

(** Every amount whose cleaned text holds more than one decimal point is
    unparseable. *)
Lemma several_decimal_points_are_unparseable (amount_str : string) :
  (1 < PyStr.count_char "." (amount_text amount_str))%nat ->
  _parse_amount_improved amount_str = None.
Proof.
  intros H. unfold _parse_amount_improved.
  destruct (negb (PyStr.truthy amount_str)); [reflexivity|].
  rewrite collapse_decimal_points_is_identity.
  by apply Decimal_rejects_two_points.
Qed.

(** C8: evaluation at the failing input.  The text "1.234.56" is rebuilt
    unchanged by the handling of multiple decimal points, [Decimal]
    rejects it, and the parser returns the unparseable result, not
    1234.56. *)
Theorem amount_with_two_decimal_points_is_unparseable :
  _parse_amount_improved "1.234.56" = None /\
  (let parts := PyStr.split_on "." "1.234.56" in
   PyStr.join "." (List.removelast parts) +:+ "." +:+ List.last parts ""
   = "1.234.56"%string) /\
  _parse_amount_improved "1234.56" = Some 1234.56.
Proof. repeat split; vm_compute; reflexivity. Qed.

(** Well-formed amounts are parsed, and nothing is raised: the parser is a
    total function into the optional amounts. *)
Example parse_amount_examples :
  _parse_amount_improved "($45.67)" = Some (-45.67) /\
  _parse_amount_improved "$1,234.56" = Some 1234.56 /\
  _parse_amount_improved "12.5" = Some 12.5 /\
  _parse_amount_improved "abc" = None /\
  _parse_amount_improved "" = None.
Proof. repeat split; vm_compute; reflexivity. Qed.

(* ================================================================== *)
(** * Ingestion of an empty upload *)
(* ================================================================== *)

Section IngestionFacts.

Variable Row : Type.
Variable RawRow : Type.
Variable Cleaned : Type.
Variable decode_utf8 : list Byte.byte -> string + string.
Variable _parse_csv_with_openai : string -> list Row.
Variable sniff_delimiter : string -> option ascii.
Variable DictReader : string -> ascii -> list RawRow.
Variable _normalize_csv_row : RawRow -> option Row.
Variable any_value : Row -> bool.
Variable _is_header_row : Row -> bool.
Variable _clean_transaction_data_improved : Row -> option Cleaned.
Variable BankTransactionCreate : Z -> string -> Cleaned -> string + BankTransaction.

(** What the standard library and the GPT-assisted parse do on the empty
    text: it decodes to the empty string, the assisted parse yields no
    record, and a reader over the empty text yields no row. *)
Hypothesis decode_empty : decode_utf8 [] = inr ""%string.
Hypothesis assistant_empty : _parse_csv_with_openai "" = [].
Hypothesis reader_empty : forall delimiter, DictReader "" delimiter = [].

Lemma parse_csv_traditional_empty :
  _parse_csv_traditional Row RawRow sniff_delimiter DictReader
    _normalize_csv_row any_value _is_header_row "" = [].
Proof.
  unfold _parse_csv_traditional.
  destruct (sniff_delimiter _); [|reflexivity].
  by rewrite reader_empty.
Qed.

(** C9, as amended.  The service call on a 0-byte upload returns the
    structured response with the batch identifier and total 0,
    succeeded 0, failed 0 and no error message, and stores nothing; the
    upload endpoint never makes that call: it answers a 0-byte file with
    the HTTP error 400. *)
Theorem empty_upload_is_answered_without_failure
  (db : Database) (batch_id : string) (user_id : Z) :
  process_csv_upload Row RawRow Cleaned decode_utf8 _parse_csv_with_openai
    sniff_delimiter DictReader _normalize_csv_row any_value _is_header_row
    _clean_transaction_data_improved BankTransactionCreate
    db batch_id user_id []
  = (CSVUploadResponse.mk batch_id 0 0 0 [], db) /\
  (forall filename,
     exists detail,
       upload_bank_statement_csv Row RawRow Cleaned decode_utf8
         _parse_csv_with_openai sniff_delimiter DictReader _normalize_csv_row
         any_value _is_header_row _clean_transaction_data_improved
         BankTransactionCreate db batch_id user_id filename []
       = (HTTPException 400 detail, db)) /\
  upload_bank_statement_csv Row RawRow Cleaned decode_utf8
    _parse_csv_with_openai sniff_delimiter DictReader _normalize_csv_row
    any_value _is_header_row _clean_transaction_data_improved
    BankTransactionCreate db batch_id user_id "statement.csv" []
  = (HTTPException 400 "Empty file uploaded", db).
Proof.
  split; [|split].
  - unfold process_csv_upload. rewrite decode_empty, assistant_empty.
    by rewrite parse_csv_traditional_empty.
  - intros filename. unfold upload_bank_statement_csv.
    destruct (negb _); eexists; reflexivity.
  - reflexivity.
Qed.

End IngestionFacts.

Lemma empty_upload_is_answered_without_failure_witness :
  process_csv_upload (list string) string BankTransaction
    SampleUpload.decode SampleUpload.no_assistant SampleUpload.sniff
    SampleUpload.reader SampleUpload.normalize SampleUpload.any_value
    SampleUpload.is_header SampleUpload.clean SampleUpload.create
    SampleUpload.empty_database "batch-1" 1 []
  = (CSVUploadResponse.mk "batch-1" 0 0 0 [], SampleUpload.empty_database) /\
  (forall filename,
     exists detail,
       upload_bank_statement_csv (list string) string BankTransaction
         SampleUpload.decode SampleUpload.no_assistant SampleUpload.sniff
         SampleUpload.reader SampleUpload.normalize SampleUpload.any_value
         SampleUpload.is_header SampleUpload.clean SampleUpload.create
         SampleUpload.empty_database "batch-1" 1 filename []
       = (HTTPException 400 detail, SampleUpload.empty_database)) /\
  upload_bank_statement_csv (list string) string BankTransaction
    SampleUpload.decode SampleUpload.no_assistant SampleUpload.sniff
    SampleUpload.reader SampleUpload.normalize SampleUpload.any_value
    SampleUpload.is_header SampleUpload.clean SampleUpload.create
    SampleUpload.empty_database "batch-1" 1 "statement.csv" []
  = (HTTPException 400 "Empty file uploaded", SampleUpload.empty_database).
Proof.
  apply (empty_upload_is_answered_without_failure
           (list string) string BankTransaction
           SampleUpload.decode SampleUpload.no_assistant SampleUpload.sniff
           SampleUpload.reader SampleUpload.normalize SampleUpload.any_value
           SampleUpload.is_header SampleUpload.clean SampleUpload.create);
    reflexivity.
Defined.

(** The claim of C9 as stated fails: with the GPT-assisted parse down, the
    service call on a 0-byte upload reports no failed import and no error
    message. *)
Lemma empty_upload_reports_no_failure :
  let response :=
    (process_csv_upload (list string) string BankTransaction
       SampleUpload.decode SampleUpload.no_assistant SampleUpload.sniff
       SampleUpload.reader SampleUpload.normalize SampleUpload.any_value
       SampleUpload.is_header SampleUpload.clean SampleUpload.create
       SampleUpload.empty_database "batch-1" 1 []).1 in
  CSVUploadResponse.total_transactions response = 0%nat /\
  CSVUploadResponse.successful_imports response = 0%nat /\
  CSVUploadResponse.failed_imports response = 0%nat /\
  CSVUploadResponse.failed_imports response <> 1%nat /\
  CSVUploadResponse.errors response = [].
Proof. repeat split; vm_compute; discriminate. Qed.

(* ================================================================== *)
(** * Further properties of the matchers *)
(* ================================================================== *)

(** X1.  In the enhanced matcher as well, a bank record assigned while
    [ls1] is processed is never assigned to a ledger record of [ls2]
    processed afterwards, whatever the verifier replies. *)
Theorem enhanced_claimed_bank_record_is_never_reassigned
  (client : verifier) (ls1 ls2 : list Transaction) (bs : list BankTransaction) :
  exists later,
    matched_of (_ai_enhanced_match_transactions client (ls1 ++ ls2) bs)
    = matched_of (_ai_enhanced_match_transactions client ls1 bs) ++ later /\
    (forall m', m' ∈ later ->
       exists l b, ledger_transaction m' = Some l /\ l ∈ ls2 /\
                   bank_transaction m' = Some b) /\
    (forall m m' b b',
       m ∈ matched_of (_ai_enhanced_match_transactions client ls1 bs) -> m' ∈ later ->
       bank_transaction m = Some b -> bank_transaction m' = Some b' ->
       bank_id b <> bank_id b').
Proof. apply greedy_claim_final. Qed.

Lemma run_matcher_unfold (v : matcher) ls bs :
  run_matcher v ls bs = greedy_match (matcher_score v) (matcher_threshold v) ls bs.
Proof. by destruct v. Qed.

Lemma run_matcher_sound
  (v : matcher) (ls : list Transaction) (bs : list BankTransaction) :
  Forall (fun m => exists l b,
            m = matched_entry l b (matcher_score v l b) /\
            l ∈ ls /\ b ∈ bs /\ matcher_threshold v < matcher_score v l b)
         (matched_of (run_matcher v ls bs)) /\
  NoDup (bank_ids_of (matched_of (run_matcher v ls bs))).
Proof.
  rewrite run_matcher_unfold. unfold greedy_match, matched_of. simpl.
  destruct (match_loop_claimed (matcher_score v) (matcher_threshold v) ls bs)
    as (_ & Hnd & _ & _ & Hok & _).
  split; [|exact Hnd].
  eapply Forall_impl; [exact Hok|].
  intros m (l & b & -> & Hl & Hb & _ & Hthr). exists l, b. auto.
Qed.

(** X2.  Every entry of [matched], for the loop of either matcher and
    whatever the scoring call returns, pairs a ledger record of the input
    with a bank record of the input, carries the score of that pair as its
    confidence, and that score is strictly above the threshold the loop
    compares with; no bank id occurs in two entries. *)
Theorem matched_entries_are_sound
  (score : Transaction -> BankTransaction -> Q) (threshold : Q)
  (ls : list Transaction) (bs : list BankTransaction) :
  Forall (fun m => exists l b,
            m = matched_entry l b (score l b) /\
            l ∈ ls /\ b ∈ bs /\ threshold < score l b)
         (matched_of (greedy_match score threshold ls bs)) /\
  NoDup (bank_ids_of (matched_of (greedy_match score threshold ls bs))).
Proof.
  unfold greedy_match, matched_of. cbn [fst].
  destruct (match_loop_claimed score threshold ls bs) as (_ & Hnd & _ & _ & Hok & _).
  split; [|exact Hnd].
  eapply Forall_impl; [exact Hok|].
  intros m (l & b & -> & Hl & Hb & _ & Hthr). exists l, b. auto.
Qed.

(** X3.  The [bank_only] list, for either matcher, holds exactly the bank
    records whose id occurs in no entry of [matched], in the order of the
    input, each with confidence 0. *)
Theorem bank_only_are_the_unmatched_records
  (v : matcher) (ls : list Transaction) (bs : list BankTransaction) :
  let r := run_matcher v ls bs in
  bank_only_of r
  = map (fun b => mkTransactionMatch None (Some b) "bank_only" (Some 0))
        (filter (fun b => bank_id b ∉ bank_ids_of (matched_of r)) bs).
Proof.
  cbv zeta. rewrite run_matcher_unfold.
  unfold greedy_match, matched_of, bank_only_of, unmatched_bank. simpl.
  destruct (match_loop_claimed (matcher_score v) (matcher_threshold v) ls bs)
    as (Hids & _).
  f_equal. apply filter_agree. intros b _.
  rewrite Hids. by rewrite elem_of_list_to_set.
Qed.

Lemma no_amount_agreement_low_score l b :
  amount_component l b = 0 -> _calculate_match_confidence l b <= 0.6.
Proof.
  intros Ha.
  pose proof (date_component_bounds l b).
  pose proof (description_component_bounds l b).
  pose proof (category_component_bounds l b).
  pose proof (match_confidence_sum l b) as Hsum. rewrite Ha in Hsum.
  destruct (PyNumFacts.min_first_cases
              (0 + date_component l b + description_component l b
               + category_component l b) 1)
    as [[? Hm]|[? Hm]]; rewrite Hm in Hsum; lra.
Qed.

(** X4.  The baseline matcher never matches a pair without amount
    agreement: in every entry of [matched] both amounts are present and
    differ by less than 0.1. *)
Theorem baseline_matches_need_amount_agreement
  (ls : list Transaction) (bs : list BankTransaction) :
  Forall (fun m => exists l b la ba,
            ledger_transaction m = Some l /\ bank_transaction m = Some b /\
            tx_amount l = Some la /\ bank_amount b = Some ba /\
            Qabs (la - ba) < 0.1)
         (matched_of (_match_transactions ls bs)).
Proof.
  destruct (run_matcher_sound Baseline ls bs) as [Hok _].
  simpl in Hok. eapply Forall_impl; [exact Hok|].
  intros m (l & b & -> & _ & _ & Hthr).
  assert (Hne : amount_component l b <> 0).
  { intros H0. apply no_amount_agreement_low_score in H0. lra. }
  unfold amount_component in Hne.
  destruct (tx_amount l) as [la|] eqn:Hla; [|by destruct Hne].
  destruct (bank_amount b) as [ba|] eqn:Hba; [|by destruct Hne].
  exists l, b, la, ba. repeat split; auto.
  destruct (PyNum.ltb (Qabs (la - ba)) 0.01) eqn:E1.
  - apply PyNumFacts.ltb_lt in E1. lra.
  - destruct (PyNum.ltb (Qabs (la - ba)) 0.1) eqn:E2.
    + by apply PyNumFacts.ltb_lt in E2.
    + by destruct Hne.
Qed.

(** X5.  The enhanced matcher never matches a pair whose baseline score is
    0.5 or less (the verifier is not even asked), and never a pair the
    verifier rates 0: in every entry of [matched] the baseline score is
    above 0.5 and the clamped reply is positive. *)
Theorem enhanced_matches_need_both_scores
  (client : verifier) (ls : list Transaction) (bs : list BankTransaction) :
  Forall (fun m => exists l b,
            ledger_transaction m = Some l /\ bank_transaction m = Some b /\
            0.5 < _calculate_match_confidence l b /\
            0 < _ai_verify_match client l b)
         (matched_of (_ai_enhanced_match_transactions client ls bs)).
Proof.
  destruct (run_matcher_sound (Enhanced client) ls bs) as [Hok _].
  simpl in Hok. eapply Forall_impl; [exact Hok|].
  intros m (l & b & -> & _ & _ & Hthr).
  exists l, b. split; [reflexivity|]. split; [reflexivity|].
  unfold _ai_calculate_match_confidence in Hthr. cbv zeta in Hthr.
  pose proof (match_confidence_bounds l b).
  pose proof (ai_verify_match_bounds client l b).
  destruct (PyNum.ltb 0.5 (_calculate_match_confidence l b)) eqn:E.
  - apply PyNumFacts.ltb_lt in E. split; [exact E | lra].
  - apply PyNumFacts.ltb_ge in E. lra.
Qed.

(** X6.  For the loop of either matcher and whatever the scoring call
    returns, a ledger record for which no bank record still unmatched at
    its turn scores above the threshold is returned in [ledger_only]. *)
Theorem ledger_without_candidate_is_ledger_only
  (score : Transaction -> BankTransaction -> Q) (threshold : Q)
  (ls1 : list Transaction) (l : Transaction)
  (ls2 : list Transaction) (bs : list BankTransaction) :
  (forall b, b ∈ bs ->
     bank_id b ∉ bank_ids_of (matched_of (greedy_match score threshold ls1 bs)) ->
     score l b <= threshold) ->
  mkTransactionMatch (Some l) None "ledger_only" (Some 0)
    ∈ ledger_only_of (greedy_match score threshold (ls1 ++ l :: ls2) bs).
Proof.
  unfold greedy_match, matched_of, ledger_only_of. cbn [fst snd].
  intros Hall. rewrite match_loop_app. simpl fold_left.
  destruct (match_loop_claimed score threshold ls1 bs) as (Hids & _).
  set (st := match_loop score threshold ls1 bs) in *.
  assert (Hbest : best_candidate score threshold l (matched_bank_ids st) bs = (None, 0)).
  { apply best_candidate_none. intros b Hb Hfree. apply Hall; [exact Hb|].
    rewrite Hids in Hfree. by rewrite elem_of_list_to_set in Hfree. }
  destruct (match_loop_from score threshold bs ls2 (match_step score threshold bs st l))
    as (_ & lonly & _ & Hlo & _).
  cbv zeta in Hlo. rewrite Hlo.
  unfold match_step. rewrite Hbest. simpl.
  apply elem_of_app. left. apply elem_of_app. right. by left.
Qed.

Lemma ledger_without_candidate_is_ledger_only_witness :
  mkTransactionMatch (Some Sample.safeway_ledger) None "ledger_only" (Some 0)
    ∈ ledger_only_of (greedy_match _calculate_match_confidence 0.7
                        ([Sample.safeway_ledger_other_category]
                         ++ Sample.safeway_ledger :: [])
                        [Sample.safeway_bank; Sample.bank 3 9 None None]).
Proof.
  apply (ledger_without_candidate_is_ledger_only _calculate_match_confidence 0.7
           [Sample.safeway_ledger_other_category] Sample.safeway_ledger []
           [Sample.safeway_bank; Sample.bank 3 9 None None]).
  intros b Hb Hfree. apply elem_of_cons in Hb as [->|Hb].
  - exfalso. apply Hfree. vm_compute. by left.
  - apply list_elem_of_singleton in Hb. subst b. vm_compute. discriminate.
Defined.

(* ================================================================== *)
(** * Further properties of the duplicate grouper *)
(* ================================================================== *)

(** A record whose key is in the dictionary joins the group of that key. *)
Lemma group_append_found key tx (g1 : list (string * list BankTransaction)) v g2 :
  key ∉ map fst g1 ->
  group_append key tx (g1 ++ (key, v) :: g2) = g1 ++ (key, v ++ [tx]) :: g2.
Proof.
  induction g1 as [|[k w] g1 IH]; intros Hfresh; simpl.
  - by rewrite String.eqb_refl.
  - simpl in Hfresh. apply not_elem_of_cons in Hfresh as [Hne Hfresh].
    destruct (String.eqb k key) eqn:E.
    + apply String.eqb_eq in E. congruence.
    + by rewrite IH.
Qed.

Lemma with_key_snoc k p tx :
  with_key k (p ++ [tx])
  = with_key k p ++ (if String.eqb (group_key tx) k then [tx] else []).
Proof. unfold with_key. by rewrite List.filter_app. Qed.

Lemma grouped_nil : grouped [] [].
Proof.
  split; [constructor|]. intros k g. split.
  - intros H. by apply elem_of_nil in H.
  - intros [-> H]. by destruct H.
Qed.

Lemma in_first_split (k : string) (groups : list (string * list BankTransaction)) :
  k ∈ map fst groups ->
  exists g1 v g2, groups = g1 ++ (k, v) :: g2 /\ k ∉ map fst g1.
Proof.
  induction groups as [|[k' w] groups IH]; intros Hin; simpl in Hin.
  - by apply elem_of_nil in Hin.
  - destruct (String.eqb k' k) eqn:E.
    + apply String.eqb_eq in E. subst k'. exists [], w, groups. split; [reflexivity|].
      apply not_elem_of_nil.
    + apply String.eqb_neq in E. apply elem_of_cons in Hin as [Hin|Hin]; [congruence|].
      destruct (IH Hin) as (g1 & v & g2 & -> & Hfresh).
      exists ((k', w) :: g1), v, g2. split; [reflexivity|].
      simpl. apply not_elem_of_cons. split; [congruence | exact Hfresh].
Qed.

Lemma grouped_step p groups tx :
  grouped p groups ->
  grouped (p ++ [tx]) (group_append (group_key tx) tx groups).
Proof.
  intros [Hnd Hiff]. set (key := group_key tx).
  destruct (decide (key ∈ map fst groups)) as [Hin|Hfresh].
  - destruct (in_first_split key groups Hin) as (g1 & v & g2 & -> & Hfresh).
    rewrite group_append_found by exact Hfresh.
    assert (Hv : v = with_key key p /\ v <> []).
    { apply Hiff. apply elem_of_app. right. by left. }
    split.
    + rewrite map_app in *. exact Hnd.
    + intros k g. rewrite with_key_snoc. fold key.
      rewrite map_app in Hnd. simpl in Hnd.
      apply NoDup_app in Hnd as (Hnd1 & Hdisj & Hnd2).
      apply NoDup_cons in Hnd2 as [Hnotin2 Hnd2].
      destruct (String.eqb key k) eqn:E.
      * apply String.eqb_eq in E. subst k. split.
        -- intros Hmem. apply elem_of_app in Hmem as [Hmem|Hmem].
           ++ exfalso. apply Hfresh. apply list_elem_of_fmap. by exists (key, g).
           ++ apply elem_of_cons in Hmem as [Heq|Hmem].
              ** inversion Heq; subst. destruct Hv as [-> _].
                 split; [reflexivity|]. by destruct (with_key key p).
              ** exfalso. apply Hnotin2. apply list_elem_of_fmap. by exists (key, g).
        -- intros [-> _]. apply elem_of_app. right.
           destruct Hv as [<- _]. by left.
      * rewrite app_nil_r. apply String.eqb_neq in E. rewrite <- Hiff. split.
        -- intros Hmem. apply elem_of_app in Hmem as [Hmem|Hmem].
           ++ apply elem_of_app. by left.
           ++ apply elem_of_cons in Hmem as [Heq|Hmem]; [congruence|].
              apply elem_of_app. right. by right.
        -- intros Hmem. apply elem_of_app in Hmem as [Hmem|Hmem].
           ++ apply elem_of_app. by left.
           ++ apply elem_of_cons in Hmem as [Heq|Hmem]; [congruence|].
              apply elem_of_app. right. by right.
  - rewrite group_append_fresh by exact Hfresh.
    assert (Hnone : with_key key p = []).
    { destruct (with_key key p) as [|x xs] eqn:E; [reflexivity|].
      exfalso. apply Hfresh. apply list_elem_of_fmap.
      exists (key, x :: xs). split; [reflexivity|]. apply Hiff. by rewrite E. }
    split.
    + rewrite map_app. simpl. apply NoDup_app. split; [exact Hnd|]. split.
      * intros k Hk Hk'. apply list_elem_of_singleton in Hk'. subst k. contradiction.
      * apply NoDup_singleton.
    + intros k g. rewrite with_key_snoc. fold key.
      destruct (String.eqb key k) eqn:E.
      * apply String.eqb_eq in E. subst k. rewrite Hnone. simpl. split.
        -- intros Hmem. apply elem_of_app in Hmem as [Hmem|Hmem].
           ++ exfalso. apply Hfresh. apply list_elem_of_fmap. by exists (key, g).
           ++ apply list_elem_of_singleton in Hmem. inversion Hmem. by split.
        -- intros [-> _]. apply elem_of_app. right. by left.
      * rewrite app_nil_r. apply String.eqb_neq in E. rewrite <- Hiff. split.
        -- intros Hmem. apply elem_of_app in Hmem as [Hmem|Hmem]; [exact Hmem|].
           apply list_elem_of_singleton in Hmem. congruence.
        -- intros Hmem. apply elem_of_app. by left.
Qed.

Lemma grouped_fold txs : forall p groups,
  grouped p groups ->
  grouped (p ++ txs)
    (fold_left (fun groups tx => group_append (group_key tx) tx groups) txs groups).
Proof.
  induction txs as [|tx txs IH]; intros p groups H; simpl.
  - by rewrite app_nil_r.
  - replace (p ++ tx :: txs) with ((p ++ [tx]) ++ txs) by by rewrite <- app_assoc.
    apply IH. by apply grouped_step.
Qed.

Lemma candidate_groups_characterized (transactions : list BankTransaction) :
  NoDup (map fst (_group_potential_duplicates transactions)) /\
  forall k g,
    (k, g) ∈ _group_potential_duplicates transactions
    <-> g = with_key k transactions /\ (2 <= length g)%nat.
Proof.
  unfold _group_potential_duplicates.
  pose proof (grouped_fold transactions [] [] grouped_nil) as [Hnd Hiff].
  simpl in Hnd, Hiff.
  set (groups := fold_left _ transactions []) in *.
  split.
  - clear Hiff. induction groups as [|[k v] groups IH]; [constructor|].
    simpl in Hnd. apply NoDup_cons in Hnd as [Hnotin Hnd].
    simpl. destruct (1 <? length v)%nat; [|by apply IH].
    simpl. apply NoDup_cons. split; [|by apply IH].
    intros Hin. apply Hnotin. apply list_elem_of_fmap in Hin as ([k' v'] & -> & Hin).
    apply list_elem_of_In, List.filter_In in Hin as [Hin _].
    apply list_elem_of_fmap. exists (k', v'). split; [reflexivity|].
    by apply list_elem_of_In.
  - intros k g. rewrite list_elem_of_In, List.filter_In, <- list_elem_of_In, Hiff.
    simpl. rewrite Nat.ltb_lt. split.
    + intros [[-> _] Hlen]. split; [reflexivity | lia].
    + intros [-> Hlen]. split; [split; [reflexivity|] | lia].
      intros H0. rewrite H0 in Hlen. simpl in Hlen. lia.
Qed.

(** X7.  The candidate groups are exactly the lists of all records sharing
    one grouping key, in input order, for the keys held by at least two
    records; no key has two groups. *)
Theorem candidate_groups_are_the_shared_keys (transactions : list BankTransaction) :
  NoDup (map fst (_group_potential_duplicates transactions)) /\
  forall k g,
    (k, g) ∈ _group_potential_duplicates transactions
    <-> g = with_key k transactions /\ (2 <= length g)%nat.
Proof. apply candidate_groups_characterized. Qed.

(* ================================================================== *)
(** * Further properties of the duplicate pass *)
(* ================================================================== *)

Lemma filter_elem {A} (p : A -> bool) (l : list A) (x : A) :
  x ∈ List.filter p l <-> x ∈ l /\ p x = true.
Proof. rewrite !list_elem_of_In. apply List.filter_In. Qed.

Lemma NoDup_filter_map {A B} (f : A -> B) (p : A -> bool) (l : list A) :
  NoDup (map f l) -> NoDup (map f (List.filter p l)).
Proof.
  induction l as [|x l IH]; intros Hnd; [constructor|].
  simpl in Hnd. apply NoDup_cons in Hnd as [Hnotin Hnd].
  simpl. destruct (p x); [|by apply IH].
  simpl. apply NoDup_cons. split; [|by apply IH].
  intros Hin. apply Hnotin. apply list_elem_of_fmap in Hin as (y & -> & Hy).
  apply filter_elem in Hy as [Hy _]. apply list_elem_of_fmap. by exists y.
Qed.

Lemma NoDup_map_inj {A B} (f : A -> B) (l : list A) (x y : A) :
  NoDup (map f l) -> x ∈ l -> y ∈ l -> f x = f y -> x = y.
Proof.
  induction l as [|z l IH]; intros Hnd Hx Hy Heq; [by apply elem_of_nil in Hx|].
  simpl in Hnd. apply NoDup_cons in Hnd as [Hnotin Hnd].
  apply elem_of_cons in Hx as [->|Hx]; apply elem_of_cons in Hy as [->|Hy]; auto.
  - exfalso. apply Hnotin. rewrite Heq. apply list_elem_of_fmap. by exists y.
  - exfalso. apply Hnotin. rewrite <- Heq. apply list_elem_of_fmap. by exists x.
Qed.

Lemma NoDup_of_map {A B} (f : A -> B) (l : list A) : NoDup (map f l) -> NoDup l.
Proof.
  induction l as [|x l IH]; intros Hnd; [constructor|].
  simpl in Hnd. apply NoDup_cons in Hnd as [Hnotin Hnd].
  apply NoDup_cons. split; [|by apply IH].
  intros Hin. apply Hnotin. apply list_elem_of_fmap. by exists x.
Qed.

Lemma NoDup_list_filter {A} (p : A -> bool) (l : list A) : NoDup l -> NoDup (List.filter p l).
Proof.
  induction l as [|x l IH]; intros Hnd; [constructor|].
  apply NoDup_cons in Hnd as [Hnotin Hnd].
  simpl. destruct (p x); [|by apply IH].
  apply NoDup_cons. split; [|by apply IH].
  intros Hin. apply Hnotin. by apply filter_elem in Hin as [Hin _].
Qed.

Lemma filter_keeps_all {A} (p : A -> bool) (l : list A) :
  (forall x, x ∈ l -> p x = true) -> List.filter p l = l.
Proof.
  induction l as [|x l IH]; intros Hall; [reflexivity|].
  simpl. rewrite (Hall x) by by left. f_equal. apply IH. intros y Hy. apply Hall. by right.
Qed.

Lemma filter_swap {A} (p q : A -> bool) (l : list A) :
  List.filter p (List.filter q l) = List.filter q (List.filter p l).
Proof.
  induction l as [|x l IH]; [reflexivity|].
  simpl. destruct (q x) eqn:Eq, (p x) eqn:Ep; simpl; rewrite ?Eq, ?Ep, IH; reflexivity.
Qed.

(** Deleting a row that is in the table removes exactly that row. *)
Lemma delete_present_row (rows : list BankTransaction) (tx : BankTransaction) :
  NoDup (map bank_id rows) -> tx ∈ rows ->
  S (length (List.filter (fun row => negb (bank_id row =? bank_id tx)%Z) rows))
  = length rows.
Proof.
  induction rows as [|r rows IH]; intros Hnd Hin; [by apply elem_of_nil in Hin|].
  simpl in Hnd. apply NoDup_cons in Hnd as [Hnotin Hnd].
  simpl. destruct (bank_id r =? bank_id tx)%Z eqn:E; simpl.
  - apply Z.eqb_eq in E. f_equal. f_equal. apply filter_keeps_all.
    intros x Hx. apply negb_true_iff, Z.eqb_neq. intros Heq.
    apply Hnotin. rewrite E, <- Heq. apply list_elem_of_fmap. by exists x.
  - f_equal. apply IH; [exact Hnd|].
    apply elem_of_cons in Hin as [->|Hin]; [|exact Hin].
    by rewrite Z.eqb_refl in E.
Qed.

Lemma db_delete_primary_key db tx :
  primary_key_ok db -> primary_key_ok (db_delete db tx).
Proof.
  intros [Hnd Hlt]. split; simpl.
  - by apply NoDup_filter_map.
  - apply Forall_forall. intros r Hr. apply filter_elem in Hr as [Hr _].
    rewrite Forall_forall in Hlt. by apply Hlt.
Qed.

Lemma db_add_primary_key db data :
  primary_key_ok db -> primary_key_ok (db_add db data).2.
Proof.
  intros [Hnd Hlt]. rewrite Forall_forall in Hlt. split; simpl.
  - rewrite map_app. simpl. apply NoDup_app. split; [exact Hnd|]. split.
    + intros i Hi Hi'. apply list_elem_of_singleton in Hi'. subst i.
      apply list_elem_of_fmap in Hi as (r & Heq & Hr).
      specialize (Hlt r Hr). lia.
    + apply NoDup_singleton.
  - apply Forall_forall. intros r Hr. apply elem_of_app in Hr as [Hr|Hr].
    + specialize (Hlt r Hr). lia.
    + apply list_elem_of_singleton in Hr. subst r. simpl. lia.
Qed.

(** Deleting rows of [user_id] leaves the rows of the other users as they
    are. *)
Lemma db_delete_other_users user_id db tx :
  primary_key_ok db -> tx ∈ bank_rows db -> bank_user_id tx = user_id ->
  other_users_rows user_id (db_delete db tx) = other_users_rows user_id db.
Proof.
  intros [Hnd _] Hin Huser. unfold other_users_rows. simpl.
  rewrite filter_swap. apply filter_keeps_all.
  intros r Hr. apply filter_elem in Hr as [Hr Hother].
  apply negb_true_iff, Z.eqb_neq. intros Heq.
  assert (r = tx) by (eapply NoDup_map_inj; eauto). subst r.
  rewrite Huser, Z.eqb_refl in Hother. discriminate.
Qed.

(** Deleting the members of one group: as many rows go as the group has
    members. *)
Lemma delete_group user_id (ms : list BankTransaction) : forall db,
  primary_key_ok db ->
  (forall tx, tx ∈ ms -> tx ∈ bank_rows db /\ bank_user_id tx = user_id) ->
  NoDup (map bank_id ms) ->
  let db' := fold_left db_delete ms db in
  primary_key_ok db' /\
  next_bank_id db' = next_bank_id db /\
  (length (bank_rows db') + length ms = length (bank_rows db))%nat /\
  other_users_rows user_id db' = other_users_rows user_id db /\
  (forall r, r ∈ bank_rows db' <-> r ∈ bank_rows db /\ bank_id r ∉ map bank_id ms).
Proof.
  induction ms as [|m ms IH]; intros db Hpk Hin Hnd; cbv zeta.
  - simpl. split; [exact Hpk|]. split; [reflexivity|]. split; [lia|].
    split; [reflexivity|].
    intros r. split.
    + intros Hr. split; [exact Hr | apply not_elem_of_nil].
    + intros [Hr _]. exact Hr.
  - simpl in Hnd. apply NoDup_cons in Hnd as [Hnotin Hnd].
    destruct (Hin m) as [Hm Hmu]; [by left|].
    simpl fold_left.
    assert (Hin' : forall tx, tx ∈ ms ->
                     tx ∈ bank_rows (db_delete db m) /\ bank_user_id tx = user_id).
    { intros tx Htx. destruct (Hin tx) as [Ht Hu]; [by right|]. split; [|exact Hu].
      simpl. apply filter_elem. split; [exact Ht|].
      apply negb_true_iff, Z.eqb_neq. intros Heq. apply Hnotin.
      rewrite <- Heq. apply list_elem_of_fmap. by exists tx. }
    destruct (IH (db_delete db m) (db_delete_primary_key db m Hpk) Hin' Hnd)
      as (Hpk' & Hnext & Hlen & Hother & Hmem).
    cbv zeta in *.
    split; [exact Hpk'|]. split; [by rewrite Hnext|]. split.
    { pose proof (delete_present_row (bank_rows db) m (proj1 Hpk) Hm) as Hone.
      simpl in Hlen. simpl. lia. }
    split.
    { rewrite Hother. by apply db_delete_other_users. }
    intros r. rewrite Hmem. simpl.
    rewrite filter_elem, negb_true_iff, Z.eqb_neq, not_elem_of_cons. tauto.
Qed.

Lemma elem_of_concat {A} (x : A) (ls : list (list A)) :
  x ∈ concat ls <-> exists l, x ∈ l /\ l ∈ ls.
Proof.
  rewrite list_elem_of_In, List.in_concat. split.
  - intros (l & Hl & Hx). exists l. by rewrite !list_elem_of_In.
  - intros (l & Hx & Hl). exists l. by rewrite <- !list_elem_of_In.
Qed.

Lemma db_add_other_users user_id db data :
  bank_user_id data = user_id ->
  other_users_rows user_id (db_add db data).2 = other_users_rows user_id db.
Proof.
  intros Huser. unfold other_users_rows. simpl.
  rewrite List.filter_app. simpl. rewrite Huser, Z.eqb_refl. simpl.
  by rewrite app_nil_r.
Qed.

Lemma pass_invariant_skip user_id db0 g gs st :
  pass_invariant user_id db0 (g :: gs) st -> pass_invariant user_id db0 gs st.
Proof.
  destruct st as [[db summary] merged]. unfold pass_invariant. simpl.
  intros (Hpk & Hnext & Hother & Hmem & Hnd & Hrest).
  split; [exact Hpk|]. split; [exact Hnext|]. split; [exact Hother|]. split.
  - intros tx Htx. apply Hmem. apply elem_of_app. by right.
  - split; [|exact Hrest]. rewrite map_app in Hnd. by apply NoDup_app in Hnd as (_ & _ & ?).
Qed.

(** The merge is only asked for groups of two or more records and then
    never raises. *)
Lemma merge_of_group set_order db (ms : list BankTransaction) :
  (1 < length ms)%nat ->
  exists base,
    base ∈ ms /\
    _merge_duplicate_transactions set_order db ms
    = Some (db_add db (merged_data set_order base ms)).
Proof.
  destruct ms as [|base rest]; intros Hlen; [simpl in Hlen; lia|].
  exists base. split; [by left | reflexivity].
Qed.

Section DuplicatePass.

Variable set_order : list string -> list string.
Variable client : analyst.
Variable user_id : Z.

(** One turn of the loop over the groups never fails and keeps the
    invariant. *)
Lemma merge_group_step db0 g gs st :
  pass_invariant user_id db0 (g :: gs) st ->
  exists st',
    merge_group set_order client (Some st) g = Some st' /\
    pass_invariant user_id db0 gs st'.
Proof.
  intros Hinv. pose proof (pass_invariant_skip _ _ _ _ _ Hinv) as Hskip.
  destruct st as [[db summary] merged]. destruct g as [k ms].
  unfold merge_group.
  destruct (1 <? length ms)%nat eqn:Hlen; [|by eexists].
  destruct (are_duplicates (_analyze_duplicates_with_ai client ms)); [|by eexists].
  apply Nat.ltb_lt in Hlen.
  destruct (merge_of_group set_order db ms Hlen) as (base & Hbase_in & ->).
  unfold pass_invariant in Hinv. cbv beta iota in Hinv.
  change (concat (map snd ((k, ms) :: gs))) with (ms ++ concat (map snd gs)) in Hinv.
  destruct Hinv as (Hpk & Hnext & Hother & Hmem & Hnd & Hrows & Hmerged & Hlist & Hfresh).
  set (data := merged_data set_order base ms).
  assert (Hbase : bank_user_id base = user_id).
  { apply Hmem. apply elem_of_app. by left. }
  rewrite map_app in Hnd. apply NoDup_app in Hnd as (Hnd_ms & Hdisj & Hnd_gs).
  pose proof (db_add_primary_key db data Hpk) as Hpk1.
  destruct (db_add db data) as [merged_tx db1] eqn:Hadd.
  assert (Hrows1 : bank_rows db1 = bank_rows db ++ [merged_tx])
    by (unfold db_add in Hadd; by inversion Hadd).
  assert (Hnext1 : next_bank_id db1 = (next_bank_id db + 1)%Z)
    by (unfold db_add in Hadd; by inversion Hadd).
  assert (Hid : bank_id merged_tx = next_bank_id db)
    by (unfold db_add in Hadd; by inversion Hadd).
  assert (Huser : bank_user_id merged_tx = user_id)
    by (unfold db_add in Hadd; inversion Hadd; exact Hbase).
  assert (Hother1 : other_users_rows user_id db1 = other_users_rows user_id db).
  { pose proof (db_add_other_users user_id db data Hbase) as H.
    by rewrite Hadd in H. }
  simpl in Hpk1.
  destruct (delete_group user_id ms db1 Hpk1) as (Hpk2 & Hnext2 & Hlen2 & Hother2 & Hmem2).
  { intros tx Htx. destruct (Hmem tx) as [Hin Hu]; [apply elem_of_app; by left|].
    split; [|exact Hu]. rewrite Hrows1. apply elem_of_app. by left. }
  { exact Hnd_ms. }
  cbv zeta in *. eexists. split; [reflexivity|].
  unfold pass_invariant. cbv beta iota. cbn [transactions_deleted transactions_merged groups_processed].
  split; [exact Hpk2|]. split; [lia|]. split; [congruence|]. split.
  { intros tx Htx. destruct (Hmem tx) as [Hin Hu]; [apply elem_of_app; by right|].
    split; [|exact Hu]. apply Hmem2. split.
    - rewrite Hrows1. apply elem_of_app. by left.
    - intros Hin'. apply (Hdisj (bank_id tx)); [exact Hin'|].
      apply list_elem_of_fmap. by exists tx. }
  split; [exact Hnd_gs|]. split.
  { rewrite Hrows1, length_app in Hlen2. simpl in Hlen2. lia. }
  split.
  { rewrite length_app. simpl. lia. }
  split.
  { rewrite !length_app. simpl. lia. }
  apply Forall_app. split.
  - eapply Forall_impl; [exact Hfresh|]. intros tx [Hb Hu]. split; [lia | exact Hu].
  - constructor; [|constructor]. split; [lia | exact Huser].
Qed.

Lemma merge_groups_fold db0 gs : forall st,
  pass_invariant user_id db0 gs st ->
  exists st',
    fold_left (merge_group set_order client) gs (Some st) = Some st' /\
    pass_invariant user_id db0 [] st'.
Proof.
  induction gs as [|g gs IH]; intros st Hinv; [by exists st|].
  destruct (merge_group_step db0 g gs st Hinv) as (st1 & Hstep & Hinv1).
  change (fold_left (merge_group set_order client) (g :: gs) (Some st))
    with (fold_left (merge_group set_order client) gs
            (merge_group set_order client (Some st) g)).
  rewrite Hstep. by apply IH.
Qed.

Lemma query_elem db batch_id tx :
  tx ∈ query_bank_transactions db user_id batch_id ->
  tx ∈ bank_rows db /\ bank_user_id tx = user_id.
Proof.
  unfold query_bank_transactions. intros H. apply filter_elem in H as [Hin Hp].
  split; [exact Hin|]. apply andb_true_iff in Hp as [Hp _]. by apply Z.eqb_eq.
Qed.

Lemma groups_members_distinct (txs : list BankTransaction)
  (groups : list (string * list BankTransaction)) :
  NoDup txs ->
  NoDup (map fst groups) ->
  (forall k g, (k, g) ∈ groups -> g = with_key k txs) ->
  NoDup (concat (map snd groups)).
Proof.
  intros Htxs. induction groups as [|[k g] groups IH]; intros Hnd Hall; [constructor|].
  simpl in Hnd. apply NoDup_cons in Hnd as [Hnotin Hnd].
  simpl. apply NoDup_app. split; [|split].
  - rewrite (Hall k g) by by left. by apply NoDup_list_filter.
  - intros tx Htx Htx'.
    rewrite (Hall k g) in Htx by by left. apply filter_elem in Htx as [_ Hk].
    apply String.eqb_eq in Hk.
    apply elem_of_concat in Htx' as (g' & Htx' & Hg').
    apply list_elem_of_fmap in Hg' as ([k' g''] & -> & Hg').
    simpl in Htx'. rewrite (Hall k' g'') in Htx' by by right.
    apply filter_elem in Htx' as [_ Hk']. apply String.eqb_eq in Hk'.
    apply Hnotin. apply list_elem_of_fmap. exists (k', g''). split; [simpl; congruence | exact Hg'].
  - apply IH; [exact Hnd|]. intros k' g' H. apply Hall. by right.
Qed.

(** The invariant holds when the loop starts. *)
Lemma pass_invariant_initially db batch_id :
  primary_key_ok db ->
  let transactions := query_bank_transactions db user_id batch_id in
  let groups := _group_potential_duplicates transactions in
  pass_invariant user_id db groups
    (db,
     {| total_transactions := length transactions;
        duplicate_groups_found := length groups;
        transactions_merged := 0;
        transactions_deleted := 0;
        groups_processed := [] |},
     []).
Proof.
  intros Hpk. cbv zeta.
  set (transactions := query_bank_transactions db user_id batch_id).
  destruct (candidate_groups_characterized transactions) as [Hkeys Hiff].
  set (groups := _group_potential_duplicates transactions) in *.
  assert (Hsub : forall tx, tx ∈ concat (map snd groups) -> tx ∈ transactions).
  { intros tx Htx. apply elem_of_concat in Htx as (g & Htx & Hg).
    apply list_elem_of_fmap in Hg as ([k g'] & -> & Hg).
    apply Hiff in Hg as [-> _]. simpl in Htx. by apply filter_elem in Htx as [? _]. }
  assert (Hndq : NoDup (map bank_id transactions)).
  { apply NoDup_filter_map. apply Hpk. }
  unfold pass_invariant. simpl.
  split; [exact Hpk|]. split; [lia|]. split; [reflexivity|]. split.
  { intros tx Htx. by apply (query_elem db batch_id), Hsub. }
  split.
  { apply NoDup_fmap_2_strong.
    - intros x y Hx Hy Heq. apply (NoDup_map_inj bank_id transactions); auto.
    - apply (groups_members_distinct transactions).
      + by apply (NoDup_of_map bank_id).
      + exact Hkeys.
      + intros k g Hg. by apply Hiff in Hg as [-> _]. }
  split; [lia|]. split; [reflexivity|]. split; [reflexivity|]. constructor.
Qed.

(** The pass as a whole. *)
Lemma detect_and_merge_invariant db batch_id :
  primary_key_ok db ->
  exists st',
    detect_and_merge_duplicates set_order client db user_id batch_id = Some st' /\
    pass_invariant user_id db [] st'.
Proof.
  intros Hpk. unfold detect_and_merge_duplicates. cbv zeta.
  apply merge_groups_fold. by apply pass_invariant_initially.
Qed.

End DuplicatePass.

(** X8.  The duplicate pass never fails: the merge, which raises on an
    empty list, is only reached with groups of two or more records. *)
Theorem duplicate_pass_never_fails
  (set_order : list string -> list string) (client : analyst)
  (db : Database) (user_id : Z) (batch_id : option string) :
  exists db' summary merged_transactions,
    detect_and_merge_duplicates set_order client db user_id batch_id
    = Some (db', summary, merged_transactions).
Proof.
  unfold detect_and_merge_duplicates. cbv zeta.
  generalize (_group_potential_duplicates (query_bank_transactions db user_id batch_id)).
  intros gs.
  match goal with |- context [Some ?s] => generalize s end.
  induction gs as [|[k ms] gs IH]; intros [[db0 s0] m0].
  - by exists db0, s0, m0.
  - change (fold_left (merge_group set_order client) ((k, ms) :: gs) (Some (db0, s0, m0)))
      with (fold_left (merge_group set_order client) gs
              (merge_group set_order client (Some (db0, s0, m0)) (k, ms))).
    unfold merge_group.
    destruct (1 <? length ms)%nat eqn:Hlen; [|apply IH].
    destruct (are_duplicates _); [|apply IH].
    apply Nat.ltb_lt in Hlen.
    destruct (merge_of_group set_order db0 ms Hlen) as (base & _ & ->).
    destruct (db_add db0 (merged_data set_order base ms)) as [merged_tx db1].
    apply IH.
Qed.

(** X9.  The duplicate pass keeps the primary key of the bank table: ids
    stay pairwise distinct, and every merged record gets an id that was
    never used before and belongs to the user of the pass. *)
Theorem duplicate_pass_keeps_primary_key
  (set_order : list string -> list string) (client : analyst)
  (db : Database) (user_id : Z) (batch_id : option string) :
  primary_key_ok db ->
  exists db' summary merged_transactions,
    detect_and_merge_duplicates set_order client db user_id batch_id
    = Some (db', summary, merged_transactions) /\
    primary_key_ok db' /\
    Forall (fun tx => (next_bank_id db <= bank_id tx < next_bank_id db')%Z /\
                      bank_user_id tx = user_id)
           merged_transactions.
Proof.
  intros Hpk.
  destruct (detect_and_merge_invariant set_order client user_id db batch_id Hpk)
    as ([[db' summary] merged] & Hrun & Hinv).
  exists db', summary, merged. split; [exact Hrun|].
  unfold pass_invariant in Hinv. cbv beta iota in Hinv.
  destruct Hinv as (Hpk' & _ & _ & _ & _ & _ & _ & _ & Hfresh). by split.
Qed.

Lemma duplicate_pass_keeps_primary_key_witness :
  exists db' summary merged_transactions,
    detect_and_merge_duplicates Sample.first_seen Sample.unreachable_analyst
      Sample.statement 1 None
    = Some (db', summary, merged_transactions) /\
    primary_key_ok db' /\
    Forall (fun tx => (next_bank_id Sample.statement <= bank_id tx < next_bank_id db')%Z /\
                      bank_user_id tx = 1%Z)
           merged_transactions.
Proof.
  apply (duplicate_pass_keeps_primary_key Sample.first_seen Sample.unreachable_analyst
           Sample.statement 1 None).
  split.
  - apply (bool_decide_unpack _). vm_compute. reflexivity.
  - repeat constructor.
Defined.

(** X10.  The duplicate pass for one user leaves the rows of every other
    user as they are. *)
Theorem duplicate_pass_leaves_other_users_alone
  (set_order : list string -> list string) (client : analyst)
  (db : Database) (user_id : Z) (batch_id : option string) :
  primary_key_ok db ->
  exists db' summary merged_transactions,
    detect_and_merge_duplicates set_order client db user_id batch_id
    = Some (db', summary, merged_transactions) /\
    other_users_rows user_id db' = other_users_rows user_id db.
Proof.
  intros Hpk.
  destruct (detect_and_merge_invariant set_order client user_id db batch_id Hpk)
    as ([[db' summary] merged] & Hrun & Hinv).
  exists db', summary, merged. split; [exact Hrun|].
  unfold pass_invariant in Hinv. cbv beta iota in Hinv.
  by destruct Hinv as (_ & _ & Hother & _).
Qed.

Lemma duplicate_pass_leaves_other_users_alone_witness :
  exists db' summary merged_transactions,
    detect_and_merge_duplicates Sample.first_seen Sample.unreachable_analyst
      SampleMore.shared_statement 1 None
    = Some (db', summary, merged_transactions) /\
    other_users_rows 1 db' = other_users_rows 1 SampleMore.shared_statement.
Proof.
  apply (duplicate_pass_leaves_other_users_alone Sample.first_seen
           Sample.unreachable_analyst SampleMore.shared_statement 1 None).
  split.
  - apply (bool_decide_unpack _). vm_compute. reflexivity.
  - repeat constructor.
Defined.

(** X11.  The summary of the duplicate pass accounts for the table: the
    number of rows drops by exactly [transactions_deleted],
    [transactions_merged] exceeds [transactions_deleted] by one per
    processed group, and there is one merged record per processed
    group. *)
Theorem duplicate_pass_summary_accounts_for_the_table
  (set_order : list string -> list string) (client : analyst)
  (db : Database) (user_id : Z) (batch_id : option string) :
  primary_key_ok db ->
  exists db' summary merged_transactions,
    detect_and_merge_duplicates set_order client db user_id batch_id
    = Some (db', summary, merged_transactions) /\
    (length (bank_rows db') + transactions_deleted summary = length (bank_rows db))%nat /\
    transactions_merged summary
    = (transactions_deleted summary + length (groups_processed summary))%nat /\
    length merged_transactions = length (groups_processed summary).
Proof.
  intros Hpk.
  destruct (detect_and_merge_invariant set_order client user_id db batch_id Hpk)
    as ([[db' summary] merged] & Hrun & Hinv).
  exists db', summary, merged. split; [exact Hrun|].
  unfold pass_invariant in Hinv. cbv beta iota in Hinv.
  by destruct Hinv as (_ & _ & _ & _ & _ & Hrows & Hmerged & Hlist & _).
Qed.

Lemma duplicate_pass_summary_accounts_for_the_table_witness :
  exists db' summary merged_transactions,
    detect_and_merge_duplicates Sample.first_seen Sample.unreachable_analyst
      Sample.statement 1 None
    = Some (db', summary, merged_transactions) /\
    (length (bank_rows db') + transactions_deleted summary
     = length (bank_rows Sample.statement))%nat /\
    transactions_merged summary
    = (transactions_deleted summary + length (groups_processed summary))%nat /\
    length merged_transactions = length (groups_processed summary).
Proof.
  apply (duplicate_pass_summary_accounts_for_the_table Sample.first_seen
           Sample.unreachable_analyst Sample.statement 1 None).
  split.
  - apply (bool_decide_unpack _). vm_compute. reflexivity.
  - repeat constructor.
Defined.

(* ================================================================== *)
(** * Comparison reports *)
(* ================================================================== *)

Lemma percentage_bounds (matched_count total : nat) :
  (matched_count * 2 <= total)%nat ->
  0 <= percentage matched_count total <= 100.
Proof.
  intros Hle. unfold percentage.
  destruct (0 <? total)%nat eqn:E; [|lra].
  apply Nat.ltb_lt in E.
  set (a := inject_Z (Z.of_nat (matched_count * 2))).
  set (b := inject_Z (Z.of_nat total)).
  assert (Ha : 0 <= a).
  { unfold a. rewrite <- (Zle_Qle 0). lia. }
  assert (Hb : 0 < b).
  { unfold b. rewrite <- (Zlt_Qlt 0). lia. }
  assert (Hab : a <= b).
  { unfold a, b. rewrite <- Zle_Qle. lia. }
  assert (H0 : 0 <= a / b).
  { apply Qle_shift_div_l; [exact Hb | lra]. }
  assert (H1 : a / b <= 1).
  { apply Qle_shift_div_r; [exact Hb | lra]. }
  lra.
Qed.

Lemma summarize_consistent ls bs r dup :
  (length (matched_of r) + length (ledger_only_of r) = length ls)%nat ->
  (length (matched_of r) + length (bank_only_of r) = length bs)%nat ->
  let s := summary (summarize ls bs r dup) in
  total_ledger s = length ls /\ total_bank s = length bs /\
  (matched_count s + ledger_only_count s = total_ledger s)%nat /\
  (matched_count s + bank_only_count s = total_bank s)%nat /\
  0 <= match_percentage s <= 100.
Proof.
  destruct r as [[m lo] bo]. unfold matched_of, ledger_only_of, bank_only_of. simpl.
  intros H1 H2. repeat split; auto; apply percentage_bounds; lia.
Qed.

(** X12.  The summary of [compare_transactions] is consistent: the matched
    and ledger-only counts add up to the number of ledger records of the
    user, the matched and bank-only counts to the number of bank records,
    and the match percentage lies between 0 and 100. *)
Theorem comparison_summary_is_consistent
  (ledger_rows : list Transaction) (db : Database) (user_id : Z) :
  NoDup (map bank_id (bank_rows db)) ->
  let s := summary (compare_transactions ledger_rows db user_id) in
  total_ledger s = length (query_transactions ledger_rows user_id) /\
  total_bank s = length (query_bank_transactions db user_id None) /\
  (matched_count s + ledger_only_count s = total_ledger s)%nat /\
  (matched_count s + bank_only_count s = total_bank s)%nat /\
  0 <= match_percentage s <= 100.
Proof.
  intros Hnd. unfold compare_transactions. cbv zeta.
  destruct (greedy_partition _calculate_match_confidence 0.7
              (query_transactions ledger_rows user_id)
              (query_bank_transactions db user_id None)) as [H1 H2].
  { unfold query_bank_transactions. by apply NoDup_filter_map. }
  by apply summarize_consistent.
Qed.

Lemma comparison_summary_is_consistent_witness :
  let s := summary (compare_transactions
                      [Sample.safeway_ledger; Sample.bare_ledger]
                      (mkDatabase [Sample.safeway_bank; Sample.safeway_bank_again] 3) 1) in
  total_ledger s = length (query_transactions [Sample.safeway_ledger; Sample.bare_ledger] 1) /\
  total_bank s = length (query_bank_transactions
                           (mkDatabase [Sample.safeway_bank; Sample.safeway_bank_again] 3)
                           1 None) /\
  (matched_count s + ledger_only_count s = total_ledger s)%nat /\
  (matched_count s + bank_only_count s = total_bank s)%nat /\
  0 <= match_percentage s <= 100.
Proof.
  apply (comparison_summary_is_consistent
           [Sample.safeway_ledger; Sample.bare_ledger]
           (mkDatabase [Sample.safeway_bank; Sample.safeway_bank_again] 3) 1).
  apply (bool_decide_unpack _). vm_compute. reflexivity.
Defined.

(** X13.  [improved_match_transactions] never fails on a table with a
    sound primary key; its summary is consistent with the bank records
    that are left after the duplicate pass, and it reports the
    [transactions_merged] of that pass. *)
Theorem improved_comparison_summary_is_consistent
  (set_order : list string -> list string) (duplicate_client : analyst)
  (match_client : verifier) (ledger_rows : list Transaction)
  (db : Database) (user_id : Z) :
  primary_key_ok db ->
  exists result db' duplicate_summary merged_transactions,
    improved_match_transactions set_order duplicate_client match_client
      ledger_rows db user_id = Some (result, db') /\
    detect_and_merge_duplicates set_order duplicate_client db user_id None
    = Some (db', duplicate_summary, merged_transactions) /\
    let s := summary result in
    duplicates_merged s = Some (transactions_merged duplicate_summary) /\
    total_ledger s = length (query_transactions ledger_rows user_id) /\
    total_bank s = length (query_bank_transactions db' user_id None) /\
    (matched_count s + ledger_only_count s = total_ledger s)%nat /\
    (matched_count s + bank_only_count s = total_bank s)%nat /\
    0 <= match_percentage s <= 100.
Proof.
  intros Hpk.
  destruct (detect_and_merge_invariant set_order duplicate_client user_id db None Hpk)
    as ([[db' ds] ms] & Hrun & Hinv).
  unfold pass_invariant in Hinv. cbv beta iota in Hinv. destruct Hinv as (Hpk' & _).
  unfold improved_match_transactions. rewrite Hrun.
  eexists. exists db', ds, ms. split; [reflexivity|]. split; [reflexivity|].
  cbv zeta.
  destruct (greedy_partition (_ai_calculate_match_confidence match_client) 0.6
              (query_transactions ledger_rows user_id)
              (query_bank_transactions db' user_id None)) as [H1 H2].
  { unfold query_bank_transactions. apply NoDup_filter_map. apply Hpk'. }
  split.
  { by destruct (_ai_enhanced_match_transactions _ _ _) as [[? ?] ?]. }
  by apply summarize_consistent.
Qed.

Lemma improved_comparison_summary_is_consistent_witness :
  exists result db' duplicate_summary merged_transactions,
    improved_match_transactions Sample.first_seen Sample.unreachable_analyst
      Sample.unreachable_verifier [Sample.safeway_ledger] Sample.statement 1
    = Some (result, db') /\
    detect_and_merge_duplicates Sample.first_seen Sample.unreachable_analyst
      Sample.statement 1 None
    = Some (db', duplicate_summary, merged_transactions) /\
    let s := summary result in
    duplicates_merged s = Some (transactions_merged duplicate_summary) /\
    total_ledger s = length (query_transactions [Sample.safeway_ledger] 1) /\
    total_bank s = length (query_bank_transactions db' 1 None) /\
    (matched_count s + ledger_only_count s = total_ledger s)%nat /\
    (matched_count s + bank_only_count s = total_bank s)%nat /\
    0 <= match_percentage s <= 100.
Proof.
  apply (improved_comparison_summary_is_consistent Sample.first_seen
           Sample.unreachable_analyst Sample.unreachable_verifier
           [Sample.safeway_ledger] Sample.statement 1).
  split.
  - apply (bool_decide_unpack _). vm_compute. reflexivity.
  - repeat constructor.
Defined.

(* ================================================================== *)
(** * Further properties of the similarity and of the fallback *)
(* ================================================================== *)

Lemma similarity_sym (str1 str2 : string) :
  _calculate_string_similarity str1 str2 = _calculate_string_similarity str2 str1.
Proof.
  unfold _calculate_string_similarity.
  rewrite (orb_comm (negb (PyStr.truthy str1))).
  destruct (negb (PyStr.truthy str2) || negb (PyStr.truthy str1)); [reflexivity|].
  cbv zeta.
  set (w1 := list_to_set (PyStr.split str1) : gset string).
  set (w2 := list_to_set (PyStr.split str2) : gset string).
  rewrite (orb_comm (bool_decide (w1 = ∅))).
  assert (Hi : w1 ∩ w2 = w2 ∩ w1).
  { apply leibniz_equiv. intros x. rewrite !elem_of_intersection. tauto. }
  assert (Hu : w1 ∪ w2 = w2 ∪ w1).
  { apply leibniz_equiv. intros x. rewrite !elem_of_union. tauto. }
  by rewrite Hi, Hu.
Qed.

(** X14.  The word-overlap similarity does not depend on the order of its
    two arguments. *)
Theorem string_similarity_is_symmetric (str1 str2 : string) :
  _calculate_string_similarity str1 str2 = _calculate_string_similarity str2 str1.
Proof. apply similarity_sym. Qed.

Lemma word_set_empty (l : list string) :
  (list_to_set l : gset string) = ∅ <-> l = [].
Proof.
  split; [|intros ->; reflexivity].
  destruct l as [|x l]; [reflexivity|]. simpl. intros H.
  assert (Hx : x ∈ ({[x]} ∪ list_to_set l : gset string))
    by (apply elem_of_union; left; by apply elem_of_singleton).
  rewrite H in Hx. by apply not_elem_of_empty in Hx.
Qed.

Lemma nat_ratio_one (a b : nat) :
  (0 < b)%nat -> (Z.of_nat a # Pos.of_nat b) == 1 <-> a = b.
Proof.
  intros Hb. unfold Qeq. simpl. rewrite Z.mul_1_r, Z.mul_1_l.
  destruct b as [|b]; [lia|].
  rewrite <- Pos.of_nat_succ, Zpos_P_of_succ_nat. lia.
Qed.

(** X15.  The similarity is 1 exactly when the two strings have the same
    words and at least one: order, repetition and spacing of the words
    play no role. *)
Theorem string_similarity_is_one_for_equal_word_sets (str1 str2 : string) :
  _calculate_string_similarity str1 str2 == 1
  <-> PyStr.split str1 <> [] /\
      (forall w, w ∈ PyStr.split str1 <-> w ∈ PyStr.split str2).
Proof.
  unfold _calculate_string_similarity.
  set (w1 := list_to_set (PyStr.split str1) : gset string).
  set (w2 := list_to_set (PyStr.split str2) : gset string).
  assert (Hw1 : w1 = ∅ <-> PyStr.split str1 = []).
  { apply word_set_empty. }
  assert (Hw2 : w2 = ∅ <-> PyStr.split str2 = []).
  { apply word_set_empty. }
  assert (Hsame : w1 = w2 <-> (forall w, w ∈ PyStr.split str1 <-> w ∈ PyStr.split str2)).
  { unfold w1, w2. split.
    - intros H w. rewrite <- !(elem_of_list_to_set (C := gset string)). by rewrite H.
    - intros H. apply leibniz_equiv. intros w. rewrite !elem_of_list_to_set. apply H. }
  split.
  - intros Hsim.
    destruct (negb (PyStr.truthy str1) || negb (PyStr.truthy str2));
      [exfalso; revert Hsim; unfold Qeq; simpl; lia|].
    cbv zeta in Hsim.
    destruct (bool_decide (w1 = ∅)) eqn:E1;
      [exfalso; revert Hsim; unfold Qeq; simpl; lia|].
    destruct (bool_decide (w2 = ∅)) eqn:E2;
      [exfalso; revert Hsim; unfold Qeq; simpl; lia|].
    simpl in Hsim.
    destruct (bool_decide (w1 ∪ w2 = ∅)) eqn:E3;
      [exfalso; revert Hsim; unfold Qeq; simpl; lia|].
    apply bool_decide_eq_false in E1, E3.
    split; [by rewrite <- Hw1|]. apply Hsame.
    assert (Hpos : (0 < size (w1 ∪ w2))%nat).
    { destruct (size (w1 ∪ w2)) eqn:Hs; [|lia].
      apply size_empty_inv in Hs. exfalso. apply E3. by apply leibniz_equiv. }
    apply nat_ratio_one in Hsim; [|exact Hpos].
    assert (Heq : w1 ∩ w2 = w1 ∪ w2).
    { apply set_subseteq_size_eq; [|lia].
      intros x Hx. apply elem_of_intersection in Hx as [Hx _].
      apply elem_of_union. by left. }
    apply leibniz_equiv. intros x. split; intros Hx.
    + assert (Hu : x ∈ w1 ∪ w2) by (apply elem_of_union; by left).
      rewrite <- Heq in Hu. by apply elem_of_intersection in Hu as [_ ?].
    + assert (Hu : x ∈ w1 ∪ w2) by (apply elem_of_union; by right).
      rewrite <- Heq in Hu. by apply elem_of_intersection in Hu as [? _].
  - intros [Hne Hall]. apply Hsame in Hall.
    assert (Hne2 : PyStr.split str2 <> []).
    { rewrite <- Hw2, <- Hall, Hw1. exact Hne. }
    rewrite (PyStrFacts.split_truthy _ Hne), (PyStrFacts.split_truthy _ Hne2). simpl.
    rewrite <- Hall.
    assert (Hne' : w1 <> ∅) by (by rewrite Hw1).
    rewrite (bool_decide_eq_false_2 _ Hne'). simpl.
    rewrite (union_idemp_L w1), (intersection_idemp_L w1).
    rewrite (bool_decide_eq_false_2 _ Hne').
    apply nat_ratio_one; [|reflexivity].
    destruct (size w1) eqn:Hs; [|lia].
    apply size_empty_inv in Hs. exfalso. apply Hne'. by apply leibniz_equiv.
Qed.

Lemma Datetime_eqb_sym (a b : Datetime.t) : Datetime.eqb a b = Datetime.eqb b a.
Proof.
  unfold Datetime.eqb.
  by rewrite (Z.eqb_sym (Datetime.year a)), (Z.eqb_sym (Datetime.month a)),
     (Z.eqb_sym (Datetime.day a)), (Z.eqb_sym (Datetime.hour a)),
     (Z.eqb_sym (Datetime.minute a)), (Z.eqb_sym (Datetime.second a)),
     (Z.eqb_sym (Datetime.microsecond a)).
Qed.

Lemma Datetime_eqb_eq (a b : Datetime.t) : Datetime.eqb a b = true <-> a = b.
Proof.
  split.
  - unfold Datetime.eqb. rewrite !andb_true_iff, !Z.eqb_eq.
    destruct a, b. simpl. intros [[[[[[-> ->] ->] ->] ->] ->] ->]. reflexivity.
  - intros ->. apply DatetimeFacts.eqb_refl.
Qed.

Lemma opt_eqb_sym {A} (eqb : A -> A -> bool) (x y : option A) :
  (forall a b, eqb a b = eqb b a) -> opt_eqb eqb x y = opt_eqb eqb y x.
Proof. intros H. destruct x, y; simpl; auto. Qed.

Lemma close_amounts_sym (a1 a2 : Q) :
  PyNum.ltb (Qabs (a1 - a2)) 0.01 = PyNum.ltb (Qabs (a2 - a1)) 0.01.
Proof.
  assert (H : Qabs (a1 - a2) == Qabs (a2 - a1)).
  { rewrite <- (Qabs_opp (a1 - a2)). apply Qabs_wd. ring. }
  destruct (PyNum.ltb (Qabs (a2 - a1)) 0.01) eqn:E.
  - apply PyNumFacts.ltb_lt. apply PyNumFacts.ltb_lt in E. lra.
  - apply PyNumFacts.ltb_ge. apply PyNumFacts.ltb_ge in E. lra.
Qed.

(** X16.  The verdict of the deterministic fallback on a pair does not
    depend on which of the two records comes first. *)
Theorem fallback_verdict_is_symmetric (tx1 tx2 : BankTransaction) :
  _fallback_duplicate_analysis [tx1; tx2] = _fallback_duplicate_analysis [tx2; tx1].
Proof.
  unfold _fallback_duplicate_analysis.
  rewrite (opt_eqb_sym PyNum.eqb (bank_amount tx1) (bank_amount tx2) Qeq_bool_comm).
  rewrite (opt_eqb_sym Datetime.eqb (bank_date tx1) (bank_date tx2) Datetime_eqb_sym).
  rewrite (opt_eqb_sym String.eqb (bank_description tx1) (bank_description tx2) String.eqb_sym).
  rewrite (similarity_sym (PyStr.or_empty (bank_description tx1))).
  destruct (bank_amount tx1) as [a1|], (bank_amount tx2) as [a2|]; try reflexivity.
  rewrite (close_amounts_sym a1 a2), (andb_comm (negb (PyNum.eqb a1 0))).
  reflexivity.
Qed.

(** X17.  The deterministic fallback confirms nothing but pairs: whenever
    it reports duplicates, the list holds exactly two records with equal
    dates, with amounts that are both absent or less than 0.01 apart, and
    with descriptions that are equal or overlap by more than 0.8. *)
Theorem fallback_confirms_only_close_pairs (transactions : list BankTransaction) :
  are_duplicates (_fallback_duplicate_analysis transactions) = true ->
  exists tx1 tx2,
    transactions = [tx1; tx2] /\
    bank_date tx1 = bank_date tx2 /\
    match bank_amount tx1, bank_amount tx2 with
    | Some a1, Some a2 => Qabs (a1 - a2) < 0.01
    | None, None => True
    | _, _ => False
    end /\
    (bank_description tx1 = bank_description tx2 \/
     0.8 < _calculate_string_similarity
             (PyStr.or_empty (bank_description tx1))
             (PyStr.or_empty (bank_description tx2))).
Proof.
  unfold _fallback_duplicate_analysis.
  destruct transactions as [|tx1 [|tx2 [|tx3 rest]]]; try discriminate.
  intros H. exists tx1, tx2. split; [reflexivity|].
  assert (Hdate : opt_eqb Datetime.eqb (bank_date tx1) (bank_date tx2) = true ->
                  bank_date tx1 = bank_date tx2).
  { destruct (bank_date tx1), (bank_date tx2); simpl; try discriminate; auto.
    intros E. apply Datetime_eqb_eq in E. by subst. }
  destruct (opt_eqb PyNum.eqb (bank_amount tx1) (bank_amount tx2) &&
            opt_eqb Datetime.eqb (bank_date tx1) (bank_date tx2) &&
            opt_eqb String.eqb (bank_description tx1) (bank_description tx2)) eqn:Ex.
  - apply andb_true_iff in Ex as [Ex Hdesc]. apply andb_true_iff in Ex as [Hamt Hd].
    split; [by apply Hdate|]. split.
    + destruct (bank_amount tx1) as [a1|], (bank_amount tx2) as [a2|];
        simpl in Hamt; try discriminate; auto.
      apply Qeq_bool_iff in Hamt.
      assert (Qabs (a1 - a2) == 0) as ->; [|reflexivity].
      assert (a1 - a2 == 0) as -> by lra. reflexivity.
    + left. destruct (bank_description tx1), (bank_description tx2);
        simpl in Hdesc; try discriminate; auto.
      apply String.eqb_eq in Hdesc. by subst.
  - cbv zeta in H.
    match type of H with
    | are_duplicates (if ?c then _ else _) = true => destruct c eqn:Ec; [|discriminate]
    end.
    apply andb_true_iff in Ec as [Ec Hsim]. apply andb_true_iff in Ec as [Hamt Hd].
    split; [by apply Hdate|]. split.
    + destruct (bank_amount tx1) as [a1|], (bank_amount tx2) as [a2|]; try discriminate.
      destruct (negb (PyNum.eqb a1 0) && negb (PyNum.eqb a2 0)); [|discriminate].
      by apply PyNumFacts.ltb_lt.
    + right. by apply PyNumFacts.ltb_lt.
Qed.

Lemma fallback_confirms_only_close_pairs_witness :
  exists tx1 tx2,
    [Sample.diner; Sample.diner_wa] = [tx1; tx2] /\
    bank_date tx1 = bank_date tx2 /\
    match bank_amount tx1, bank_amount tx2 with
    | Some a1, Some a2 => Qabs (a1 - a2) < 0.01
    | None, None => True
    | _, _ => False
    end /\
    (bank_description tx1 = bank_description tx2 \/
     0.8 < _calculate_string_similarity
             (PyStr.or_empty (bank_description tx1))
             (PyStr.or_empty (bank_description tx2))).
Proof.
  apply (fallback_confirms_only_close_pairs [Sample.diner; Sample.diner_wa]).
  vm_compute. reflexivity.
Defined.

(* ================================================================== *)
(** * Facts: what the grouping key sees of a description *)
(* ================================================================== *)

Lemma grouping_text_of_normal_form (s1 s2 : string) :
  PyStr.strip (PyStr.upper s1) = PyStr.strip (PyStr.upper s2) ->
  _clean_description_for_grouping s1 = _clean_description_for_grouping s2.
Proof.
  intros H. unfold _clean_description_for_grouping.
  destruct s1 as [|a1 s1], s2 as [|a2 s2]; cbn [PyStr.truthy negb].
  - reflexivity.
  - rewrite <- H. vm_compute. reflexivity.
  - rewrite H. vm_compute. reflexivity.
  - rewrite H. reflexivity.
Qed.

Lemma group_key_of_normal_form (tx1 tx2 : BankTransaction) :
  bank_amount tx1 = bank_amount tx2 ->
  bank_date tx1 = bank_date tx2 ->
  PyStr.strip (PyStr.upper (PyStr.or_empty (bank_description tx1)))
  = PyStr.strip (PyStr.upper (PyStr.or_empty (bank_description tx2))) ->
  group_key tx1 = group_key tx2.
Proof.
  intros Ha Hd Hs. unfold group_key.
  rewrite Ha, Hd, (grouping_text_of_normal_form _ _ Hs). reflexivity.
Qed.

Lemma two_members_length {A} (x y : A) (l : list A) :
  x <> y -> x ∈ l -> y ∈ l -> (2 <= length l)%nat.
Proof.
  intros Hne Hx Hy.
  destruct l as [|a [|b l]]; simpl; try lia.
  - by apply elem_of_nil in Hx.
  - apply list_elem_of_singleton in Hx. apply list_elem_of_singleton in Hy. congruence.
Qed.

(** X18.  Two different records of the list with the same amount and date
    whose descriptions ([None] read as empty) agree after upper-casing and
    stripping have the same grouping key and are members of one candidate
    group. *)
Theorem case_and_outer_whitespace_do_not_separate_candidates
  (transactions : list BankTransaction) (tx1 tx2 : BankTransaction) :
  tx1 ∈ transactions -> tx2 ∈ transactions -> tx1 <> tx2 ->
  bank_amount tx1 = bank_amount tx2 ->
  bank_date tx1 = bank_date tx2 ->
  PyStr.strip (PyStr.upper (PyStr.or_empty (bank_description tx1)))
  = PyStr.strip (PyStr.upper (PyStr.or_empty (bank_description tx2))) ->
  group_key tx1 = group_key tx2 /\
  exists g, (group_key tx1, g) ∈ _group_potential_duplicates transactions /\
            tx1 ∈ g /\ tx2 ∈ g.
Proof.
  intros H1 H2 Hne Ha Hd Hs.
  pose proof (group_key_of_normal_form tx1 tx2 Ha Hd Hs) as Hk.
  split; [exact Hk|].
  exists (with_key (group_key tx1) transactions).
  assert (M1 : tx1 ∈ with_key (group_key tx1) transactions).
  { apply list_elem_of_In, List.filter_In. split; [by apply list_elem_of_In|].
    apply String.eqb_refl. }
  assert (M2 : tx2 ∈ with_key (group_key tx1) transactions).
  { apply list_elem_of_In, List.filter_In. split; [by apply list_elem_of_In|].
    rewrite Hk. apply String.eqb_refl. }
  split; [|by split].
  apply (proj2 (candidate_groups_characterized transactions)).
  split; [reflexivity|]. exact (two_members_length tx1 tx2 _ Hne M1 M2).
Qed.

Lemma case_and_outer_whitespace_do_not_separate_candidates_witness :
  let tx1 := Sample.bank 1 4.50 None (Some "  Coffee Shop "%string) in
  let tx2 := Sample.bank 2 4.50 None (Some "COFFEE SHOP"%string) in
  group_key tx1 = group_key tx2 /\
  exists g, (group_key tx1, g) ∈ _group_potential_duplicates [tx1; tx2] /\
            tx1 ∈ g /\ tx2 ∈ g.
Proof.
  intros tx1 tx2.
  apply (case_and_outer_whitespace_do_not_separate_candidates [tx1; tx2] tx1 tx2).
  - by left.
  - right. by left.
  - intros H. apply (f_equal bank_id) in H. vm_compute in H. discriminate H.
  - reflexivity.
  - reflexivity.
  - vm_compute. reflexivity.
Defined.

(* ================================================================== *)
(** * Facts: the field cleaners *)
(* ================================================================== *)

Lemma filter_of_all {A} (P : A -> Prop) `{forall x, Decision (P x)} (l : list A) :
  Forall P l -> filter P l = l.
Proof.
  induction 1 as [|x l Hx Hl IH]; [reflexivity|].
  rewrite filter_cons_True by exact Hx. by rewrite IH.
Qed.

Lemma truthy_str (l : list ascii) : PyStr.truthy (PyStr.str l) = negb (Nat.eqb (length l) 0).
Proof. by destruct l. Qed.

Lemma reference_number_shape (ref : string) :
  let allowed := fun c => PyText.isword c || Ascii.eqb c "-" in
  Forall (fun c => negb (allowed c) = false) (PyStr.chars (_clean_reference_number ref)) /\
  (length (PyStr.chars (_clean_reference_number ref)) <= 100)%nat.
Proof.
  intros allowed. unfold _clean_reference_number.
  destruct (negb (PyStr.truthy ref)); [split; [constructor | simpl; lia]|].
  unfold PyStr.slice_to, PyStr.remove_chars. rewrite !PyStrFacts.chars_str. split.
  - apply Forall_take, Forall_forall. intros c Hc.
    apply list_elem_of_filter in Hc as [Hc _]. exact Hc.
  - rewrite length_take. lia.
Qed.

(** X19.  A cleaned reference number consists of letters, digits,
    underscores and dashes only, has at most 100 characters, and cleaning
    it again changes nothing. *)
Theorem cleaned_reference_number_is_stable (ref : string) :
  let cleaned := _clean_reference_number ref in
  Forall (fun c => PyText.isword c || Ascii.eqb c "-" = true) (PyStr.chars cleaned) /\
  (String.length cleaned <= 100)%nat /\
  _clean_reference_number cleaned = cleaned.
Proof.
  intros cleaned. destruct (reference_number_shape ref) as [Hall Hlen].
  fold cleaned in Hall, Hlen. split; [|split].
  - eapply Forall_impl; [exact Hall|]. intros c Hc. cbv beta in Hc.
    by apply negb_false_iff in Hc.
  - rewrite <- (PyStrFacts.str_chars cleaned). unfold PyStr.str.
    clear -Hlen. revert Hlen. generalize (PyStr.chars cleaned). intros l.
    assert (E : String.length (string_of_list_ascii l) = length l).
    { induction l; simpl; congruence. }
    by rewrite E.
  - unfold _clean_reference_number at 1.
    destruct (PyStr.truthy cleaned) eqn:T; cbn [negb].
    + unfold PyStr.slice_to, PyStr.remove_chars. rewrite PyStrFacts.chars_str.
      rewrite filter_of_all by exact Hall.
      rewrite take_ge by exact Hlen. apply PyStrFacts.str_chars.
    + by destruct cleaned.
Qed.

Lemma single_spaced_weaken (l : list ascii) :
  PyText.single_spaced true l = true -> PyText.single_spaced false l = true.
Proof.
  destruct l as [|c l]; [done|]. simpl.
  destruct (PyStr.isspace c); [|done].
  rewrite andb_false_r. done.
Qed.

Lemma single_spaced_any (b : bool) (l : list ascii) :
  PyText.single_spaced b l = true -> PyText.single_spaced false l = true.
Proof. destruct b; [apply single_spaced_weaken | done]. Qed.

Lemma single_spaced_tail (b : bool) (c : ascii) (l : list ascii) :
  PyText.single_spaced b (c :: l) = true -> PyText.single_spaced false l = true.
Proof.
  simpl. destruct (PyStr.isspace c).
  - intros H. apply andb_prop in H as [_ H]. by apply single_spaced_weaken.
  - done.
Qed.

Lemma single_spaced_drop (n : nat) : forall (b : bool) (l : list ascii),
  PyText.single_spaced b l = true -> PyText.single_spaced false (drop n l) = true.
Proof.
  induction n as [|n IH]; intros b l H.
  - rewrite drop_0. by apply (single_spaced_any b).
  - destruct l as [|c l]; [done|]. simpl.
    apply (IH false). by apply (single_spaced_tail b c).
Qed.

Lemma single_spaced_prefix (l t : list ascii) : forall b,
  PyText.single_spaced b (l ++ t) = true -> PyText.single_spaced b l = true.
Proof.
  induction l as [|c l IH]; intros b H; [done|].
  simpl in *. destruct (PyStr.isspace c).
  - apply andb_prop in H as [H1 H2]. rewrite H1. simpl. by apply IH.
  - by apply IH.
Qed.

Lemma single_spaced_collapse (l : list ascii) : forall b,
  PyText.single_spaced b (PyText.collapse_whitespace b l) = true.
Proof.
  induction l as [|c l IH]; intros b; [done|].
  simpl. destruct (PyStr.isspace c) eqn:E.
  - destruct b; [apply IH|]. simpl. apply IH.
  - simpl. rewrite E. apply IH.
Qed.

Lemma lstrip_no_leading_space (l : list ascii) :
  PyText.no_leading_space (PyStr.lstrip_chars l).
Proof.
  induction l as [|c l IH]; [done|].
  simpl. destruct (PyStr.isspace c) eqn:E; [exact IH | exact E].
Qed.

Lemma lstrip_single_spaced (l : list ascii) :
  PyText.single_spaced false l = true ->
  PyText.single_spaced false (PyStr.lstrip_chars l) = true.
Proof.
  induction l as [|c l IH]; intros H; [done|].
  simpl. destruct (PyStr.isspace c) eqn:E; [|exact H].
  apply IH. by apply (single_spaced_tail false c).
Qed.

Lemma rstrip_is_prefix (l : list ascii) :
  exists t, l = PyStr.rstrip_chars l ++ t.
Proof.
  unfold PyStr.rstrip_chars.
  assert (S : forall m, exists p, m = p ++ PyStr.lstrip_chars m).
  { induction m as [|c m [p Hp]]; [by exists []|].
    simpl. destruct (PyStr.isspace c).
    - exists (c :: p). simpl. by rewrite <- Hp.
    - by exists []. }
  destruct (S (rev l)) as [p Hp]. exists (rev p).
  rewrite <- rev_app_distr, <- Hp. by rewrite rev_involutive.
Qed.

Lemma no_leading_space_prefix (l t : list ascii) :
  PyText.no_leading_space (l ++ t) -> PyText.no_leading_space l.
Proof. by destruct l. Qed.

Lemma single_spaced_start (l : list ascii) :
  PyText.no_leading_space l -> PyText.single_spaced false l = true ->
  PyText.single_spaced true l = true.
Proof.
  destruct l as [|c l]; [done|]. simpl. intros ->. done.
Qed.

Lemma collapse_start (l : list ascii) :
  PyText.no_leading_space l ->
  PyText.collapse_whitespace false l = PyText.collapse_whitespace true l.
Proof.
  destruct l as [|c l]; [done|]. simpl. intros ->. done.
Qed.

Lemma strip_no_leading_space (l : list ascii) :
  PyText.no_leading_space (PyStr.strip_chars l).
Proof.
  unfold PyStr.strip_chars.
  destruct (rstrip_is_prefix (PyStr.lstrip_chars l)) as [t Ht].
  apply (no_leading_space_prefix _ t). rewrite <- Ht.
  apply lstrip_no_leading_space.
Qed.

Lemma strip_single_spaced (l : list ascii) :
  PyText.single_spaced false l = true ->
  PyText.single_spaced true (PyStr.strip_chars l) = true.
Proof.
  intros H. apply single_spaced_start; [apply strip_no_leading_space|].
  unfold PyStr.strip_chars.
  destruct (rstrip_is_prefix (PyStr.lstrip_chars l)) as [t Ht].
  apply (single_spaced_prefix _ t). rewrite <- Ht.
  by apply lstrip_single_spaced.
Qed.

Lemma string_length_chars (s : string) : String.length s = length (PyStr.chars s).
Proof. induction s; simpl; congruence. Qed.

(** X20.  A cleaned description never begins with whitespace, contains no
    whitespace character other than the space and no two spaces in a row,
    and has at most 500 characters. *)
Theorem cleaned_description_is_single_spaced (description : string) :
  let cleaned := _clean_description description in
  PyText.single_spaced true (PyStr.chars cleaned) = true /\
  (String.length cleaned <= 500)%nat.
Proof.
  intros cleaned. subst cleaned. unfold _clean_description.
  destruct (negb (PyStr.truthy description)); [split; [done | simpl; lia]|].
  set (start := PyStr.str _).
  assert (H0 : PyText.single_spaced true (PyStr.chars start) = true).
  { subst start. rewrite PyStrFacts.chars_str. unfold PyStr.strip.
    rewrite PyStrFacts.chars_str, collapse_start by apply strip_no_leading_space.
    apply single_spaced_collapse. }
  revert H0. generalize start. clear start.
  induction description_prefixes as [|prefix prefixes IH]; intros cleaned H; simpl.
  - unfold PyStr.slice_to. rewrite string_length_chars, PyStrFacts.chars_str. split.
    + apply (single_spaced_prefix _ (drop 500 (PyStr.chars cleaned))).
      by rewrite take_drop.
    + rewrite length_take. lia.
  - apply IH. destruct (PyStr.startswith (PyStr.upper cleaned) prefix); [|exact H].
    unfold PyStr.strip, PyStr.slice_from. rewrite !PyStrFacts.chars_str.
    apply strip_single_spaced. by apply (single_spaced_drop _ true).
Qed.

(* ================================================================== *)
(** * Facts: the categorizer *)
(* ================================================================== *)

Lemma prefix_spec (a s : string) :
  String.prefix a s = true <-> exists q, s = a +:+ q.
Proof.
  revert s. induction a as [|c a IH]; intros s.
  - split; [intros _; by exists s | intros _; by destruct s].
  - destruct s as [|d s]; simpl; [split; [done | intros [q Hq]; discriminate Hq]|].
    destruct (ascii_dec c d) as [->|Hne].
    + rewrite IH. split; intros [q Hq]; exists q; [by rewrite Hq | by injection Hq].
    + split; [done | intros [q Hq]; by injection Hq as E _].
Qed.

Lemma contains_spec (sub s : string) :
  PyText.contains sub s = true <-> exists p q, s = p +:+ sub +:+ q.
Proof.
  split.
  - induction s as [|c s IH]; cbn [PyText.contains]; intros H;
      apply orb_prop in H as [H|H].
    + apply prefix_spec in H as [q Hq]. by exists ""%string, q.
    + discriminate H.
    + apply prefix_spec in H as [q Hq]. by exists ""%string, q.
    + destruct (IH H) as (p & q & ->). by exists (String c p), q.
  - intros (p & q & ->). induction p as [|c p IH].
    + assert (P : String.prefix sub (sub +:+ q) = true)
        by (apply prefix_spec; by exists q).
      change (""%string +:+ sub +:+ q) with (sub +:+ q).
      destruct (sub +:+ q); cbn [PyText.contains]; by rewrite P.
    + change (String c p +:+ sub +:+ q) with (String c (p +:+ sub +:+ q)).
      cbn [PyText.contains]. rewrite IH. apply orb_true_r.
Qed.

Lemma contains_trans (a b c : string) :
  PyText.contains a b = true -> PyText.contains b c = true ->
  PyText.contains a c = true.
Proof.
  rewrite !contains_spec. intros (p1 & q1 & ->) (p2 & q2 & ->).
  exists (p2 +:+ p1), (q1 +:+ q2). by rewrite !append_assoc.
Qed.

Lemma first_category_earlier (d category : string) :
  forall table,
    existsb (fun keyword => PyText.contains keyword d) (earlier_keywords table category)
    = true ->
    first_category table d <> category.
Proof.
  induction table as [|[c keywords] table IH]; simpl; [done|].
  destruct (String.eqb c category) eqn:E; [done|].
  apply String.eqb_neq in E. rewrite existsb_app. intros H.
  destruct (existsb _ keywords); [exact E|]. by apply IH.
Qed.

Lemma earlier_keywords_in (category k : string) : forall table,
  In k (earlier_keywords table category) -> In k (flat_map snd table).
Proof.
  induction table as [|[c keywords] table IH]; simpl; [done|].
  destruct (String.eqb c category); [done|].
  rewrite !in_app_iff. tauto.
Qed.

Lemma keywords_are_not_empty :
  forallb (fun k => negb (PyText.contains k "")) (flat_map snd categories) = true.
Proof. vm_compute. reflexivity. Qed.

(** X21.  The first category of the table with a matching keyword wins: a
    description that mentions a text containing a keyword of an earlier
    category is never given [category]. *)
Theorem keyword_of_an_earlier_category_wins (category text description : string) :
  shadowed category text = true ->
  PyText.contains text (PyStr.lower description) = true ->
  _auto_categorize_improved description <> category.
Proof.
  unfold shadowed, _auto_categorize_improved. intros Hs Hc.
  apply existsb_exists in Hs as (k & Hin & Hk).
  pose proof (contains_trans _ _ _ Hk Hc) as Hd.
  destruct description as [|a description].
  - apply earlier_keywords_in in Hin.
    pose proof (proj1 (forallb_forall _ _) keywords_are_not_empty k Hin) as Hne.
    change (PyStr.lower "") with ""%string in Hd. cbv beta in Hne.
    rewrite Hd in Hne. discriminate Hne.
  - cbn [PyStr.truthy negb]. apply first_category_earlier.
    apply existsb_exists. exists k. by split.
Qed.

Lemma keyword_of_an_earlier_category_wins_witness :
  _auto_categorize_improved "CVS PHARMACY #4521" <> "healthcare"%string.
Proof.
  apply (keyword_of_an_earlier_category_wins "healthcare" "pharmacy").
  - vm_compute. reflexivity.
  - vm_compute. reflexivity.
Defined.

(** The keywords of the table concerned: none of them can give a
    description its own category. *)
Lemma shadowed_keywords_of_the_table :
  shadowed_keywords
  = [("entertainment", "amazon prime"); ("healthcare", "pharmacy");
     ("healthcare", "kroger pharmacy"); ("healthcare", "walmart pharmacy");
     ("utilities", "gas bill"); ("utilities", "gas company");
     ("transportation", "uber"); ("transportation", "lyft");
     ("transportation", "taxi"); ("transportation", "parking");
     ("transportation", "toll"); ("transportation", "subway");
     ("insurance", "auto insurance"); ("insurance", "health insurance")]%string.
Proof. vm_compute. reflexivity. Qed.

(* ================================================================== *)
(** * Facts: what the amount parser reads *)
(* ================================================================== *)

Section CharFilters.

Variables P Q : ascii -> Prop.
Context `{forall x, Decision (P x)} `{forall x, Decision (Q x)}.

Lemma filter_filter_implied (l : list ascii) :
  (forall x, P x -> Q x) -> filter P (filter Q l) = filter P l.
Proof.
  intros HPQ. induction l as [|c l IH]; [done|].
  destruct (decide (Q c)) as [q|nq].
  - rewrite (filter_cons_True Q) by exact q.
    destruct (decide (P c)) as [p|np].
    + rewrite !(filter_cons_True P) by exact p. by rewrite IH.
    + rewrite !(filter_cons_False P) by exact np. exact IH.
  - rewrite (filter_cons_False Q) by exact nq.
    rewrite (filter_cons_False P) by (intros p; exact (nq (HPQ _ p))). exact IH.
Qed.

Lemma filter_rev_chars (l : list ascii) : filter P (rev l) = rev (filter P l).
Proof.
  induction l as [|c l IH]; [done|].
  simpl. rewrite filter_app, IH.
  destruct (decide (P c)) as [p|np].
  - rewrite (filter_cons_True P) by exact p. rewrite filter_cons_True by exact p. done.
  - rewrite (filter_cons_False P) by exact np. rewrite filter_cons_False by exact np.
    simpl. by rewrite app_nil_r.
Qed.

Hypothesis no_space : forall x, P x -> PyStr.isspace x = false.

Lemma filter_lstrip (l : list ascii) : filter P (PyStr.lstrip_chars l) = filter P l.
Proof.
  induction l as [|c l IH]; [done|].
  simpl. destruct (PyStr.isspace c) eqn:E; [|done].
  rewrite IH, filter_cons_False; [done|].
  intros p. apply no_space in p. congruence.
Qed.

Lemma filter_strip (l : list ascii) : filter P (PyStr.strip_chars l) = filter P l.
Proof.
  unfold PyStr.strip_chars, PyStr.rstrip_chars.
  rewrite filter_rev_chars, filter_lstrip, filter_rev_chars, rev_involutive.
  apply filter_lstrip.
Qed.

End CharFilters.

Lemma contains_char_filter (c : ascii) (P : ascii -> Prop) `{forall x, Decision (P x)}
  (l : list ascii) :
  existsb (Ascii.eqb c) (filter P l) = true -> existsb (Ascii.eqb c) l = true.
Proof.
  rewrite !existsb_exists. intros (x & Hin & Hx). exists x. split; [|exact Hx].
  apply list_elem_of_In in Hin. apply list_elem_of_filter in Hin as [_ Hin].
  by apply list_elem_of_In.
Qed.

Lemma contains_char_strip (c : ascii) (l : list ascii) :
  existsb (Ascii.eqb c) (PyStr.strip_chars l) = true -> existsb (Ascii.eqb c) l = true.
Proof.
  assert (L : forall m x, In x (PyStr.lstrip_chars m) -> In x m).
  { induction m as [|d m IH]; [done|]. simpl. intros x.
    destruct (PyStr.isspace d); [|done]. intros Hm. right. by apply IH. }
  rewrite !existsb_exists. intros (x & Hin & Hx). exists x. split; [|exact Hx].
  unfold PyStr.strip_chars, PyStr.rstrip_chars in Hin.
  apply in_rev, L, in_rev, L in Hin. exact Hin.
Qed.

Lemma amount_char_no_space (x : ascii) :
  negb (amount_char x) = false -> PyStr.isspace x = false.
Proof.
  destruct x as [[] [] [] [] [] [] [] []]; vm_compute; congruence.
Qed.

Lemma amount_char_no_dollar (x : ascii) :
  negb (amount_char x) = false -> Ascii.eqb "$" x = false.
Proof.
  destruct x as [[] [] [] [] [] [] [] []]; vm_compute; congruence.
Qed.

Lemma amount_char_no_comma (x : ascii) :
  negb (amount_char x) = false -> Ascii.eqb "," x = false.
Proof.
  destruct x as [[] [] [] [] [] [] [] []]; vm_compute; congruence.
Qed.

(** Without a pair of parentheses the cleaned text is what is left of the
    input when everything but digits, dots and minus signs is dropped. *)
Lemma amount_text_plain (s : string) :
  PyStr.contains_char "(" s && PyStr.contains_char ")" s = false ->
  amount_text s = PyStr.remove_chars (fun c => negb (amount_char c)) s.
Proof.
  intros Hp. unfold amount_text.
  set (cleaned := PyStr.remove_chars (Ascii.eqb ",") _).
  assert (Hc : PyStr.contains_char "(" cleaned && PyStr.contains_char ")" cleaned = false).
  { apply andb_false_iff. apply andb_false_iff in Hp.
    assert (T : forall c, PyStr.contains_char c cleaned = true ->
                          PyStr.contains_char c s = true).
    { intros c Hc. subst cleaned.
      unfold PyStr.contains_char, PyStr.remove_chars, PyStr.strip in *.
      rewrite !PyStrFacts.chars_str in Hc.
      apply contains_char_filter, contains_char_filter, contains_char_strip in Hc.
      exact Hc. }
    destruct Hp as [Hp|Hp]; [left|right];
      (destruct (PyStr.contains_char _ cleaned) eqn:E; [|done]);
      apply T in E; congruence. }
  rewrite Hc. subst cleaned.
  unfold PyStr.remove_chars, PyStr.strip. rewrite !PyStrFacts.chars_str.
  f_equal.
  rewrite (filter_filter_implied _ _ _ amount_char_no_comma).
  rewrite (filter_filter_implied _ _ _ amount_char_no_dollar).
  apply filter_strip. exact amount_char_no_space.
Qed.

(** X22.  On ASCII text the parser reads nothing but the digits, dots and
    minus signs: two non-empty ASCII texts without a pair of parentheses
    that agree on these characters, in order, have the same result. *)
Theorem amount_depends_only_on_digits_dots_and_signs (s1 s2 : string) :
  PyText.isascii s1 = true -> PyText.isascii s2 = true ->
  PyStr.truthy s1 = true -> PyStr.truthy s2 = true ->
  PyStr.contains_char "(" s1 && PyStr.contains_char ")" s1 = false ->
  PyStr.contains_char "(" s2 && PyStr.contains_char ")" s2 = false ->
  PyStr.remove_chars (fun c => negb (amount_char c)) s1
  = PyStr.remove_chars (fun c => negb (amount_char c)) s2 ->
  _parse_amount_improved s1 = _parse_amount_improved s2.
Proof.
  intros _ _ T1 T2 P1 P2 E. unfold _parse_amount_improved.
  rewrite T1, T2. cbn [negb].
  by rewrite !collapse_decimal_points_is_identity, !amount_text_plain, E.
Qed.

Lemma amount_depends_only_on_digits_dots_and_signs_witness :
  _parse_amount_improved "USD 1,234.50 CR" = _parse_amount_improved "1234.50".
Proof.
  apply amount_depends_only_on_digits_dots_and_signs; vm_compute; reflexivity.
Defined.

Lemma chars_app (a b : string) : PyStr.chars (a +:+ b) = PyStr.chars a ++ PyStr.chars b.
Proof. induction a as [|c a IH]; simpl; [done | by rewrite IH]. Qed.

Lemma rstrip_closed (m : list ascii) (c : ascii) :
  PyStr.isspace c = false -> PyStr.rstrip_chars (m ++ [c]) = m ++ [c].
Proof.
  intros Hc. unfold PyStr.rstrip_chars. rewrite rev_unit. simpl. rewrite Hc.
  simpl. by rewrite rev_involutive.
Qed.

Lemma replace_absent (c : ascii) (r : list ascii) (m : list ascii) :
  existsb (Ascii.eqb c) m = false ->
  flat_map (fun x => if Ascii.eqb c x then r else [x]) m = m.
Proof.
  induction m as [|d m IH]; [done|]. simpl. intros H.
  apply orb_false_elim in H as [Hd Hm]. rewrite Hd. simpl. by rewrite IH.
Qed.

Lemma absent_filter (c : ascii) (P : ascii -> Prop) `{forall x, Decision (P x)}
  (l : list ascii) :
  existsb (Ascii.eqb c) l = false -> existsb (Ascii.eqb c) (filter P l) = false.
Proof.
  intros Hl. destruct (existsb _ (filter P l)) eqn:E; [|done].
  apply contains_char_filter in E. congruence.
Qed.

(** A parenthesised text without further parentheses is cleaned to a
    minus sign followed by its digits, dots and minus signs. *)
Lemma amount_text_parenthesised (s : string) :
  PyStr.contains_char "(" s = false -> PyStr.contains_char ")" s = false ->
  amount_text ("(" +:+ s +:+ ")")
  = String "-" (PyStr.remove_chars (fun c => negb (amount_char c)) s).
Proof.
  unfold PyStr.contains_char. intros Ho Hc. unfold amount_text.
  unfold PyStr.strip, PyStr.remove_chars, PyStr.contains_char, PyStr.replace_char.
  rewrite !PyStrFacts.chars_str, !chars_app.
  change (PyStr.chars "(") with ["("%char]. change (PyStr.chars ")") with [")"%char].
  change (PyStr.chars "-") with ["-"%char]. change (PyStr.chars "") with (@nil ascii).
  set (cs := PyStr.chars s) in *.
  assert (S : PyStr.strip_chars (["("%char] ++ cs ++ [")"%char])
              = "("%char :: cs ++ [")"%char]).
  { unfold PyStr.strip_chars. cbn [app PyStr.lstrip_chars].
    change (PyStr.isspace "(") with false. cbv iota.
    exact (rstrip_closed ("("%char :: cs) ")" eq_refl). }
  rewrite S. clear S.
  rewrite (filter_cons_True _ "("%char) by reflexivity.
  rewrite filter_app.
  rewrite (filter_cons_True _ ")"%char) by reflexivity. rewrite filter_nil.
  rewrite (filter_cons_True _ "("%char) by reflexivity.
  rewrite filter_app.
  rewrite (filter_cons_True _ ")"%char) by reflexivity. rewrite filter_nil.
  set (m := filter _ (filter _ cs)).
  assert (Mo : existsb (Ascii.eqb "(") m = false) by by do 2 apply absent_filter.
  assert (Mc : existsb (Ascii.eqb ")") m = false) by by do 2 apply absent_filter.
  assert (C : existsb (Ascii.eqb "(") ("("%char :: m ++ [")"%char])
              && existsb (Ascii.eqb ")") ("("%char :: m ++ [")"%char]) = true).
  { apply andb_true_intro. split; [reflexivity|].
    apply existsb_exists. exists ")"%char. split; [|reflexivity].
    right. apply in_or_app. right. by left. }
  rewrite C. rewrite !PyStrFacts.chars_str.
  cbn [flat_map]. change (Ascii.eqb "(" "(") with true. cbv iota.
  rewrite (flat_map_app _ m [")"%char]), (replace_absent "(" _ m Mo).
  cbn [flat_map app]. change (Ascii.eqb "(" ")") with false. cbv iota.
  change (Ascii.eqb ")" "-") with false. cbv iota. cbn [app].
  rewrite (flat_map_app _ m [")"%char]), (replace_absent ")" _ m Mc).
  cbn [flat_map app]. change (Ascii.eqb ")" ")") with true. cbv iota.
  rewrite !app_nil_r.
  rewrite (filter_cons_True _ "-"%char) by reflexivity.
  subst m.
  rewrite (filter_filter_implied _ _ _ amount_char_no_comma).
  rewrite (filter_filter_implied _ _ _ amount_char_no_dollar).
  reflexivity.
Qed.

(** What [Decimal] computes from the text after the sign. *)
Lemma Decimal_minus (t : string) :
  match PyStr.chars t with "-"%char :: _ => False | _ => True end ->
  Decimal (String "-" t) = option_map Qopp (Decimal t).
Proof.
  unfold Decimal. change (PyStr.chars (String "-" t)) with ("-"%char :: PyStr.chars t).
  destruct (PyStr.chars t) as [|c r].
  - intros _. reflexivity.
  - intros Hc. cbv iota beta.
    set (parsed := fun body : list ascii =>
           match PyStr.split_on_chars "." [] body with
           | [int_part] =>
               if all_digits int_part && negb (Nat.eqb (length int_part) 0)
               then Some (digits_value int_part # 1) else None
           | [int_part; frac] =>
               if all_digits int_part && all_digits frac
                  && negb (Nat.eqb (length int_part + length frac) 0)
               then Some (digits_value (int_part ++ frac)
                          # Z.to_pos (10 ^ Z.of_nat (length frac)))
               else None
           | _ => None
           end).
    change (match parsed (c :: r) with Some q => Some (- q) | None => None end
            = option_map Qopp
                (let '(negative, body) :=
                   match c :: r with
                   | "-"%char :: rest => (true, rest)
                   | _ => (false, c :: r)
                   end in
                 match parsed body with
                 | Some q => Some (if negative then - q else q)
                 | None => None
                 end)).
    generalize parsed. intros f.
    destruct c as [[] [] [] [] [] [] [] []]; try (destruct Hc);
      cbv iota beta; by destruct (f _).
Qed.

(** X23.  Parentheses negate: a text without parentheses and minus signs,
    put between "(" and ")", parses to the opposite of what it parses to
    on its own, and is unparseable when the text is. *)
Theorem parenthesised_amount_is_negated (s : string) :
  PyStr.contains_char "(" s = false ->
  PyStr.contains_char ")" s = false ->
  PyStr.contains_char "-" s = false ->
  _parse_amount_improved ("(" +:+ s +:+ ")") = option_map Qopp (_parse_amount_improved s).
Proof.
  intros Ho Hc Hm.
  destruct s as [|a s]; [vm_compute; reflexivity|].
  unfold _parse_amount_improved.
  change (PyStr.truthy ("(" +:+ String a s +:+ ")")) with true.
  change (PyStr.truthy (String a s)) with true. cbn [negb].
  rewrite !collapse_decimal_points_is_identity.
  rewrite amount_text_parenthesised by assumption.
  rewrite amount_text_plain by (rewrite Ho; reflexivity).
  apply Decimal_minus.
  unfold PyStr.remove_chars. rewrite PyStrFacts.chars_str.
  unfold PyStr.contains_char in Hm.
  pose proof (absent_filter "-" (fun x => negb (amount_char x) = false) _ Hm) as Hf.
  destruct (filter _ (PyStr.chars (String a s))) as [|c r]; [done|].
  cbn [existsb] in Hf. apply orb_false_elim in Hf as [Hf _].
  destruct c as [[] [] [] [] [] [] [] []]; try done; discriminate Hf.
Qed.

Lemma parenthesised_amount_is_negated_witness :
  _parse_amount_improved ("(" +:+ "$1,234.56" +:+ ")") = Some (- (123456 # 100)).
Proof.
  apply (parenthesised_amount_is_negated "$1,234.56"); vm_compute; reflexivity.
Defined.

(* ================================================================== *)
(** * Facts: what an upload reports and stores *)
(* ================================================================== *)

Section UploadFacts.

Variable Row : Type.
Variable RawRow : Type.
Variable Cleaned : Type.
Variable decode_utf8 : list Byte.byte -> string + string.
Variable _parse_csv_with_openai : string -> list Row.
Variable sniff_delimiter : string -> option ascii.
Variable DictReader : string -> ascii -> list RawRow.
Variable _normalize_csv_row : RawRow -> option Row.
Variable any_value : Row -> bool.
Variable _is_header_row : Row -> bool.
Variable _clean_transaction_data_improved : Row -> option Cleaned.
Variable BankTransactionCreate : Z -> string -> Cleaned -> string + BankTransaction.

Lemma import_rows_fold (user_id : Z) (batch_id : string) (rows : list Row) :
  forall st : ImportState,
    let st' := fold_left (import_row Row Cleaned _clean_transaction_data_improved
                            BankTransactionCreate user_id batch_id) rows st in
    (successful_imports st' + failed_imports st'
     = successful_imports st + failed_imports st + length rows)%nat /\
    (length (errors st') + failed_imports st
     = length (errors st) + failed_imports st')%nat /\
    exists added,
      bank_rows (import_db st') = bank_rows (import_db st) ++ added /\
      (length added + successful_imports st = successful_imports st')%nat /\
      next_bank_id (import_db st')
      = (next_bank_id (import_db st) + Z.of_nat (length added))%Z /\
      map bank_id added
      = map (fun i => (next_bank_id (import_db st) + Z.of_nat i)%Z) (seq 0 (length added)).
Proof.
  induction rows as [|row rows IH]; intros st.
  - simpl. repeat split; try lia. exists []. simpl.
    rewrite app_nil_r. repeat split; lia.
  - cbn [fold_left]. cbv zeta.
    set (st1 := import_row _ _ _ _ _ _ st row).
    assert (Hstep :
      (successful_imports st1 = successful_imports st + 1 /\
       failed_imports st1 = failed_imports st /\
       errors st1 = errors st /\
       exists tx, bank_id tx = next_bank_id (import_db st) /\
                  import_db st1 = mkDatabase (bank_rows (import_db st) ++ [tx])
                                    (next_bank_id (import_db st) + 1))%nat \/
      (successful_imports st1 = successful_imports st /\
       failed_imports st1 = failed_imports st + 1 /\
       length (errors st1) = length (errors st) + 1 /\
       import_db st1 = import_db st)%nat).
    { subst st1. unfold import_row.
      destruct (_clean_transaction_data_improved row) as [cleaned|].
      - destruct (BankTransactionCreate user_id batch_id cleaned) as [e|data].
        + right. simpl. rewrite length_app. simpl. by repeat split.
        + left. simpl. split; [done|]. split; [done|]. split; [done|].
          eexists. split; [|reflexivity]. reflexivity.
      - right. simpl. rewrite length_app. simpl. by repeat split. }
    destruct (IH st1) as (Hc & He & added & Hrows & Hlen & Hnext & Hids).
    clearbody st1.
    destruct Hstep as [(Hs & Hf & Herr & tx & Hid & Hdb)|(Hs & Hf & Herr & Hdb)].
    + split; [simpl; lia|]. split; [rewrite <- Herr; lia|].
      exists (tx :: added). rewrite Hdb in Hrows, Hnext, Hids. simpl in Hrows, Hnext, Hids.
      split; [by rewrite Hrows, <- app_assoc|].
      split; [simpl; lia|]. split; [simpl length; lia|].
      simpl. rewrite Hid, Z.add_0_r. f_equal.
      rewrite Hids, <- seq_shift, map_map. apply map_ext. intros i. lia.
    + split; [simpl; lia|]. split; [lia|].
      exists added. rewrite Hdb in Hrows, Hnext, Hids.
      repeat split; try assumption; lia.
Qed.

(** X24.  What an upload reports and stores.  The response carries the
    batch identifier; the rows of the table are kept, in order, and one
    row per successful import is appended, with the next consecutive
    primary keys; at most the first ten error messages are returned, one
    per failed import; and when the content decodes, every record is
    counted exactly once as succeeded or failed, whereas after a decoding
    error the response reports one failure out of zero records. *)
Theorem upload_accounts_for_every_record
  (db : Database) (batch_id : string) (user_id : Z) (csv_content : list Byte.byte) :
  let result :=
    process_csv_upload Row RawRow Cleaned decode_utf8 _parse_csv_with_openai
      sniff_delimiter DictReader _normalize_csv_row any_value _is_header_row
      _clean_transaction_data_improved BankTransactionCreate
      db batch_id user_id csv_content in
  let response := result.1 in
  let db' := result.2 in
  CSVUploadResponse.batch_id response = batch_id /\
  (exists added,
     bank_rows db' = bank_rows db ++ added /\
     length added = CSVUploadResponse.successful_imports response /\
     next_bank_id db' = (next_bank_id db + Z.of_nat (length added))%Z /\
     map bank_id added
     = map (fun i => (next_bank_id db + Z.of_nat i)%Z) (seq 0 (length added))) /\
  length (CSVUploadResponse.errors response)
  = Nat.min (CSVUploadResponse.failed_imports response) 10 /\
  match decode_utf8 csv_content with
  | inr _ =>
      (CSVUploadResponse.successful_imports response
       + CSVUploadResponse.failed_imports response
       = CSVUploadResponse.total_transactions response)%nat
  | inl _ =>
      CSVUploadResponse.total_transactions response = 0%nat /\
      CSVUploadResponse.successful_imports response = 0%nat /\
      CSVUploadResponse.failed_imports response = 1%nat
  end.
Proof.
  unfold process_csv_upload.
  destruct (decode_utf8 csv_content) as [e|csv_text]; cbv zeta.
  - simpl. split; [done|]. split; [|by repeat split].
    exists []. simpl. rewrite app_nil_r. repeat split; lia.
  - set (transactions_data := match _parse_csv_with_openai csv_text with
                              | [] => _ | _ => _ end).
    destruct (import_rows_fold user_id batch_id transactions_data
                (mkImportState db 0 0 0 []))
      as (Hc & He & added & Hrows & Hlen & Hnext & Hids).
    simpl in Hc, He, Hrows, Hlen, Hnext, Hids. simpl.
    split; [done|]. split.
    + exists added. repeat split; try assumption; lia.
    + split; [rewrite length_take; lia | lia].
Qed.

End UploadFacts.

(* ================================================================== *)
(** * Facts: reading the listing page after page *)
(* ================================================================== *)

Lemma ceil_div_bounds (total limit : nat) :
  (0 < limit)%nat ->
  (total <= ceil_div total limit * limit)%nat /\
  forall i, (i < ceil_div total limit)%nat -> (i * limit < total)%nat.
Proof.
  intros Hl. unfold ceil_div.
  pose proof (Nat.Div0.mul_div_le (total + limit - 1) limit) as Hle.
  pose proof (Nat.mul_succ_div_gt (total + limit - 1) limit ltac:(lia)) as Hgt.
  set (q := ((total + limit - 1) / limit)%nat) in *.
  split; [nia|]. intros i Hi. nia.
Qed.

Lemma concat_of_pages {A} (limit k : nat) : forall l : list A,
  (length l <= k * limit)%nat ->
  concat (map (fun i => take limit (drop (i * limit) l)) (seq 0 k)) = l.
Proof.
  induction k as [|k IH]; intros l Hlen.
  - destruct l; [done | simpl in Hlen; lia].
  - cbn [seq map concat]. rewrite <- seq_shift, map_map.
    rewrite Nat.mul_0_l, drop_0.
    transitivity (take limit l ++ drop limit l); [|apply take_drop]. f_equal.
    etransitivity; [|apply (IH (drop limit l)); rewrite length_drop; lia].
    f_equal. apply map_ext. intros i. rewrite drop_drop. reflexivity.
Qed.

(** X25.  For a positive page size, the requests for the pages
    1, ..., [pages] (skip 0, limit, 2 limit, ...) carry these page numbers,
    each returns at least one and at most [limit] rows, and their rows put
    end to end are the whole listing, in order. *)
Theorem pages_put_end_to_end_are_the_listing
  (ordered : list BankTransaction) (limit : nat) :
  (0 < limit)%nat ->
  let pages := list_pages (get_user_bank_transactions ordered 0 limit) in
  concat (map list_transactions (all_pages ordered limit)) = ordered /\
  map list_page (all_pages ordered limit) = seq 1 pages /\
  Forall (fun r => (0 < length (list_transactions r) <= limit)%nat /\
                   list_total r = length ordered /\ list_pages r = pages)
         (all_pages ordered limit).
Proof.
  intros Hl. unfold all_pages, get_user_bank_transactions. cbn [list_pages].
  assert (E : (0 <? limit)%nat = true) by by apply Nat.ltb_lt.
  rewrite E. rewrite !map_map. cbn [list_transactions list_page].
  destruct (ceil_div_bounds (length ordered) limit Hl) as [Hcover Hin].
  split; [|split].
  - by apply concat_of_pages.
  - rewrite <- seq_shift. apply map_ext_in. intros i _.
    rewrite Nat.div_mul by lia. lia.
  - apply Forall_forall. intros r Hr.
    apply list_elem_of_fmap in Hr as (i & -> & Hi).
    apply list_elem_of_In, in_seq in Hi. cbn [list_transactions list_total list_pages].
    split; [|done]. rewrite length_take, length_drop.
    pose proof (Hin i ltac:(lia)). lia.
Qed.

Lemma pages_put_end_to_end_are_the_listing_witness :
  let ordered := [Sample.coffee_1; Sample.coffee_2; Sample.diner] in
  concat (map list_transactions (all_pages ordered 2)) = ordered /\
  map list_page (all_pages ordered 2) = [1; 2]%nat /\
  Forall (fun r => (0 < length (list_transactions r) <= 2)%nat /\
                   list_total r = 3%nat /\ list_pages r = 2%nat)
         (all_pages ordered 2).
Proof.
  intros ordered.
  apply (pages_put_end_to_end_are_the_listing ordered 2). lia.
Defined.

(* ================================================================== *)
(** * Facts: the matchers' result as a partition of the records *)
(* ================================================================== *)

Section MatcherMembership.

Variable score : Transaction -> BankTransaction -> Q.
Variable threshold : Q.

Lemma match_loop_ledgers bs ls : forall st,
  let st' := fold_left (match_step score threshold bs) ls st in
  omap ledger_transaction (matched st' ++ ledger_only st')
  ≡ₚ omap ledger_transaction (matched st ++ ledger_only st) ++ ls.
Proof.
  induction ls as [|l ls IH]; intros st; cbv zeta.
  - simpl. by rewrite app_nil_r.
  - cbn [fold_left]. rewrite (IH (match_step score threshold bs st l)).
    replace (omap ledger_transaction (matched st ++ ledger_only st) ++ l :: ls)
      with ((omap ledger_transaction (matched st ++ ledger_only st) ++ [l]) ++ ls)
      by by rewrite <- app_assoc.
    apply Permutation_app_tail.
    unfold match_step.
    destruct (best_candidate score threshold l (matched_bank_ids st) bs) as [[b|] c];
      cbn [matched ledger_only]; rewrite !omap_app; cbn [omap ledger_transaction].
    + rewrite <- !app_assoc. apply Permutation_app_head.
      apply Permutation_app_comm.
    + by rewrite <- !app_assoc.
Qed.

Lemma bank_ids_of_banks (ms : list TransactionMatch) :
  map bank_id (omap bank_transaction ms) = bank_ids_of ms.
Proof.
  unfold bank_ids_of. induction ms as [|m ms IH]; [done|].
  cbn [omap list_omap]. destruct (bank_transaction m); cbn [fmap option_fmap option_map map];
    [f_equal|]; exact IH.
Qed.

Lemma greedy_membership ls bs :
  NoDup (map bank_id bs) ->
  let r := greedy_match score threshold ls bs in
  omap ledger_transaction (matched_of r ++ ledger_only_of r) ≡ₚ ls /\
  omap bank_transaction (matched_of r ++ bank_only_of r) ≡ₚ bs.
Proof.
  intros Hnd. cbv zeta. unfold greedy_match, matched_of, ledger_only_of, bank_only_of.
  cbn [fst snd]. split.
  - exact (match_loop_ledgers bs ls initial_state).
  - destruct (match_loop_claimed score threshold ls bs)
      as (Hids & Hndm & _ & _ & Hok & _).
    set (st := match_loop score threshold ls bs) in *.
    rewrite omap_app. unfold unmatched_bank.
    assert (E : omap bank_transaction
                  (map (fun bank_tx => mkTransactionMatch None (Some bank_tx)
                                         "bank_only" (Some 0))
                       (filter (fun bank_tx => bank_id bank_tx ∉ matched_bank_ids st) bs))
                = filter (fun bank_tx => bank_id bank_tx ∉ matched_bank_ids st) bs).
    { induction (filter _ bs) as [|b l IH]; [done|].
      cbn [map omap list_omap bank_transaction]. f_equal. exact IH. }
    rewrite E. clear E.
    etransitivity;
      [|apply (filter_app_complement (fun b => bank_id b ∈ matched_bank_ids st) bs)].
    apply Permutation_app_tail.
    assert (Hbs : NoDup bs) by by apply (NoDup_fmap_1 bank_id).
    apply NoDup_Permutation.
    + apply (NoDup_fmap_1 bank_id). change (NoDup (map bank_id (omap bank_transaction (matched st)))).
      by rewrite bank_ids_of_banks.
    + by apply NoDup_filter.
    + intros x. rewrite list_elem_of_filter, Hids, elem_of_list_to_set.
      rewrite Forall_forall in Hok. split.
      * intros Hx. apply list_elem_of_omap in Hx as (m & Hm & Hmx).
        destruct (Hok m Hm) as (l & b & -> & _ & Hb & _).
        simpl in Hmx. inversion Hmx; subst x. split; [|exact Hb].
        apply list_elem_of_omap. eexists. split; [exact Hm|]. reflexivity.
      * intros [Hx Hin]. apply list_elem_of_omap in Hx as (m & Hm & Hmx).
        destruct (Hok m Hm) as (l & b & -> & _ & Hb & _).
        simpl in Hmx. inversion Hmx as [Hid].
        assert (b = x) as <-.
        { apply (NoDup_map_inj bank_id bs); auto. }
        apply list_elem_of_omap. eexists. split; [exact Hm|]. reflexivity.
Qed.

End MatcherMembership.

(** X26.  With pairwise distinct bank ids, the result of either matcher
    partitions the records themselves: the ledger records of [matched] and
    [ledger_only] are the ledger records of the input, each as often as it
    was given, and the bank records of [matched] and [bank_only] are the
    bank records of the input. *)
Theorem match_result_partitions_the_records
  (v : matcher) (ls : list Transaction) (bs : list BankTransaction) :
  NoDup (map bank_id bs) ->
  let r := run_matcher v ls bs in
  omap ledger_transaction (matched_of r ++ ledger_only_of r) ≡ₚ ls /\
  omap bank_transaction (matched_of r ++ bank_only_of r) ≡ₚ bs.
Proof.
  intros Hnd. cbv zeta. rewrite run_matcher_unfold. by apply greedy_membership.
Qed.

Lemma match_result_partitions_the_records_witness :
  let ls := [Sample.safeway_ledger_other_category; Sample.safeway_ledger] in
  let bs := [Sample.safeway_bank; Sample.safeway_bank_again; Sample.bank 3 9 None None] in
  let r := run_matcher Baseline ls bs in
  omap ledger_transaction (matched_of r ++ ledger_only_of r) ≡ₚ ls /\
  omap bank_transaction (matched_of r ++ bank_only_of r) ≡ₚ bs.
Proof.
  apply (match_result_partitions_the_records Baseline).
  apply (bool_decide_unpack _). vm_compute. reflexivity.
Defined.

(* ================================================================== *)
(** * Facts: the upload batches *)
(* ================================================================== *)

Lemma lex_ltb_irrefl (a : list Z) : lex_ltb a a = false.
Proof.
  induction a as [|x a IH]; [done|].
  simpl. by rewrite Z.ltb_irrefl, IH, andb_false_r.
Qed.

Lemma opt_string_eqb_eq (x y : option string) :
  opt_eqb String.eqb x y = true <-> x = y.
Proof.
  destruct x as [a|], y as [b|]; simpl; try (split; congruence).
  rewrite String.eqb_eq. split; congruence.
Qed.

Lemma count_in_batch_key tx b :
  UploadBatch.batch_id (count_in_batch tx b) = UploadBatch.batch_id b.
Proof.
  unfold count_in_batch. by destruct (bank_date tx).
Qed.

Lemma count_in_batch_count tx b :
  UploadBatch.count (count_in_batch tx b) = (UploadBatch.count b + 1)%nat.
Proof.
  unfold count_in_batch. by destruct (bank_date tx).
Qed.

Lemma count_in_batch_range tx b :
  match UploadBatch.date_start b, UploadBatch.date_end b with
  | Some start, Some end_ => datetime_ltb end_ start = false
  | None, None => True
  | _, _ => False
  end ->
  match UploadBatch.date_start (count_in_batch tx b),
        UploadBatch.date_end (count_in_batch tx b) with
  | Some start, Some end_ => datetime_ltb end_ start = false
  | None, None => True
  | _, _ => False
  end.
Proof.
  unfold count_in_batch.
  destruct (bank_date tx) as [d|]; [|done].
  destruct (UploadBatch.date_start b) as [s|], (UploadBatch.date_end b) as [e|];
    cbn [UploadBatch.date_start UploadBatch.date_end]; try done.
  - intros H. destruct (datetime_ltb d s) eqn:E1, (datetime_ltb e d) eqn:E2; auto.
    apply lex_ltb_irrefl.
  - intros _. apply lex_ltb_irrefl.
Qed.

Lemma of_batch_snoc k p tx :
  of_batch k (p ++ [tx])
  = of_batch k p ++ (if opt_eqb String.eqb k (bank_upload_batch_id tx) then [tx] else []).
Proof. unfold of_batch. rewrite List.filter_app. by simpl. Qed.

Lemma count_transaction_keys tx batches :
  map UploadBatch.batch_id (count_transaction tx batches)
  = if bool_decide (bank_upload_batch_id tx ∈ map UploadBatch.batch_id batches)
    then map UploadBatch.batch_id batches
    else map UploadBatch.batch_id batches ++ [bank_upload_batch_id tx].
Proof.
  induction batches as [|b batches IH]; cbn [count_transaction map].
  - rewrite bool_decide_eq_false_2 by apply not_elem_of_nil.
    by rewrite count_in_batch_key.
  - destruct (opt_eqb _ _ _) eqn:E.
    + apply opt_string_eqb_eq in E. cbn [map]. rewrite count_in_batch_key.
      rewrite bool_decide_eq_true_2; [done|]. rewrite E. by left.
    + cbn [map]. rewrite IH.
      assert (Hne : UploadBatch.batch_id b <> bank_upload_batch_id tx).
      { intros H. apply opt_string_eqb_eq in H. congruence. }
      destruct (bool_decide (bank_upload_batch_id tx ∈ map UploadBatch.batch_id batches)) eqn:D.
      * apply bool_decide_eq_true in D.
        rewrite bool_decide_eq_true_2; [done|]. by right.
      * apply bool_decide_eq_false in D.
        rewrite bool_decide_eq_false_2; [done|].
        intros H. apply elem_of_cons in H as [H|H]; [by apply Hne | by apply D].
Qed.

Lemma of_batch_none k p :
  (forall tx, tx ∈ p -> bank_upload_batch_id tx <> k) -> of_batch k p = [].
Proof.
  unfold of_batch. induction p as [|tx p IH]; intros H; [done|].
  simpl. destruct (opt_eqb _ _ _) eqn:E.
  - apply opt_string_eqb_eq in E. exfalso. apply (H tx); [by left | done].
  - apply IH. intros tx' Htx'. apply H. by right.
Qed.

Lemma batch_entry_hit p tx b :
  UploadBatch.batch_id b = bank_upload_batch_id tx ->
  (UploadBatch.count b = length (of_batch (UploadBatch.batch_id b) p)) ->
  match UploadBatch.date_start b, UploadBatch.date_end b with
  | Some start, Some end_ => datetime_ltb end_ start = false
  | None, None => True
  | _, _ => False
  end ->
  batch_entry_ok (p ++ [tx]) (count_in_batch tx b).
Proof.
  intros Hk Hc Hr. unfold batch_entry_ok.
  rewrite count_in_batch_key, count_in_batch_count, of_batch_snoc.
  rewrite (proj2 (opt_string_eqb_eq _ _) Hk), length_app. simpl.
  split; [lia|]. split; [lia|]. by apply count_in_batch_range.
Qed.

Lemma batch_entry_miss p tx b :
  UploadBatch.batch_id b <> bank_upload_batch_id tx ->
  batch_entry_ok p b -> batch_entry_ok (p ++ [tx]) b.
Proof.
  intros Hk (Hc & Hpos & Hr). unfold batch_entry_ok. rewrite of_batch_snoc.
  destruct (opt_eqb _ _ _) eqn:E; [by apply opt_string_eqb_eq in E|].
  by rewrite app_nil_r.
Qed.

Lemma count_transaction_entries p tx : forall batches,
  NoDup (map UploadBatch.batch_id batches) ->
  Forall (batch_entry_ok p) batches ->
  (bank_upload_batch_id tx ∉ map UploadBatch.batch_id batches ->
   of_batch (bank_upload_batch_id tx) p = []) ->
  Forall (batch_entry_ok (p ++ [tx])) (count_transaction tx batches).
Proof.
  induction batches as [|b batches IH]; intros Hnd Hall Hnew; cbn [count_transaction].
  - constructor; [|constructor].
    apply batch_entry_hit; [done| |done].
    cbn [UploadBatch.count UploadBatch.batch_id]. rewrite Hnew; [done|]. apply not_elem_of_nil.
  - simpl in Hnd. apply NoDup_cons in Hnd as [Hnotin Hnd].
    apply Forall_cons in Hall as [Hb Hall].
    destruct (opt_eqb _ _ _) eqn:E.
    + apply opt_string_eqb_eq in E. constructor.
      * destruct Hb as (Hc & _ & Hr). by apply batch_entry_hit.
      * rewrite Forall_forall in Hall. apply Forall_forall. intros b' Hb'.
        apply batch_entry_miss; [|by apply Hall].
        intros Heq. apply Hnotin. rewrite E, <- Heq.
        apply list_elem_of_fmap. by exists b'.
    + assert (Hne : UploadBatch.batch_id b <> bank_upload_batch_id tx).
      { intros H. apply opt_string_eqb_eq in H. congruence. }
      constructor; [by apply batch_entry_miss|].
      apply IH; [exact Hnd | exact Hall|].
      intros Hout. apply Hnew. intros H. simpl in H.
      apply elem_of_cons in H as [H|H]; [by apply Hne | by apply Hout].
Qed.

Lemma count_transaction_sum tx batches :
  list_sum (map UploadBatch.count (count_transaction tx batches))
  = (list_sum (map UploadBatch.count batches) + 1)%nat.
Proof.
  induction batches as [|b batches IH]; simpl.
  - rewrite count_in_batch_count. simpl. lia.
  - destruct (opt_eqb _ _ _); simpl.
    + rewrite count_in_batch_count. lia.
    + rewrite IH. lia.
Qed.

Lemma batches_of_step p tx batches :
  batches_of p batches -> batches_of (p ++ [tx]) (count_transaction tx batches).
Proof.
  intros (Hnd & Hall & Hok). unfold batches_of.
  rewrite count_transaction_keys.
  assert (Hnew : bank_upload_batch_id tx ∉ map UploadBatch.batch_id batches ->
                 of_batch (bank_upload_batch_id tx) p = []).
  { intros Hout. apply of_batch_none. intros tx' Htx' Heq.
    apply Hout. rewrite <- Heq. by apply Hall. }
  split; [|split].
  - destruct (bool_decide _) eqn:D; [exact Hnd|].
    apply bool_decide_eq_false in D. apply NoDup_app. split; [exact Hnd|].
    split; [|apply NoDup_singleton].
    intros k Hk Hk'. apply list_elem_of_singleton in Hk'. by subst k.
  - intros tx' Htx'. apply elem_of_app in Htx' as [Htx'|Htx'].
    + destruct (bool_decide _); [by apply Hall|].
      apply elem_of_app. left. by apply Hall.
    + apply list_elem_of_singleton in Htx'. subst tx'.
      destruct (bool_decide _) eqn:D.
      * by apply bool_decide_eq_true in D.
      * apply elem_of_app. right. by left.
  - by apply (count_transaction_entries p tx batches).
Qed.

Lemma batches_of_fold txs : forall p batches,
  batches_of p batches ->
  let batches' := fold_left (fun batches tx => count_transaction tx batches) txs batches in
  batches_of (p ++ txs) batches' /\
  list_sum (map UploadBatch.count batches')
  = (list_sum (map UploadBatch.count batches) + length txs)%nat.
Proof.
  induction txs as [|tx txs IH]; intros p batches H; cbv zeta.
  - simpl. rewrite app_nil_r. split; [exact H | lia].
  - cbn [fold_left].
    destruct (IH (p ++ [tx]) (count_transaction tx batches) (batches_of_step p tx batches H))
      as [Hinv Hsum].
    cbv zeta in Hinv, Hsum. rewrite <- app_assoc in Hinv. split; [exact Hinv|].
    rewrite Hsum, count_transaction_sum. simpl. lia.
Qed.

(** X27.  The upload batches are computed from the first thousand rows of
    the listing only.  There is one entry per batch identifier occurring
    among these rows and none else; the count of an entry is the number of
    these rows with its identifier; the counts add up to the number of
    these rows; and the end of a date range is never before its start. *)
Theorem upload_batches_count_the_listed_rows (ordered : list BankTransaction) :
  let listed := take 1000 ordered in
  let batches := (get_upload_batches ordered).1 in
  (get_upload_batches ordered).2 = length batches /\
  NoDup (map UploadBatch.batch_id batches) /\
  (forall k, k ∈ map UploadBatch.batch_id batches
             <-> exists tx, tx ∈ listed /\ bank_upload_batch_id tx = k) /\
  Forall (fun b =>
            UploadBatch.count b = length (of_batch (UploadBatch.batch_id b) listed) /\
            match UploadBatch.date_start b, UploadBatch.date_end b with
            | Some start, Some end_ => datetime_ltb end_ start = false
            | None, None => True
            | _, _ => False
            end)
         batches /\
  list_sum (map UploadBatch.count batches) = Nat.min 1000 (length ordered).
Proof.
  cbv zeta. unfold get_upload_batches, get_user_bank_transactions.
  cbn [list_transactions fst snd]. rewrite drop_0.
  assert (H0 : batches_of [] []).
  { split; [constructor|]. split; [intros tx Htx; by apply elem_of_nil in Htx | constructor]. }
  destruct (batches_of_fold (take 1000 ordered) [] [] H0) as [(Hnd & Hall & Hok) Hsum].
  cbv zeta in Hnd, Hall, Hok, Hsum. cbn [app] in Hnd, Hall, Hok.
  set (batches := fold_left _ (take 1000 ordered) []) in *.
  split; [done|]. split; [exact Hnd|]. split; [|split].
  - intros k. split.
    + intros Hk. apply list_elem_of_fmap in Hk as (b & -> & Hb).
      rewrite Forall_forall in Hok. destruct (Hok b Hb) as (Hc & Hpos & _).
      rewrite Hc in Hpos.
      destruct (of_batch (UploadBatch.batch_id b) (take 1000 ordered)) as [|tx l] eqn:E;
        [simpl in Hpos; lia|].
      assert (Hin : tx ∈ of_batch (UploadBatch.batch_id b) (take 1000 ordered))
        by (rewrite E; by left).
      apply list_elem_of_In, List.filter_In in Hin as [Hin Heq].
      exists tx. split; [by apply list_elem_of_In|].
      apply opt_string_eqb_eq in Heq. done.
    + intros (tx & Htx & <-). by apply Hall.
  - eapply Forall_impl; [exact Hok|]. intros b (Hc & _ & Hr). by split.
  - rewrite Hsum, length_take.
    change (list_sum (map UploadBatch.count [])) with 0%nat. lia.
Qed.

(* ================================================================== *)
(** * Facts: what the matchers read of a record *)
(* ================================================================== *)

Section MatcherRenaming.

Variable score : Transaction -> BankTransaction -> Q.
Variable threshold : Q.
Variable gl : Transaction -> Transaction.
Variable gb : BankTransaction -> BankTransaction.
Variable f : Z -> Z.

Hypothesis score_kept : forall l b, score (gl l) (gb b) = score l b.
Hypothesis id_renamed : forall b, bank_id (gb b) = f (bank_id b).
Hypothesis f_injective : forall i j, f i = f j -> i = j.

Lemma claimed_renamed (claimed : gset Z) (b : BankTransaction) :
  bank_id (gb b) ∈ (set_map f claimed : gset Z) <-> bank_id b ∈ claimed.
Proof.
  rewrite id_renamed, elem_of_map. split.
  - intros (j & Hj & Hin). apply f_injective in Hj. by subst j.
  - intros Hin. by exists (bank_id b).
Qed.

Lemma scan_step_renamed l claimed best b :
  scan_step score threshold (gl l) (set_map f claimed) (gb <$> best.1, best.2) (gb b)
  = (gb <$> (scan_step score threshold l claimed best b).1,
     (scan_step score threshold l claimed best b).2).
Proof.
  unfold scan_step.
  rewrite (bool_decide_ext _ _ (claimed_renamed claimed b)), score_kept.
  destruct (bool_decide (bank_id b ∈ claimed)); [done|].
  cbn [fst snd]. by destruct (PyNum.ltb best.2 (score l b) && PyNum.ltb threshold (score l b)).
Qed.

Lemma best_candidate_renamed l claimed bs :
  best_candidate score threshold (gl l) (set_map f claimed) (map gb bs)
  = (gb <$> (best_candidate score threshold l claimed bs).1,
     (best_candidate score threshold l claimed bs).2).
Proof.
  unfold best_candidate.
  change (@None BankTransaction, 0) with (gb <$> (@None BankTransaction, 0).1, (@None BankTransaction, 0).2) at 1.
  generalize (@None BankTransaction, 0). 
  induction bs as [|b bs IH]; intros best; [done|].
  cbn [map fold_left]. rewrite scan_step_renamed. apply IH.
Qed.

(** The states of the two runs correspond. *)
Lemma match_loop_renamed bs ls : forall st st',
  matched st' = map (map_match gl gb) (matched st) ->
  ledger_only st' = map (map_match gl gb) (ledger_only st) ->
  matched_bank_ids st' = set_map f (matched_bank_ids st) ->
  let r := fold_left (match_step score threshold bs) ls st in
  let r' := fold_left (match_step score threshold (map gb bs)) (map gl ls) st' in
  matched r' = map (map_match gl gb) (matched r) /\
  ledger_only r' = map (map_match gl gb) (ledger_only r) /\
  matched_bank_ids r' = set_map f (matched_bank_ids r).
Proof.
  induction ls as [|l ls IH]; intros st st' Hm Hlo Hids; cbv zeta; [done|].
  cbn [map fold_left]. apply IH; unfold match_step;
    rewrite Hids, best_candidate_renamed;
    destruct (best_candidate score threshold l (matched_bank_ids st) bs) as [[b|] c];
    cbn [fst snd fmap option_fmap option_map matched ledger_only matched_bank_ids];
    rewrite ?Hm, ?Hlo, ?map_app; try done.
  rewrite set_map_union_L, set_map_singleton_L, id_renamed. done.
Qed.

Lemma unmatched_bank_renamed (claimed : gset Z) bs :
  unmatched_bank (set_map f claimed) (map gb bs)
  = map (map_match gl gb) (unmatched_bank claimed bs).
Proof.
  unfold unmatched_bank. induction bs as [|b bs IH]; [done|].
  cbn [map]. destruct (decide (bank_id b ∈ claimed)) as [Hin|Hout].
  - rewrite (filter_cons_False _ (gb b)) by (intros H; apply H; by apply claimed_renamed).
    rewrite (filter_cons_False _ b) by (intros H; by apply H). exact IH.
  - rewrite (filter_cons_True _ (gb b)) by (intros H; apply Hout; by apply claimed_renamed).
    rewrite (filter_cons_True _ b) by exact Hout.
    cbn [map]. by rewrite IH.
Qed.

Lemma greedy_match_renamed ls bs :
  greedy_match score threshold (map gl ls) (map gb bs)
  = (map (map_match gl gb) (matched_of (greedy_match score threshold ls bs)),
     map (map_match gl gb) (ledger_only_of (greedy_match score threshold ls bs)),
     map (map_match gl gb) (bank_only_of (greedy_match score threshold ls bs))).
Proof.
  unfold greedy_match, matched_of, ledger_only_of, bank_only_of. cbn [fst snd].
  destruct (match_loop_renamed bs ls initial_state initial_state)
    as (Hm & Hlo & Hids); try done.
  cbv zeta in Hm, Hlo, Hids. unfold match_loop.
  by rewrite Hm, Hlo, Hids, unmatched_bank_renamed.
Qed.

End MatcherRenaming.

Lemma baseline_score_reads_four_fields l l' b b' :
  tx_amount l' = tx_amount l -> tx_transaction_date l' = tx_transaction_date l ->
  tx_description l' = tx_description l -> tx_category l' = tx_category l ->
  bank_amount b' = bank_amount b -> bank_date b' = bank_date b ->
  bank_description b' = bank_description b -> bank_category b' = bank_category b ->
  _calculate_match_confidence l' b' = _calculate_match_confidence l b.
Proof.
  intros H1 H2 H3 H4 H5 H6 H7 H8.
  unfold _calculate_match_confidence, amount_component, date_component,
    description_component, category_component.
  by rewrite H1, H2, H3, H4, H5, H6, H7, H8.
Qed.

(** X28.  The baseline matcher reads the amount, date, description and
    category of the records and nothing else, and it uses the bank ids only
    to tell bank records apart: changing any other field, and renaming the
    bank ids injectively, changes the three result lists only by carrying
    the changed records. *)
Theorem baseline_match_reads_four_fields_and_distinct_ids
  (gl : Transaction -> Transaction) (gb : BankTransaction -> BankTransaction)
  (f : Z -> Z) (ls : list Transaction) (bs : list BankTransaction) :
  (forall l, tx_amount (gl l) = tx_amount l /\
             tx_transaction_date (gl l) = tx_transaction_date l /\
             tx_description (gl l) = tx_description l /\
             tx_category (gl l) = tx_category l) ->
  (forall b, bank_amount (gb b) = bank_amount b /\
             bank_date (gb b) = bank_date b /\
             bank_description (gb b) = bank_description b /\
             bank_category (gb b) = bank_category b /\
             bank_id (gb b) = f (bank_id b)) ->
  (forall i j, f i = f j -> i = j) ->
  let r := _match_transactions ls bs in
  _match_transactions (map gl ls) (map gb bs)
  = (map (map_match gl gb) (matched_of r),
     map (map_match gl gb) (ledger_only_of r),
     map (map_match gl gb) (bank_only_of r)).
Proof.
  intros Hl Hb Hf. cbv zeta. unfold _match_transactions.
  apply (greedy_match_renamed _ _ gl gb f); [|apply Hb|exact Hf].
  intros l b. destruct (Hl l) as (? & ? & ? & ?). destruct (Hb b) as (? & ? & ? & ? & _).
  by apply baseline_score_reads_four_fields.
Qed.

Lemma baseline_match_reads_four_fields_and_distinct_ids_witness :
  let gl := stored_as_ledger 7 100 in
  let gb := stored_as_bank 7 "batch-7" 50 in
  let r := _match_transactions reference_ledger reference_bank in
  _match_transactions (map gl reference_ledger) (map gb reference_bank)
  = (map (map_match gl gb) (matched_of r),
     map (map_match gl gb) (ledger_only_of r),
     map (map_match gl gb) (bank_only_of r)).
Proof.
  intros gl gb.
  apply (baseline_match_reads_four_fields_and_distinct_ids gl gb (fun i => 50 + i)%Z).
  - intros l. repeat split; reflexivity.
  - intros b. repeat split; reflexivity.
  - intros i j H. lia.
Defined.

(* ================================================================== *)
(** * Facts: the sample comparison *)
(* ================================================================== *)

Lemma filter_disjoint {A} (p q : A -> bool) (rows : list A) :
  (forall x, q x = true -> p x = false) ->
  List.filter p (List.filter q rows) = [].
Proof.
  intros H. induction rows as [|x rows IH]; [done|].
  simpl. destruct (q x) eqn:E; [|exact IH].
  simpl. by rewrite (H x E).
Qed.

Lemma sample_rows_stored (ledger : LedgerTable) (db : Database)
  (batch_id : string) (user_id : Z) :
  let stored := generate_sample_comparison_data ledger db batch_id user_id in
  query_transactions (transaction_rows stored.1.2) user_id
  = map (stored_as_ledger user_id (next_transaction_id ledger)) reference_ledger /\
  query_bank_transactions stored.2 user_id None
  = map (stored_as_bank user_id batch_id (next_bank_id db)) reference_bank.
Proof.
  cbv zeta. unfold generate_sample_comparison_data. cbn [fst snd]. split.
  - unfold query_transactions, sample_ledger_transactions, delete_user_transactions.
    cbn [fold_left ledger_add transaction_rows next_transaction_id].
    rewrite !List.filter_app, filter_disjoint
      by (intros x Hx; by apply negb_true_iff in Hx).
    cbn [List.filter tx_user_id sample_ledger_transaction]. rewrite Z.eqb_refl.
    cbn [app]. unfold reference_ledger, stored_as_ledger.
    cbn. rewrite <- !Z.add_assoc, Z.add_0_r. reflexivity.
  - unfold query_bank_transactions, sample_bank_transactions, delete_user_bank_transactions.
    cbn [fold_left db_add bank_rows next_bank_id snd].
    rewrite !List.filter_app, filter_disjoint
      by (intros x Hx; apply negb_true_iff in Hx; by rewrite Hx).
    cbn [List.filter bank_user_id sample_bank_transaction PyStr.truthy_opt andb].
    rewrite Z.eqb_refl. cbn [app andb].
    unfold reference_bank, stored_as_bank.
    cbn. rewrite <- !Z.add_assoc, Z.add_0_r. reflexivity.
Qed.

Lemma omap_ledger_field {A} (g : Transaction -> option A)
  (gl : Transaction -> Transaction) (gb : BankTransaction -> BankTransaction)
  (ms : list TransactionMatch) :
  (forall l, g (gl l) = g l) ->
  omap (fun m => ledger_transaction m ≫= g) (map (map_match gl gb) ms)
  = omap (fun m => ledger_transaction m ≫= g) ms.
Proof.
  intros Hg. induction ms as [|m ms IH]; [done|].
  cbn [map omap list_omap]. change (list_omap ?h ?l) with (omap h l). rewrite IH.
  unfold map_match at 1. cbn [ledger_transaction].
  destruct (ledger_transaction m) as [l|]; [|done].
  cbn [fmap option_fmap option_map mbind option_bind]. by rewrite Hg.
Qed.

Lemma omap_bank_field {A} (g : BankTransaction -> option A)
  (gl : Transaction -> Transaction) (gb : BankTransaction -> BankTransaction)
  (ms : list TransactionMatch) :
  (forall b, g (gb b) = g b) ->
  omap (fun m => bank_transaction m ≫= g) (map (map_match gl gb) ms)
  = omap (fun m => bank_transaction m ≫= g) ms.
Proof.
  intros Hg. induction ms as [|m ms IH]; [done|].
  cbn [map omap list_omap]. change (list_omap ?h ?l) with (omap h l). rewrite IH.
  unfold map_match at 1. cbn [bank_transaction].
  destruct (bank_transaction m) as [b|]; [|done].
  cbn [fmap option_fmap option_map mbind option_bind]. by rewrite Hg.
Qed.

(** X29.  Whatever the tables held before, the comparison returned by
    [generate_sample_comparison_data] matches all five sample ledger
    records, CHIPOTLE and NETFLIX included, each with the bank record of
    the same merchant, and leaves three bank records unmatched: the summary
    reads 5 ledger and 8 bank records, 5 matched, 0 ledger-only and 3
    bank-only. *)
Theorem sample_comparison_matches_all_five_ledger_records
  (ledger : LedgerTable) (db : Database) (batch_id : string) (user_id : Z) :
  let result := (generate_sample_comparison_data ledger db batch_id user_id).1.1 in
  let s := summary result in
  total_ledger s = 5%nat /\ total_bank s = 8%nat /\
  matched_count s = 5%nat /\ ledger_only_count s = 0%nat /\ bank_only_count s = 3%nat /\
  omap (fun m => ledger_transaction m ≫= tx_merchant_name) (result_matched result)
  = ["SAFEWAY"; "SHELL"; "AMAZON"; "CHIPOTLE"; "NETFLIX"]%string /\
  omap (fun m => bank_transaction m ≫= bank_merchant_name) (result_matched result)
  = ["SAFEWAY"; "SHELL"; "AMAZON"; "CHIPOTLE"; "NETFLIX"]%string /\
  omap (fun m => bank_transaction m ≫= bank_merchant_name) (result_bank_only result)
  = ["EMPLOYER CORP"; "CVS"; "ELECTRIC COMPANY"]%string.
Proof.
  cbv zeta.
  destruct (sample_rows_stored ledger db batch_id user_id) as [HL HB].
  cbv zeta in HL, HB. unfold generate_sample_comparison_data in *. cbn [fst snd] in *.
  unfold compare_transactions. cbv zeta. rewrite HL, HB. clear HL HB.
  set (gl := stored_as_ledger user_id (next_transaction_id ledger)).
  set (gb := stored_as_bank user_id batch_id (next_bank_id db)).
  unfold _match_transactions.
  rewrite (greedy_match_renamed _ _ gl gb (fun i => next_bank_id db + i)%Z);
    [|intros l b; by apply baseline_score_reads_four_fields
     |reflexivity
     |intros i j H; lia].
  set (r := greedy_match _calculate_match_confidence 0.7 reference_ledger reference_bank).
  unfold summarize.
  cbn [summary total_ledger total_bank matched_count ledger_only_count bank_only_count
       result_matched result_bank_only].
  rewrite !length_map.
  rewrite (omap_ledger_field tx_merchant_name gl gb) by reflexivity.
  rewrite !(omap_bank_field bank_merchant_name gl gb) by reflexivity.
  subst r. repeat split; vm_compute; reflexivity.
Qed.
